(** * RV32I simulator suite: a shallow embedding and its verified properties

    The development follows the C++ sources one class per module:
    [hex] (hex.cpp), [memory] (memory.cpp), [registerfile]
    (registerfile.cpp), [rv32i_decode] (rv32i_decode.cpp), [rv32i_hart]
    (rv32i_hart.cpp) and [cpu_single_hart] (cpu_single_hart.cpp).

    Conventions.
    - A [uint32_t] is a [Z] in [0, 2^32); an [int32_t] is a [Z] in
      [-2^31, 2^31).  Conversions and wrap-around are written out with
      [u32], [i32], [u16], [u8] and [u64].  Signed arithmetic wraps (two's
      complement), as on every target the simulator is built for.
    - [std::vector] and C arrays are lists, indexed with stdpp's lookup and
      updated with stdpp's insert; every access of the source is guarded,
      and the guards are kept.
    - [std::cout] and [std::cerr] are two text fields of the [world] the
      hart runs in; the optional trace sink [std::ostream *pos] is a
      [bool] ([true] for [&cout], [false] for [nullptr]). *)

From Stdlib Require Import ZArith Lia Bool Ascii String.
From stdpp Require Import base list strings.

Local Open Scope string_scope.
Local Open Scope list_scope.
Local Open Scope Z_scope.

(** ** Fixed-width integers *)

Definition u8  (z : Z) : Z := z mod 2^8.
Definition u16 (z : Z) : Z := z mod 2^16.
Definition u32 (z : Z) : Z := z mod 2^32.
Definition u64 (z : Z) : Z := z mod 2^64.
Definition i32 (z : Z) : Z := (z + 2^31) mod 2^32 - 2^31.

(** ** Text produced by the stream inserters *)

Definition digit_char (d : Z) : ascii :=
  match d with
  | 0 => "0" | 1 => "1" | 2 => "2" | 3 => "3" | 4 => "4" | 5 => "5"
  | 6 => "6" | 7 => "7" | 8 => "8" | 9 => "9" | 10 => "a" | 11 => "b"
  | 12 => "c" | 13 => "d" | 14 => "e" | _ => "f"
  end%char.

(** Digits of a non-negative number, most significant first, without
    leading zeros (one digit for zero). *)
Fixpoint digits_go (base : Z) (fuel : nat) (n : Z) (acc : string) : string :=
  match fuel with
  | O => acc
  | S fuel' =>
      let acc' := String (digit_char (n mod base)) acc in
      if n / base =? 0 then acc' else digits_go base fuel' (n / base) acc'
  end.

Definition digits (base n : Z) : string :=
  digits_go base (S (Z.to_nat (Z.log2 n))) n "".

(** [os << std::hex << n] for an unsigned [n]. *)
Definition show_hex (n : Z) : string := digits 16 n.

(** [os << n] for an unsigned [n]. *)
Definition show_dec (n : Z) : string := digits 10 n.

(** [os << n] for a signed [n]. *)
Definition show_int (n : Z) : string :=
  if n <? 0 then "-" +:+ digits 10 (- n) else digits 10 n.

Fixpoint fill (n : nat) (c : ascii) : string :=
  match n with
  | O => ""
  | S n' => String c (fill n' c)
  end.

(** [std::setw(w) << std::setfill(c)] with the default right adjustment. *)
Definition pad_left (w : nat) (c : ascii) (s : string) : string :=
  fill (w - String.length s) c +:+ s.

(** [std::setw(w) << std::setfill(c) << std::left]. *)
Definition pad_right (w : nat) (c : ascii) (s : string) : string :=
  s +:+ fill (w - String.length s) c.

(** [std::endl] *)
Definition endl : string := String (ascii_of_nat 10) "".

(** ** hex.cpp *)

Module hex.

Definition to_hex8 (i : Z) : string :=
  pad_left 2 "0" (show_hex (u16 (u8 i))).

Definition to_hex32 (i : Z) : string :=
  pad_left 8 "0" (show_hex (u32 i)).

Definition to_hex0x32 (i : Z) : string :=
  "0x" +:+ to_hex32 i.

Definition to_hex0x20 (i : Z) : string :=
  "0x" +:+ pad_left 5 "0" (show_hex (Z.land (u32 i) 0x000fffff)).

Definition to_hex0x12 (i : Z) : string :=
  "0x" +:+ pad_left 3 "0" (show_hex (Z.land (u32 i) 0x00000fff)).

End hex.

(** ** memory.cpp

    The byte vector [mem]; every function that can warn returns the lines
    it sends to [std::cerr] next to its result. *)

Module memory.

(** [std::vector<uint8_t> mem] *)
Abbreviation memory := (list Z).

(** [memory::memory]: size rounded in [uint32_t], every byte [0xa5]. *)
Definition new (s : Z) : memory :=
  let s := Z.land (u32 (u32 s + 15)) 0xfffffff0 in
  replicate (Z.to_nat s) 0xa5.

Definition check_illegal (mem : memory) (addr : Z) : bool * list string :=
  if addr >=? Z.of_nat (length mem)
  then (true, ["WARNING: Address out of range: " +:+ hex.to_hex0x32 addr
                 +:+ endl])
  else (false, []).

Definition get_size (mem : memory) : Z := u32 (Z.of_nat (length mem)).

Definition get8 (mem : memory) (addr : Z) : Z * list string :=
  let '(illegal, w) := check_illegal mem addr in
  if negb illegal then (mem !!! Z.to_nat addr, w) else (0, w).

Definition get16 (mem : memory) (addr : Z) : Z * list string :=
  let '(first, w1) := get8 mem addr in
  let '(second, w2) := get8 mem (u32 (addr + 1)) in
  let second := u16 (Z.shiftl second 8) in
  (u16 (first + second), w1 ++ w2).

Definition get32 (mem : memory) (addr : Z) : Z * list string :=
  let '(first, w1) := get16 mem addr in
  let '(second, w2) := get16 mem (u32 (addr + 2)) in
  let second := u32 (Z.shiftl second 16) in
  (Z.lor first second, w1 ++ w2).

Definition get8_sx (mem : memory) (addr : Z) : Z * list string :=
  let '(insb, w) := get8 mem addr in
  let msb := u8 (Z.shiftr insb 7) in
  let bitmask := 0xffffff00 in
  (if msb =? 1 then i32 (Z.lor (u32 insb) bitmask) else i32 insb, w).

Definition get16_sx (mem : memory) (addr : Z) : Z * list string :=
  let '(insb, w) := get16 mem addr in
  let msb := u16 (Z.shiftr insb 15) in
  let bitmask := 0xffff0000 in
  (if msb =? 1 then i32 (Z.lor (u32 insb) bitmask) else i32 insb, w).

Definition get32_sx (mem : memory) (addr : Z) : Z * list string :=
  let '(v, w) := get32 mem addr in (i32 v, w).

Definition set8 (mem : memory) (addr val : Z) : memory * list string :=
  let '(illegal, w) := check_illegal mem addr in
  if negb illegal then (<[Z.to_nat addr := u8 val]> mem, w) else (mem, w).

Definition set16 (mem : memory) (addr val : Z) : memory * list string :=
  let low_byte := u8 (Z.land val 0xff) in
  let high_byte := u8 (Z.land (Z.shiftr val 8) 0xff) in
  let '(mem, w1) := set8 mem addr low_byte in
  let '(mem, w2) := set8 mem (u32 (addr + 1)) high_byte in
  (mem, w1 ++ w2).

Definition set32 (mem : memory) (addr val : Z) : memory * list string :=
  let low_word := u16 (Z.land val 0xffff) in
  let high_word := u16 (Z.land (Z.shiftr val 16) 0xffff) in
  let '(mem, w1) := set16 mem addr low_word in
  let '(mem, w2) := set16 mem (u32 (addr + 2)) high_word in
  (mem, w1 ++ w2).

(** [memory::load_file] on the bytes of an opened file; a file that cannot
    be opened is [None].  The loop stops at the first byte that does not
    fit. *)
Fixpoint load_bytes (mem : memory) (addr : Z) (bytes : list Z)
  : bool * memory * list string :=
  match bytes with
  | [] => (true, mem, [])
  | i :: rest =>
      let '(illegal, w) := check_illegal mem addr in
      if illegal
      then (false, mem, w ++ ["Program too big." +:+ endl])
      else
        let '(mem, w1) := set8 mem addr i in
        let '(ok, mem, w2) := load_bytes mem (u32 (addr + 1)) rest in
        (ok, mem, w ++ w1 ++ w2)
  end.

Definition load_file (mem : memory) (fname : string)
    (contents : option (list Z)) : bool * memory * list string :=
  match contents with
  | None =>
      (false, mem, ["Can't open file '" +:+ fname +:+ "' for reading."
                      +:+ endl])
  | Some bytes => load_bytes mem 0 bytes
  end.

End memory.

(** ** registerfile.cpp *)

Module registerfile.

(** [std::vector<int32_t> regs] *)
Abbreviation registerfile := (list Z).

(** [regs[0] = 0] and the loop over [1 .. regs.size()). *)
Definition reset (regs : registerfile) : registerfile :=
  match regs with
  | [] => []
  | _ :: rest => 0 :: replicate (length rest) (i32 0xf0f0f0f0)
  end.

(** The constructor: a vector of 32 registers, then [reset]. *)
Definition new : registerfile := reset (replicate 32 0).

(** The index parameter is a [uint32_t]: whatever is passed is converted
    on the way in. *)
Definition set (regs : registerfile) (r val : Z) : registerfile :=
  let r := u32 r in
  if (r =? 0) || (r >=? Z.of_nat (length regs)) then regs
  else <[Z.to_nat r := val]> regs.

Definition get (regs : registerfile) (r : Z) : Z :=
  let r := u32 r in
  if (r =? 0) || (r >=? Z.of_nat (length regs)) then 0
  else regs !!! Z.to_nat r.

(** [registerfile::dump]: the text sent to [std::cout], one line for each
    of x0, x8, x16 and x24.  It reads the vector directly, not through
    [get]. *)
Definition dump_line (regs : registerfile) (hdr : string) (base : Z)
  : string :=
  hdr +:+ "x" +:+ show_int base
    +:+ (if base <? 10 then " " else "")
    +:+ String.concat ""
          (map (fun i =>
                  let idx := base + i in
                  " " +:+ hex.to_hex32 (u32 (regs !!! Z.to_nat idx)))
               [0; 1; 2; 3; 4; 5; 6; 7])
    +:+ endl.

Definition dump (regs : registerfile) (hdr : string) : string :=
  String.concat "" (map (dump_line regs hdr) [0; 8; 16; 24]).

End registerfile.

(** ** rv32i_decode.cpp *)

Module rv32i_decode.

Definition mnemonic_width : nat := 8.

Definition opcode_lui     : Z := 0x37.
Definition opcode_auipc   : Z := 0x17.
Definition opcode_jal     : Z := 0x6f.
Definition opcode_jalr    : Z := 0x67.
Definition opcode_btype   : Z := 0x63.
Definition opcode_load    : Z := 0x03.
Definition opcode_store   : Z := 0x23.
Definition opcode_alu_imm : Z := 0x13.
Definition opcode_alu_reg : Z := 0x33.
Definition opcode_system  : Z := 0x73.

(** *** Field extractors *)

Definition get_opcode (insn : Z) : Z := Z.land insn 0x7f.
Definition get_rd     (insn : Z) : Z := Z.land (Z.shiftr insn 7) 0x1f.
Definition get_rs1    (insn : Z) : Z := Z.land (Z.shiftr insn 15) 0x1f.
Definition get_rs2    (insn : Z) : Z := Z.land (Z.shiftr insn 20) 0x1f.
Definition get_funct3 (insn : Z) : Z := Z.land (Z.shiftr insn 12) 0x7.
Definition get_funct7 (insn : Z) : Z := Z.land (Z.shiftr insn 25) 0x7f.

(** *** Immediates *)

Definition get_imm_i (insn : Z) : Z :=
  let imm := i32 (Z.land (Z.shiftr insn 20) 0xfff) in
  let imm :=
    if negb (Z.land imm 0x800 =? 0) then i32 (Z.lor (u32 imm) 0xfffff000)
    else imm in
  imm.

Definition get_imm_u (insn : Z) : Z := i32 (Z.land insn 0xfffff000).

Definition get_imm_b (insn : Z) : Z :=
  let bit12    := i32 (Z.land (Z.shiftr insn 31) 0x1) in
  let bits10_5 := i32 (Z.land (Z.shiftr insn 25) 0x3f) in
  let bits4_1  := i32 (Z.land (Z.shiftr insn 8) 0x0f) in
  let bit11    := i32 (Z.land (Z.shiftr insn 7) 0x1) in
  let imm := Z.lor (Z.lor (Z.lor (Z.shiftl bit12 12) (Z.shiftl bit11 11))
                      (Z.shiftl bits10_5 5))
               (Z.shiftl bits4_1 1) in
  let imm :=
    if negb (bit12 =? 0) then i32 (Z.lor (u32 imm) 0xffffe000) else imm in
  imm.

Definition get_imm_s (insn : Z) : Z :=
  let imm_s := i32 (Z.shiftr (Z.land insn 0xfe000000) (25 - 5)) in
  let imm_s :=
    i32 (Z.lor (u32 imm_s) (Z.shiftr (Z.land insn 0x00000f80) (7 - 0))) in
  let imm_s :=
    if negb (Z.land insn 0x80000000 =? 0)
    then i32 (Z.lor (u32 imm_s) 0xfffff000)
    else imm_s in
  imm_s.

Definition get_imm_j (insn : Z) : Z :=
  let bit20     := i32 (Z.land (Z.shiftr insn 31) 0x1) in
  let bits10_1  := i32 (Z.land (Z.shiftr insn 21) 0x3ff) in
  let bit11     := i32 (Z.land (Z.shiftr insn 20) 0x1) in
  let bits19_12 := i32 (Z.land (Z.shiftr insn 12) 0xff) in
  let imm := Z.lor (Z.lor (Z.lor (Z.shiftl bit20 20) (Z.shiftl bits19_12 12))
                      (Z.shiftl bit11 11))
               (Z.shiftl bits10_1 1) in
  let imm :=
    if negb (bit20 =? 0) then i32 (Z.lor (u32 imm) 0xffe00000) else imm in
  imm.

(** *** Renderers *)

Definition render_illegal_insn : string :=
  "ERROR: UNIMPLEMENTED INSTRUCTION".

Definition render_mnemonic (mnemonic : string) : string :=
  if String.eqb mnemonic "ecall" || String.eqb mnemonic "ebreak"
  then mnemonic
  else pad_right mnemonic_width " " mnemonic.

(** [os << 'x' << r] with [r] an [int]. *)
Definition render_reg (r : Z) : string := "x" +:+ show_int (i32 r).

Definition render_base_disp (rs1 imm : Z) : string :=
  show_int imm +:+ "(" +:+ render_reg rs1 +:+ ")".

(** The immediate goes through [std::hex] with no width and no fill. *)
Definition render_lui (insn : Z) : string :=
  let rd := get_rd insn in
  let imm_u := get_imm_u insn in
  let imm20 := Z.land (Z.shiftr (u32 imm_u) 12) 0xFFFFF in
  render_mnemonic "lui" +:+ render_reg rd +:+ ",0x" +:+ show_hex imm20.

Definition render_auipc (insn : Z) : string :=
  let rd := get_rd insn in
  let imm_u := get_imm_u insn in
  let imm20 := Z.land (Z.shiftr (u32 imm_u) 12) 0xFFFFF in
  render_mnemonic "auipc" +:+ render_reg rd +:+ ",0x" +:+ show_hex imm20.

Definition render_jal (addr insn : Z) : string :=
  let rd := get_rd insn in
  let imm := get_imm_j insn in
  render_mnemonic "jal" +:+ render_reg rd +:+ ","
    +:+ hex.to_hex0x32 (u32 (addr + imm)).

Definition render_jalr (insn : Z) : string :=
  let rd := get_rd insn in
  let rs1 := get_rs1 insn in
  let imm_i := get_imm_i insn in
  render_mnemonic "jalr" +:+ render_reg rd +:+ ","
    +:+ render_base_disp rs1 imm_i.

Definition render_btype (addr insn : Z) (mnemonic : string) : string :=
  let rs1 := get_rs1 insn in
  let rs2 := get_rs2 insn in
  let imm := get_imm_b insn in
  render_mnemonic mnemonic +:+ render_reg rs1 +:+ "," +:+ render_reg rs2
    +:+ "," +:+ hex.to_hex0x32 (u32 (addr + imm)).

Definition render_itype_load (insn : Z) (mnemonic : string) : string :=
  let rd := get_rd insn in
  let rs1 := get_rs1 insn in
  let imm := get_imm_i insn in
  render_mnemonic mnemonic +:+ render_reg rd +:+ ","
    +:+ render_base_disp rs1 imm.

Definition render_stype (insn : Z) (mnemonic : string) : string :=
  let rs1 := get_rs1 insn in
  let rs2 := get_rs2 insn in
  let imm := get_imm_s insn in
  render_mnemonic mnemonic +:+ render_reg rs2 +:+ ","
    +:+ render_base_disp rs1 imm.

Definition render_itype_alu (insn : Z) (mnemonic : string) (imm : Z)
  : string :=
  let rd := get_rd insn in
  let rs1 := get_rs1 insn in
  render_mnemonic mnemonic +:+ render_reg rd +:+ "," +:+ render_reg rs1
    +:+ "," +:+ show_int imm.

Definition render_rtype (insn : Z) (mnemonic : string) : string :=
  let rd := get_rd insn in
  let rs1 := get_rs1 insn in
  let rs2 := get_rs2 insn in
  render_mnemonic mnemonic +:+ render_reg rd +:+ "," +:+ render_reg rs1
    +:+ "," +:+ render_reg rs2.

Definition render_csrrx (insn : Z) (mnemonic : string) : string :=
  let rd := get_rd insn in
  let rs1 := get_rs1 insn in
  let csr := Z.shiftr insn 20 in
  render_mnemonic mnemonic +:+ render_reg rd +:+ ","
    +:+ hex.to_hex0x12 csr +:+ "," +:+ render_reg rs1.

Definition render_csrrxi (insn : Z) (mnemonic : string) : string :=
  let rd := get_rd insn in
  let csr := Z.shiftr insn 20 in
  let zimm := get_rs1 insn in
  render_mnemonic mnemonic +:+ render_reg rd +:+ ","
    +:+ hex.to_hex0x12 csr +:+ "," +:+ show_dec zimm.

(** *** decode: the switch on the opcode, then on funct3 (written in
    binary in the source: funct7 [0100000] is [0x20]) *)

Definition decode (addr insn : Z) : string :=
  let opcode := get_opcode insn in
  let funct3 := get_funct3 insn in
  let funct7 := get_funct7 insn in
  if opcode =? opcode_lui then render_lui insn
  else if opcode =? opcode_auipc then render_auipc insn
  else if opcode =? opcode_jal then render_jal addr insn
  else if opcode =? opcode_jalr then render_jalr insn
  else if opcode =? opcode_btype then
    match funct3 with
    | 0 => render_btype addr insn "beq"
    | 1 => render_btype addr insn "bne"
    | 4 => render_btype addr insn "blt"
    | 5 => render_btype addr insn "bge"
    | 6 => render_btype addr insn "bltu"
    | 7 => render_btype addr insn "bgeu"
    | _ => render_illegal_insn
    end
  else if opcode =? opcode_load then
    match funct3 with
    | 0 => render_itype_load insn "lb"
    | 1 => render_itype_load insn "lh"
    | 2 => render_itype_load insn "lw"
    | 4 => render_itype_load insn "lbu"
    | 5 => render_itype_load insn "lhu"
    | _ => render_illegal_insn
    end
  else if opcode =? opcode_store then
    match funct3 with
    | 0 => render_stype insn "sb"
    | 1 => render_stype insn "sh"
    | 2 => render_stype insn "sw"
    | _ => render_illegal_insn
    end
  else if opcode =? opcode_alu_imm then
    match funct3 with
    | 0 => render_itype_alu insn "addi" (get_imm_i insn)
    | 2 => render_itype_alu insn "slti" (get_imm_i insn)
    | 3 => render_itype_alu insn "sltiu" (get_imm_i insn)
    | 4 => render_itype_alu insn "xori" (get_imm_i insn)
    | 6 => render_itype_alu insn "ori" (get_imm_i insn)
    | 7 => render_itype_alu insn "andi" (get_imm_i insn)
    | 1 =>
        if funct7 =? 0x00
        then render_itype_alu insn "slli" (Z.land (get_imm_i insn) 0x1f)
        else render_illegal_insn
    | 5 =>
        if funct7 =? 0x00
        then render_itype_alu insn "srli" (Z.land (get_imm_i insn) 0x1f)
        else if funct7 =? 0x20
        then render_itype_alu insn "srai" (Z.land (get_imm_i insn) 0x1f)
        else render_illegal_insn
    | _ => render_illegal_insn
    end
  else if opcode =? opcode_alu_reg then
    match funct3 with
    | 0 =>
        if funct7 =? 0x00 then render_rtype insn "add"
        else if funct7 =? 0x20 then render_rtype insn "sub"
        else render_illegal_insn
    | 1 => render_rtype insn "sll"
    | 2 => render_rtype insn "slt"
    | 3 => render_rtype insn "sltu"
    | 4 => render_rtype insn "xor"
    | 5 =>
        if funct7 =? 0x00 then render_rtype insn "srl"
        else if funct7 =? 0x20 then render_rtype insn "sra"
        else render_illegal_insn
    | 6 => render_rtype insn "or"
    | 7 => render_rtype insn "and"
    | _ => render_illegal_insn
    end
  else if opcode =? opcode_system then
    match funct3 with
    | 0 =>
        if insn =? 0x00000073 then render_mnemonic "ecall"
        else if insn =? 0x00100073 then render_mnemonic "ebreak"
        else render_illegal_insn
    | 1 => render_csrrx insn "csrrw"
    | 2 => render_csrrx insn "csrrs"
    | 3 => render_csrrx insn "csrrc"
    | 5 => render_csrrxi insn "csrrwi"
    | 6 => render_csrrxi insn "csrrsi"
    | 7 => render_csrrxi insn "csrrci"
    | _ => render_illegal_insn
    end
  else render_illegal_insn.

End rv32i_decode.

(** ** rv32i_hart.h: the state of a hart and of the two output streams *)

Record rv32i_hart := mk_hart {
  regs : registerfile.registerfile;
  mem : memory.memory;
  halt : bool;
  halt_reason : string;
  show_instructions : bool;
  show_registers : bool;
  insn_counter : Z;
  pc : Z;
  mhartid : Z;
  csr : list Z
}.

Record world := mk_world {
  hart : rv32i_hart;
  cout : string;
  cerr : string
}.

Definition with_regs (r : registerfile.registerfile) (h : rv32i_hart) :=
  mk_hart r (mem h) (halt h) (halt_reason h) (show_instructions h)
    (show_registers h) (insn_counter h) (pc h) (mhartid h) (csr h).

Definition with_mem (m : memory.memory) (h : rv32i_hart) :=
  mk_hart (regs h) m (halt h) (halt_reason h) (show_instructions h)
    (show_registers h) (insn_counter h) (pc h) (mhartid h) (csr h).

Definition with_halt (b : bool) (reason : string) (h : rv32i_hart) :=
  mk_hart (regs h) (mem h) b reason (show_instructions h)
    (show_registers h) (insn_counter h) (pc h) (mhartid h) (csr h).

Definition with_insn_counter (c : Z) (h : rv32i_hart) :=
  mk_hart (regs h) (mem h) (halt h) (halt_reason h) (show_instructions h)
    (show_registers h) c (pc h) (mhartid h) (csr h).

Definition with_pc (p : Z) (h : rv32i_hart) :=
  mk_hart (regs h) (mem h) (halt h) (halt_reason h) (show_instructions h)
    (show_registers h) (insn_counter h) p (mhartid h) (csr h).

Definition with_mhartid (i : Z) (h : rv32i_hart) :=
  mk_hart (regs h) (mem h) (halt h) (halt_reason h) (show_instructions h)
    (show_registers h) (insn_counter h) (pc h) i (csr h).

Definition with_csr (c : list Z) (h : rv32i_hart) :=
  mk_hart (regs h) (mem h) (halt h) (halt_reason h) (show_instructions h)
    (show_registers h) (insn_counter h) (pc h) (mhartid h) c.

(** [set_show_instructions] and [set_show_registers] of rv32i_hart.h *)
Definition set_show_instructions (b : bool) (h : rv32i_hart) :=
  mk_hart (regs h) (mem h) (halt h) (halt_reason h) b
    (show_registers h) (insn_counter h) (pc h) (mhartid h) (csr h).

Definition set_show_registers (b : bool) (h : rv32i_hart) :=
  mk_hart (regs h) (mem h) (halt h) (halt_reason h) (show_instructions h)
    b (insn_counter h) (pc h) (mhartid h) (csr h).

(** A change of the hart inside the world. *)
Definition on_hart (f : rv32i_hart -> rv32i_hart) (w : world) : world :=
  mk_world (f (hart w)) (cout w) (cerr w).

(** [std::cout << s] *)
Definition print (s : string) (w : world) : world :=
  mk_world (hart w) (cout w +:+ s) (cerr w).

(** The warning lines of a memory access, sent to [std::cerr]. *)
Definition warn (lines : list string) (w : world) : world :=
  mk_world (hart w) (cout w) (cerr w +:+ String.concat "" lines).

(** [regs.set(r, val)] on the register file of the hart. *)
Definition regs_set (r val : Z) (w : world) : world :=
  on_hart (fun h => with_regs (registerfile.set (regs h) r val) h) w.

(** [pc += 4] *)
Definition advance_pc (w : world) : world :=
  on_hart (fun h => with_pc (u32 (pc h + 4)) h) w.

(** [insn_counter++] *)
Definition count_insn (w : world) : world :=
  on_hart (fun h => with_insn_counter (u64 (insn_counter h + 1)) h) w.

(** [*pos << s] when the sink is there. *)
Definition trace (pos : bool) (s : string) (w : world) : world :=
  if pos then print s w else w.

(** ** rv32i_hart.cpp *)

Module rv32i_hart.
Import rv32i_decode.

Definition instruction_width : nat := 35.

(** The hart a constructor call leaves, bound to memory [m]. *)
Definition new (m : memory.memory) : rv32i_hart :=
  mk_hart registerfile.new m false "none" false false 0 0 0
    (replicate 4096 0).

Definition reset (h : rv32i_hart) : rv32i_hart :=
  mk_hart (registerfile.reset (regs h)) (mem h) false "none"
    (show_instructions h) (show_registers h) 0 0 0
    (replicate (length (csr h)) 0).

(** [rv32i_hart::dump]: four rows of eight registers read through
    [regs.get], then the pc. *)
Definition print_row (h : rv32i_hart) (label : string) (start_reg : Z)
  : string :=
  label
    +:+ String.concat ""
          (map (fun i =>
                  let r := start_reg + i in
                  let val := u32 (registerfile.get (regs h) r) in
                  hex.to_hex32 val
                    +:+ (if i <? 7
                         then (if i =? 3 then "  " else " ")
                         else ""))
               [0; 1; 2; 3; 4; 5; 6; 7])
    +:+ endl.

Definition dump (hdr : string) (w : world) : world :=
  let h := hart w in
  print (print_row h " x0 " 0 +:+ print_row h " x8 " 8
           +:+ print_row h "x16 " 16 +:+ print_row h "x24 " 24
           +:+ " pc " +:+ hex.to_hex32 (pc h) +:+ endl) w.

(** [*pos << std::setw(instruction_width) << std::setfill(' ')
         << std::left << s] *)
Definition trace_insn (pos : bool) (s : string) (w : world) : world :=
  trace pos (pad_right instruction_width " " s) w.

Definition exec_illegal_insn (insn : Z) (pos : bool) (w : world) : world :=
  let w := trace pos render_illegal_insn w in
  on_hart (with_halt true "Illegal instruction") w.

Definition exec_lui (insn : Z) (pos : bool) (w : world) : world :=
  let rd := get_rd insn in
  let imm := get_imm_u insn in
  let val := imm in
  let w := trace_insn pos (render_lui insn) w in
  let w := trace pos ("// " +:+ render_reg rd +:+ " = "
                        +:+ hex.to_hex0x32 val) w in
  let w := regs_set rd val w in
  advance_pc w.

Definition exec_auipc (insn : Z) (pos : bool) (w : world) : world :=
  let rd := get_rd insn in
  let imm := get_imm_u insn in
  let old_pc := pc (hart w) in
  let val := i32 (u32 (old_pc + imm)) in
  let w := trace_insn pos (render_auipc insn) w in
  let w := trace pos ("// " +:+ render_reg rd
                        +:+ " = " +:+ hex.to_hex0x32 old_pc
                        +:+ " + " +:+ hex.to_hex0x32 imm
                        +:+ " = " +:+ hex.to_hex0x32 val) w in
  let w := regs_set rd val w in
  advance_pc w.

Definition exec_jal (insn : Z) (pos : bool) (w : world) : world :=
  let rd := get_rd insn in
  let imm := get_imm_j insn in
  let pc_before := pc (hart w) in
  let target := u32 (pc_before + imm) in
  let retaddr := i32 (u32 (pc_before + 4)) in
  let w := trace_insn pos (render_jal pc_before insn) w in
  let w := trace pos ("// " +:+ render_reg rd
                        +:+ " = " +:+ hex.to_hex0x32 retaddr
                        +:+ ",  pc = " +:+ hex.to_hex0x32 target) w in
  let w := regs_set rd retaddr w in
  on_hart (with_pc target) w.

Definition exec_jalr (insn : Z) (pos : bool) (w : world) : world :=
  let rd := get_rd insn in
  let rs1 := get_rs1 insn in
  let imm := get_imm_i insn in
  let pc_before := pc (hart w) in
  let rs1_val := u32 (registerfile.get (regs (hart w)) rs1) in
  let target := Z.land (u32 (rs1_val + imm)) 0xfffffffe in
  let retaddr := i32 (u32 (pc_before + 4)) in
  let w := trace_insn pos (render_jalr insn) w in
  let w := trace pos ("// " +:+ render_reg rd
                        +:+ " = " +:+ hex.to_hex0x32 retaddr
                        +:+ ",  pc = " +:+ hex.to_hex0x32 target) w in
  let w := regs_set rd retaddr w in
  on_hart (with_pc target) w.

(** The switch of [exec_alu_imm]: the mnemonic, the immediate shown and
    the result, or [None] where the source leaves through
    [exec_illegal_insn]. *)
Definition alu_imm_case (f3 f7 imm rs1_val : Z) : option (string * Z * Z) :=
  match f3 with
  | 0 => Some ("addi", imm, i32 (rs1_val + imm))
  | 2 => Some ("slti", imm, if rs1_val <? imm then 1 else 0)
  | 3 => Some ("sltiu", imm, if u32 rs1_val <? u32 imm then 1 else 0)
  | 4 => Some ("xori", imm, Z.lxor rs1_val imm)
  | 6 => Some ("ori", imm, Z.lor rs1_val imm)
  | 7 => Some ("andi", imm, Z.land rs1_val imm)
  | 1 =>
      if negb (f7 =? 0x00) then None
      else
        let shown_imm := Z.land imm 0x1f in
        Some ("slli", shown_imm, i32 (u32 (Z.shiftl (u32 rs1_val) shown_imm)))
  | 5 =>
      let shown_imm := Z.land imm 0x1f in
      if f7 =? 0x00
      then Some ("srli", shown_imm, i32 (Z.shiftr (u32 rs1_val) shown_imm))
      else if f7 =? 0x20
      then Some ("srai", shown_imm, Z.shiftr rs1_val shown_imm)
      else None
  | _ => None
  end.

Definition exec_alu_imm (insn : Z) (pos : bool) (w : world) : world :=
  let rd := get_rd insn in
  let rs1 := get_rs1 insn in
  let f3 := get_funct3 insn in
  let f7 := get_funct7 insn in
  let imm := get_imm_i insn in
  let rs1_val := registerfile.get (regs (hart w)) rs1 in
  match alu_imm_case f3 f7 imm rs1_val with
  | None => exec_illegal_insn insn pos w
  | Some (mnemonic, shown_imm, result) =>
      let w := trace_insn pos (render_itype_alu insn mnemonic shown_imm) w in
      let w := trace pos ("// " +:+ render_reg rd
                            +:+ " = " +:+ hex.to_hex0x32 result) w in
      let w := regs_set rd result w in
      advance_pc w
  end.

(** The switch of [exec_alu_reg]. *)
Definition alu_reg_case (f3 f7 rs1_val rs2_val : Z) : option (string * Z) :=
  match f3 with
  | 0 =>
      if f7 =? 0x00 then Some ("add", i32 (rs1_val + rs2_val))
      else if f7 =? 0x20 then Some ("sub", i32 (rs1_val - rs2_val))
      else None
  | 1 =>
      if negb (f7 =? 0x00) then None
      else Some ("sll", i32 (u32 (Z.shiftl (u32 rs1_val)
                                       (Z.land rs2_val 0x1f))))
  | 2 =>
      if negb (f7 =? 0x00) then None
      else Some ("slt", if rs1_val <? rs2_val then 1 else 0)
  | 3 =>
      if negb (f7 =? 0x00) then None
      else Some ("sltu", if u32 rs1_val <? u32 rs2_val then 1 else 0)
  | 4 =>
      if negb (f7 =? 0x00) then None
      else Some ("xor", Z.lxor rs1_val rs2_val)
  | 5 =>
      if f7 =? 0x00
      then Some ("srl", i32 (Z.shiftr (u32 rs1_val) (Z.land rs2_val 0x1f)))
      else if f7 =? 0x20
      then Some ("sra", Z.shiftr rs1_val (Z.land rs2_val 0x1f))
      else None
  | 6 =>
      if negb (f7 =? 0x00) then None
      else Some ("or", Z.lor rs1_val rs2_val)
  | 7 =>
      if negb (f7 =? 0x00) then None
      else Some ("and", Z.land rs1_val rs2_val)
  | _ => None
  end.

Definition exec_alu_reg (insn : Z) (pos : bool) (w : world) : world :=
  let rd := get_rd insn in
  let rs1 := get_rs1 insn in
  let rs2 := get_rs2 insn in
  let f3 := get_funct3 insn in
  let f7 := get_funct7 insn in
  let rs1_val := registerfile.get (regs (hart w)) rs1 in
  let rs2_val := registerfile.get (regs (hart w)) rs2 in
  match alu_reg_case f3 f7 rs1_val rs2_val with
  | None => exec_illegal_insn insn pos w
  | Some (mnemonic, result) =>
      let w := trace_insn pos (render_rtype insn mnemonic) w in
      let w := trace pos ("// " +:+ render_reg rd
                            +:+ " = " +:+ hex.to_hex0x32 result) w in
      let w := regs_set rd result w in
      advance_pc w
  end.

(** The switch of [exec_load]: the mnemonic, the value loaded and the
    warnings of the memory reads. *)
Definition load_case (m : memory.memory) (f3 addr : Z)
  : option (string * Z * list string) :=
  match f3 with
  | 0 => let '(v, ws) := memory.get8_sx m addr in Some ("lb", v, ws)
  | 1 => let '(v, ws) := memory.get16_sx m addr in Some ("lh", v, ws)
  | 2 => let '(v, ws) := memory.get32 m addr in Some ("lw", i32 v, ws)
  | 4 => let '(v, ws) := memory.get8 m addr in Some ("lbu", i32 v, ws)
  | 5 => let '(v, ws) := memory.get16 m addr in Some ("lhu", i32 v, ws)
  | _ => None
  end.

Definition exec_load (insn : Z) (pos : bool) (w : world) : world :=
  let rd := get_rd insn in
  let rs1 := get_rs1 insn in
  let f3 := get_funct3 insn in
  let imm := get_imm_i insn in
  let base := u32 (registerfile.get (regs (hart w)) rs1) in
  let addr := u32 (base + imm) in
  match load_case (mem (hart w)) f3 addr with
  | None => exec_illegal_insn insn pos w
  | Some (mnemonic, loaded, ws) =>
      let w := warn ws w in
      let w := trace_insn pos (render_itype_load insn mnemonic) w in
      let w := trace pos ("// " +:+ render_reg rd
                            +:+ " = mem[" +:+ hex.to_hex0x32 addr +:+ "] = "
                            +:+ hex.to_hex0x32 (u32 loaded)) w in
      let w := regs_set rd loaded w in
      advance_pc w
  end.

(** The switch of [exec_store]: the mnemonic, the memory written and the
    warnings of the writes. *)
Definition store_case (m : memory.memory) (f3 addr rs2_u : Z)
  : option (string * memory.memory * list string) :=
  match f3 with
  | 0 => let '(m', ws) := memory.set8 m addr (u8 (Z.land rs2_u 0xff)) in
         Some ("sb", m', ws)
  | 1 => let '(m', ws) := memory.set16 m addr (u16 (Z.land rs2_u 0xffff)) in
         Some ("sh", m', ws)
  | 2 => let '(m', ws) := memory.set32 m addr rs2_u in
         Some ("sw", m', ws)
  | _ => None
  end.

Definition exec_store (insn : Z) (pos : bool) (w : world) : world :=
  let rs1 := get_rs1 insn in
  let rs2 := get_rs2 insn in
  let f3 := get_funct3 insn in
  let imm := get_imm_s insn in
  let base := u32 (registerfile.get (regs (hart w)) rs1) in
  let addr := u32 (base + imm) in
  let rs2_u := u32 (registerfile.get (regs (hart w)) rs2) in
  match store_case (mem (hart w)) f3 addr rs2_u with
  | None => exec_illegal_insn insn pos w
  | Some (mnemonic, m', ws) =>
      let w := warn ws (on_hart (with_mem m') w) in
      let w := trace_insn pos (render_stype insn mnemonic) w in
      let w := trace pos ("// mem[" +:+ hex.to_hex0x32 addr +:+ "] = "
                            +:+ hex.to_hex0x32 rs2_u) w in
      advance_pc w
  end.

(** The switch of [exec_branch]: the mnemonic and whether the branch is
    taken. *)
Definition branch_case (f3 rs1_val rs2_val : Z) : option (string * bool) :=
  match f3 with
  | 0 => Some ("beq", rs1_val =? rs2_val)
  | 1 => Some ("bne", negb (rs1_val =? rs2_val))
  | 4 => Some ("blt", rs1_val <? rs2_val)
  | 5 => Some ("bge", rs1_val >=? rs2_val)
  | 6 => Some ("bltu", u32 rs1_val <? u32 rs2_val)
  | 7 => Some ("bgeu", u32 rs1_val >=? u32 rs2_val)
  | _ => None
  end.

Definition exec_branch (insn : Z) (pos : bool) (w : world) : world :=
  let rs1 := get_rs1 insn in
  let rs2 := get_rs2 insn in
  let f3 := get_funct3 insn in
  let rs1_val := registerfile.get (regs (hart w)) rs1 in
  let rs2_val := registerfile.get (regs (hart w)) rs2 in
  let pc_before := pc (hart w) in
  let imm := get_imm_b insn in
  let target := u32 (pc_before + imm) in
  match branch_case f3 rs1_val rs2_val with
  | None => exec_illegal_insn insn pos w
  | Some (mnemonic, take) =>
      let w := trace_insn pos (render_btype pc_before insn mnemonic) w in
      let w := trace pos ("// " +:+ render_reg rs1
                            +:+ " = " +:+ hex.to_hex0x32 (u32 rs1_val)
                            +:+ ", " +:+ render_reg rs2
                            +:+ " = " +:+ hex.to_hex0x32 (u32 rs2_val)
                            +:+ ", ") w in
      let w :=
        if take
        then trace pos ("br_taken  pc = " +:+ hex.to_hex0x32 target) w
        else trace pos ("br_not_taken  pc = "
                          +:+ hex.to_hex0x32 (u32 (pc_before + 4))) w in
      if take then on_hart (with_pc target) w
      else on_hart (with_pc (u32 (pc_before + 4))) w
  end.

Definition exec_ecall (insn : Z) (pos : bool) (w : world) : world :=
  let w := trace_insn pos "ecall" w in
  let w := trace pos "// HALT" w in
  on_hart (with_halt true "ECALL instruction") w.

Definition exec_ebreak (insn : Z) (pos : bool) (w : world) : world :=
  let w := trace_insn pos "ebreak" w in
  let w := trace pos "// HALT" w in
  on_hart (with_halt true "EBREAK instruction") w.

(** The chain of comparisons on the mnemonic in [exec_csrrx]. *)
Definition csrrx_case (mnemonic : string) (rs1 old_val rs1_val : Z)
  : option Z :=
  if String.eqb mnemonic "csrrw" then Some rs1_val
  else if String.eqb mnemonic "csrrs"
  then Some (if negb (rs1 =? 0) then Z.lor old_val rs1_val else old_val)
  else if String.eqb mnemonic "csrrc"
  then Some (if negb (rs1 =? 0)
             then Z.land old_val (u32 (Z.lnot rs1_val)) else old_val)
  else None.

Definition exec_csrrx (insn : Z) (pos : bool) (mnemonic : string)
    (w : world) : world :=
  let rd := get_rd insn in
  let rs1 := get_rs1 insn in
  let csr_addr := Z.shiftr insn 20 in
  if csr_addr >=? 4096 then exec_illegal_insn insn pos w
  else
    let old_val := csr (hart w) !!! Z.to_nat csr_addr in
    let rs1_val := u32 (registerfile.get (regs (hart w)) rs1) in
    match csrrx_case mnemonic rs1 old_val rs1_val with
    | None => exec_illegal_insn insn pos w
    | Some new_val =>
        let w := on_hart (fun h =>
                   with_csr (<[Z.to_nat csr_addr := new_val]> (csr h)) h) w in
        let w := trace_insn pos (render_csrrx insn mnemonic) w in
        let w := trace pos ("// csr[" +:+ hex.to_hex0x12 csr_addr
                              +:+ "] was " +:+ hex.to_hex0x32 old_val
                              +:+ ", now " +:+ hex.to_hex0x32 new_val) w in
        let w :=
          if negb (rd =? 0)
          then trace pos ("; " +:+ render_reg rd
                            +:+ " = " +:+ hex.to_hex0x32 old_val) w
          else w in
        let w :=
          if negb (rd =? 0)
          then regs_set rd (i32 old_val) w
          else w in
        advance_pc w
    end.

(** The chain of comparisons on the mnemonic in [exec_csrrxi]. *)
Definition csrrxi_case (mnemonic : string) (zimm old_val : Z) : option Z :=
  if String.eqb mnemonic "csrrwi" then Some zimm
  else if String.eqb mnemonic "csrrsi"
  then Some (if negb (zimm =? 0) then Z.lor old_val zimm else old_val)
  else if String.eqb mnemonic "csrrci"
  then Some (if negb (zimm =? 0)
             then Z.land old_val (u32 (Z.lnot zimm)) else old_val)
  else None.

Definition exec_csrrxi (insn : Z) (pos : bool) (mnemonic : string)
    (w : world) : world :=
  let rd := get_rd insn in
  let zimm := get_rs1 insn in
  let csr_addr := Z.shiftr insn 20 in
  if csr_addr >=? 4096 then exec_illegal_insn insn pos w
  else
    let old_val := csr (hart w) !!! Z.to_nat csr_addr in
    match csrrxi_case mnemonic zimm old_val with
    | None => exec_illegal_insn insn pos w
    | Some new_val =>
        let w := on_hart (fun h =>
                   with_csr (<[Z.to_nat csr_addr := new_val]> (csr h)) h) w in
        let w := trace_insn pos (render_csrrxi insn mnemonic) w in
        let w := trace pos ("// csr[" +:+ hex.to_hex0x12 csr_addr
                              +:+ "] was " +:+ hex.to_hex0x32 old_val
                              +:+ ", now " +:+ hex.to_hex0x32 new_val) w in
        let w :=
          if negb (rd =? 0)
          then trace pos ("; " +:+ render_reg rd
                            +:+ " = " +:+ hex.to_hex0x32 old_val) w
          else w in
        let w :=
          if negb (rd =? 0)
          then regs_set rd (i32 old_val) w
          else w in
        advance_pc w
    end.

(** [rv32i_hart::exec]: the switch on the opcode. *)
Definition exec (insn : Z) (pos : bool) (w : world) : world :=
  let opcode := get_opcode insn in
  if opcode =? opcode_lui then exec_lui insn pos w
  else if opcode =? opcode_auipc then exec_auipc insn pos w
  else if opcode =? opcode_jal then exec_jal insn pos w
  else if opcode =? opcode_jalr then exec_jalr insn pos w
  else if opcode =? opcode_alu_imm then exec_alu_imm insn pos w
  else if opcode =? opcode_alu_reg then exec_alu_reg insn pos w
  else if opcode =? opcode_load then exec_load insn pos w
  else if opcode =? opcode_store then exec_store insn pos w
  else if opcode =? opcode_btype then exec_branch insn pos w
  else if opcode =? opcode_system then
    let f3 := get_funct3 insn in
    match f3 with
    | 0 =>
        if insn =? 0x00000073 then exec_ecall insn pos w
        else if insn =? 0x00100073 then exec_ebreak insn pos w
        else exec_illegal_insn insn pos w
    | 1 => exec_csrrx insn pos "csrrw" w
    | 2 => exec_csrrx insn pos "csrrs" w
    | 3 => exec_csrrx insn pos "csrrc" w
    | 5 => exec_csrrxi insn pos "csrrwi" w
    | 6 => exec_csrrxi insn pos "csrrsi" w
    | 7 => exec_csrrxi insn pos "csrrci" w
    | _ => exec_illegal_insn insn pos w
    end
  else exec_illegal_insn insn pos w.

(** [rv32i_hart::tick] *)
Definition tick (hdr : string) (w : world) : world :=
  if halt (hart w) then w
  else
    let w := if show_registers (hart w) then dump hdr w else w in
    if negb (Z.land (pc (hart w)) 0x3 =? 0)
    then on_hart (with_halt true "PC alignment error") w
    else
      let w := count_insn w in
      let '(insn, ws) := memory.get32 (mem (hart w)) (pc (hart w)) in
      let w := warn ws w in
      if show_instructions (hart w)
      then
        let w := print (hdr +:+ hex.to_hex32 (pc (hart w)) +:+ ": "
                          +:+ hex.to_hex32 insn +:+ "  ") w in
        let w := exec insn true w in
        print endl w
      else exec insn false w.

End rv32i_hart.

(** ** cpu_single_hart.cpp *)

Module cpu_single_hart.

(** The first statement of [run]: x2 receives the memory size. *)
Definition run_init (w : world) : world :=
  regs_set 2 (i32 (memory.get_size (mem (hart w)))) w.

(** Both [while] loops of [run]; [None] when [fuel] ticks were not
    enough to leave the loop. *)
Fixpoint run_loop (fuel : nat) (exec_limit : Z) (w : world) : option world :=
  let continue :=
    if exec_limit =? 0 then negb (halt (hart w))
    else negb (halt (hart w)) && (insn_counter (hart w) <? exec_limit) in
  if continue then
    match fuel with
    | O => None
    | S fuel' => run_loop fuel' exec_limit (rv32i_hart.tick "" w)
    end
  else Some w.

(** The two reports that end [run]. *)
Definition run_report (w : world) : world :=
  let w :=
    if halt (hart w)
    then print ("Execution terminated. Reason: "
                  +:+ halt_reason (hart w) +:+ endl) w
    else w in
  print (show_dec (insn_counter (hart w)) +:+ " instructions executed"
           +:+ endl) w.

Definition run (fuel : nat) (exec_limit : Z) (w : world) : option world :=
  let w := run_init w in
  match run_loop fuel exec_limit w with
  | None => None
  | Some w => Some (run_report w)
  end.

End cpu_single_hart.

(** ** Notions used by the statements *)

(** [n] successive calls of [tick]. *)
Definition ticks (n : N) (hdr : string) (w : world) : world :=
  N.iter n (rv32i_hart.tick hdr) w.

(** The spec's rounding: the least multiple of 16 that is not below [s]. *)
Definition round_up_16 (s : Z) : Z := 16 * ((s + 15) / 16).

(** The post-reset register values of the spec: zero in x0 and
    [0xF0F0F0F0] (as a signed word) in x1 .. x31. *)
Definition post_reset_regs : registerfile.registerfile :=
  0 :: replicate 31 (i32 0xf0f0f0f0).

(** The hart the driver hands to [run]: constructed on memory [m], reset,
    with the two trace flags set as the options ask. *)
Definition boot (m : memory.memory) (iflag rflag : bool) : world :=
  mk_world
    (set_show_registers rflag
       (set_show_instructions iflag (rv32i_hart.reset (rv32i_hart.new m))))
    "" "".

(** Two runs agree on the hart and on the warnings sent to [std::cerr]. *)
Definition same_state (w1 w2 : world) : Prop :=
  hart w1 = hart w2 /\ cerr w1 = cerr w2.

(** Two runs agree on everything but the instruction-trace flag and the
    text on [std::cout]. *)
Definition same_state_but_trace (w1 w2 : world) : Prop :=
  set_show_instructions false (hart w1) = set_show_instructions false (hart w2)
  /\ cerr w1 = cerr w2.

(** What no handler and no tick touches: the two trace flags, the hart id,
    the sizes of the three stores, and the slot of register 0. *)
Definition frame (w w' : world) : Prop :=
  show_instructions (hart w') = show_instructions (hart w) /\
  show_registers (hart w') = show_registers (hart w) /\
  mhartid (hart w') = mhartid (hart w) /\
  length (mem (hart w')) = length (mem (hart w)) /\
  length (csr (hart w')) = length (csr (hart w)) /\
  length (regs (hart w')) = length (regs (hart w)) /\
  regs (hart w') !! 0%nat = regs (hart w) !! 0%nat.

(** The spec's table of the funct7 values allowed under the ALU-register
    opcode: [0000000] or [0100000] for add/sub and srl/sra, [0000000] alone
    for sll, slt, sltu, xor, or and and. *)
Definition alu_reg_funct7_allowed (funct3 funct7 : Z) : bool :=
  if (funct3 =? 0) || (funct3 =? 5)
  then (funct7 =? 0x00) || (funct7 =? 0x20)
  else funct7 =? 0x00.

(** A 256-byte memory whose first word is [jal x0, 0]. *)
Definition jal_self_image : list Z :=
  fst (memory.set32 (memory.new 0x100) 0 0x0000006F).


(** Every cell of a memory holds a byte. *)
Definition bytes_ok (m : list Z) : Prop := Forall (fun b => 0 <= b < 256) m.

(** The line [check_illegal] sends to [std::cerr] for address [a]. *)
Definition out_of_range_warning (a : Z) : string :=
  "WARNING: Address out of range: " +:+ hex.to_hex0x32 a +:+ endl.

(** *** What one instruction does to the hart, with the trace left out *)

(** The hart after an instruction that writes [v] to rd and moves on. *)
Definition wrote_rd (insn v : Z) (h : rv32i_hart) : rv32i_hart :=
  with_pc (u32 (pc h + 4))
    (with_regs (registerfile.set (regs h) (rv32i_decode.get_rd insn) v) h).

(** The hart after a CSR instruction that stores [new_val] and returns the
    old value in rd (when rd is not x0). *)
Definition wrote_csr (insn new_val : Z) (h : rv32i_hart) : rv32i_hart :=
  let a := Z.to_nat (Z.shiftr insn 20) in
  let h' := with_csr (<[a := new_val]> (csr h)) h in
  with_pc (u32 (pc h + 4))
    (if rv32i_decode.get_rd insn =? 0 then h'
     else with_regs (registerfile.set (regs h) (rv32i_decode.get_rd insn)
                       (i32 (csr h !!! a))) h').

(** The harts that [exec] can leave, by kind of instruction. *)
Inductive exec_outcome (insn : Z) (h : rv32i_hart) : rv32i_hart -> Prop :=
| outcome_illegal :
    exec_outcome insn h (with_halt true "Illegal instruction" h)
| outcome_ecall :
    insn = 0x00000073 ->
    exec_outcome insn h (with_halt true "ECALL instruction" h)
| outcome_ebreak :
    insn = 0x00100073 ->
    exec_outcome insn h (with_halt true "EBREAK instruction" h)
| outcome_rd v :
    In (rv32i_decode.get_opcode insn)
       [rv32i_decode.opcode_lui; rv32i_decode.opcode_auipc;
        rv32i_decode.opcode_alu_imm; rv32i_decode.opcode_alu_reg;
        rv32i_decode.opcode_load] ->
    exec_outcome insn h (wrote_rd insn v h)
| outcome_jal :
    rv32i_decode.get_opcode insn = rv32i_decode.opcode_jal ->
    exec_outcome insn h
      (with_pc (u32 (pc h + rv32i_decode.get_imm_j insn))
         (wrote_rd insn (i32 (u32 (pc h + 4))) h))
| outcome_jalr :
    rv32i_decode.get_opcode insn = rv32i_decode.opcode_jalr ->
    exec_outcome insn h
      (with_pc (Z.land (u32 (u32 (registerfile.get (regs h)
                                    (rv32i_decode.get_rs1 insn))
                             + rv32i_decode.get_imm_i insn)) 0xfffffffe)
         (wrote_rd insn (i32 (u32 (pc h + 4))) h))
| outcome_store m' a v :
    rv32i_decode.get_opcode insn = rv32i_decode.opcode_store ->
    m' = fst (memory.set8 (mem h) a v)
    \/ m' = fst (memory.set16 (mem h) a v)
    \/ m' = fst (memory.set32 (mem h) a v) ->
    exec_outcome insn h (with_pc (u32 (pc h + 4)) (with_mem m' h))
| outcome_branch (take : bool) :
    rv32i_decode.get_opcode insn = rv32i_decode.opcode_btype ->
    exec_outcome insn h
      (with_pc (if take then u32 (pc h + rv32i_decode.get_imm_b insn)
                else u32 (pc h + 4)) h)
| outcome_csr new_val :
    rv32i_decode.get_opcode insn = rv32i_decode.opcode_system ->
    (rv32i_decode.get_rs1 insn = 0 ->
     In (rv32i_decode.get_funct3 insn) [2; 3; 6; 7] ->
     new_val = csr h !!! Z.to_nat (Z.shiftr insn 20)) ->
    exec_outcome insn h (wrote_csr insn new_val h).

(** What the instruction trace shows for one instruction: the text of the
    disassembler for that word at that pc, padded to the trace column and
    followed by a comment, or the bare error text when the instruction is
    refused. *)
Definition shows_disassembly (insn : Z) (w w' : world) : Prop :=
  (hart w' = with_halt true "Illegal instruction" (hart w) /\
   cout w' = cout w +:+ rv32i_decode.render_illegal_insn) \/
  exists comment,
    cout w'
    = cout w
        +:+ pad_right rv32i_hart.instruction_width " "
              (rv32i_decode.decode (pc (hart w)) insn)
        +:+ comment.

(** The [k] lowest hexadecimal digits of [n], most significant first. *)
Fixpoint hex_digits (k : nat) (n : Z) : string :=
  match k with
  | O => ""
  | S k' => hex_digits k' (n / 16) +:+ String (digit_char (n mod 16)) ""
  end.

(** ** memory.cpp: [memory::dump], and main.cpp: [disassemble]

    The two loops that walk the whole memory.  Each returns the text sent
    to [std::cout] and the warnings its reads send to [std::cerr], or
    [None] when [fuel] rows were not enough to reach the end. *)

(** [isprint] in the "C" locale. *)
Definition isprint (ch : Z) : bool := (0x20 <=? ch) && (ch <=? 0x7e).

(** The values of [j] in the two inner loops of [memory::dump]. *)
Definition dump_columns : list Z :=
  [0; 1; 2; 3; 4; 5; 6; 7; 8; 9; 10; 11; 12; 13; 14; 15].

(** One pass of the outer loop of [memory::dump]: the address, sixteen
    bytes in hex, then the same sixteen bytes read again as characters. *)
Definition memory_dump_row (mem : memory.memory) (i : Z)
  : string * list string :=
  let hex_cell (j : Z) :=
    let '(b, ws) := memory.get8 mem (u32 (i + j)) in
    (hex.to_hex8 b +:+ " " +:+ (if j =? 7 then " " else ""), ws) in
  let chr_cell (j : Z) :=
    let '(ch, ws) := memory.get8 mem (u32 (i + j)) in
    (String (if isprint ch then ascii_of_nat (Z.to_nat ch) else "."%char) "",
     ws) in
  let hexes := map hex_cell dump_columns in
  let chars := map chr_cell dump_columns in
  (hex.to_hex32 i +:+ ": " +:+ String.concat "" (map fst hexes)
     +:+ "*" +:+ String.concat "" (map fst chars) +:+ "*" +:+ endl,
   concat (map snd hexes) ++ concat (map snd chars)).

Fixpoint memory_dump_loop (fuel : nat) (mem : memory.memory) (i : Z)
  : option (string * list string) :=
  if i <? Z.of_nat (length mem) then
    match fuel with
    | O => None
    | S fuel' =>
        let '(row, ws) := memory_dump_row mem i in
        match memory_dump_loop fuel' mem (u32 (i + 16)) with
        | None => None
        | Some (rest, ws') => Some (row +:+ rest, ws ++ ws')
        end
    end
  else Some ("", []).

Definition memory_dump (fuel : nat) (mem : memory.memory)
  : option (string * list string) :=
  memory_dump_loop fuel mem 0.

(** One pass of the loop of [disassemble]. *)
Definition disassemble_row (mem : memory.memory) (addr : Z)
  : string * list string :=
  let '(insn, ws) := memory.get32 mem addr in
  (hex.to_hex32 addr +:+ ": " +:+ hex.to_hex32 insn +:+ "  "
     +:+ rv32i_decode.decode addr insn +:+ endl, ws).

Fixpoint disassemble_loop (fuel : nat) (mem : memory.memory) (addr : Z)
  : option (string * list string) :=
  if addr <? memory.get_size mem then
    match fuel with
    | O => None
    | S fuel' =>
        let '(row, ws) := disassemble_row mem addr in
        match disassemble_loop fuel' mem (u32 (addr + 4)) with
        | None => None
        | Some (rest, ws') => Some (row +:+ rest, ws ++ ws')
        end
    end
  else Some ("", []).

Definition disassemble (fuel : nat) (mem : memory.memory)
  : option (string * list string) :=
  disassemble_loop fuel mem 0.

(** A mnemonic that does not begin like the error text. *)
Definition named (mnemonic : string) : Prop :=
  exists c rest, mnemonic = String c rest /\ c <> "E"%char.

(** * Properties *)

(** ** Arithmetic of the fixed-width integers *)

Section Words.

Lemma u32_range z : 0 <= u32 z < 2^32.
Proof. unfold u32. apply Z.mod_pos_bound. lia. Qed.

Lemma u32_small z : 0 <= z < 2^32 -> u32 z = z.
Proof. intros H. unfold u32. apply Z.mod_small. exact H. Qed.

Lemma u16_small z : 0 <= z < 2^16 -> u16 z = z.
Proof. intros H. unfold u16. apply Z.mod_small. exact H. Qed.

(** A signed word and the unsigned word it came from have the same bits. *)
Lemma u32_i32 z : u32 (i32 z) = u32 z.
Proof.
  unfold u32, i32. rewrite Zminus_mod_idemp_l. f_equal. lia.
Qed.

Lemma u8_small z : 0 <= z < 2^8 -> u8 z = z.
Proof. intros H. unfold u8. apply Z.mod_small. exact H. Qed.

Lemma land_ones_mod z n : 0 <= n -> Z.land z (Z.ones n) = z mod 2^n.
Proof. intros H. apply Z.land_ones. exact H. Qed.

Lemma land_3_mod_4 z : Z.land z 0x3 = z mod 4.
Proof.
  change 0x3 with (Z.ones 2). rewrite land_ones_mod by lia. reflexivity.
Qed.

Lemma land_ff z : Z.land z 0xff = z mod 2^8.
Proof. change 0xff with (Z.ones 8). apply land_ones_mod. lia. Qed.

Lemma land_ffff z : Z.land z 0xffff = z mod 2^16.
Proof. change 0xffff with (Z.ones 16). apply land_ones_mod. lia. Qed.

(** Clearing the low four bits of a 32-bit word. *)
Lemma land_fffffff0 z : 0 <= z < 2^32 -> Z.land z 0xfffffff0 = 16 * (z / 16).
Proof.
  intros Hz.
  change 0xfffffff0 with (Z.shiftl (Z.ones 28) 4).
  apply Z.bits_inj'. intros n Hn.
  rewrite Z.land_spec.
  destruct (Z.lt_ge_cases n 4) as [Hlt | Hge].
  - rewrite Z.shiftl_spec_low by lia.
    rewrite andb_false_r.
    replace (16 * (z / 16)) with (Z.shiftl (z / 16) 4)
      by (rewrite Z.shiftl_mul_pow2 by lia; change (2^4) with 16; lia).
    rewrite Z.shiftl_spec_low by lia. reflexivity.
  - rewrite Z.shiftl_spec by lia.
    replace (16 * (z / 16)) with (Z.shiftl (Z.shiftr z 4) 4).
    2:{ rewrite Z.shiftl_mul_pow2, Z.shiftr_div_pow2 by lia.
        change (2^4) with 16. lia. }
    rewrite Z.shiftl_spec, Z.shiftr_spec by lia.
    replace (n - 4 + 4) with n by lia.
    destruct (Z.lt_ge_cases (n - 4) 28) as [Hin | Hout].
    + rewrite Z.ones_spec_low by lia. apply andb_true_r.
    + rewrite Z.ones_spec_high by lia. rewrite andb_false_r.
      symmetry. apply Z.bits_above_log2; [lia|].
      destruct (Z.eq_dec z 0) as [-> | Hnz]; [simpl; lia|].
      apply Z.log2_lt_pow2; [lia|].
      apply Z.lt_le_trans with (2^32); [lia|].
      apply Z.pow_le_mono_r; lia.
Qed.

(** A low part and a shifted high part do not overlap. *)
Lemma lor_shiftl_add a b n :
  0 <= n -> 0 <= a < 2^n -> Z.lor a (Z.shiftl b n) = a + b * 2^n.
Proof.
  intros Hn Ha.
  rewrite Z.shiftl_mul_pow2 by lia.
  rewrite <- Z.lxor_lor, <- Z.add_nocarry_lxor; try reflexivity.
  all: apply Z.bits_inj'; intros k Hk;
    rewrite Z.land_spec, Z.bits_0;
    destruct (Z.lt_ge_cases k n) as [Hlt | Hge];
    [ rewrite Z.mul_pow2_bits_low by lia; apply andb_false_r
    | replace (Z.testbit a k) with false; [reflexivity|];
      symmetry; destruct (Z.eq_dec a 0) as [-> | Hnz];
      [ apply Z.bits_0
      | apply Z.bits_above_log2; [lia|];
        apply Z.lt_le_trans with n; [apply Z.log2_lt_pow2; lia | lia] ] ].
Qed.

End Words.

(** ** memory.cpp: sizes and the little-endian round trip *)

Section Memory.
Import memory.

Implicit Types (m : memory) (a v : Z).

Lemma geb_false a b : a < b -> (a >=? b) = false.
Proof. intros H. rewrite Z.geb_leb. apply Z.leb_gt. exact H. Qed.

Lemma get_size_le_length m : get_size m <= Z.of_nat (length m).
Proof.
  unfold get_size, u32. apply Z.mod_le; lia.
Qed.

Lemma get_size_range m : 0 <= get_size m < 2^32.
Proof. apply u32_range. Qed.

Lemma set8_in_range m a v :
  a < Z.of_nat (length m) -> set8 m a v = (<[Z.to_nat a := u8 v]> m, []).
Proof.
  intros H. unfold set8, check_illegal. rewrite geb_false by exact H.
  reflexivity.
Qed.

Lemma get8_in_range m a :
  a < Z.of_nat (length m) -> get8 m a = (m !!! Z.to_nat a, []).
Proof.
  intros H. unfold get8, check_illegal. rewrite geb_false by exact H.
  reflexivity.
Qed.

Lemma set8_length m a v : length (fst (set8 m a v)) = length m.
Proof.
  unfold set8, check_illegal.
  destruct (a >=? Z.of_nat (length m)); simpl; [reflexivity|].
  apply length_insert.
Qed.

Lemma set16_length m a v : length (fst (set16 m a v)) = length m.
Proof.
  unfold set16.
  destruct (set8 m a _) as [m1 w1] eqn:E1.
  destruct (set8 m1 _ _) as [m2 w2] eqn:E2. simpl.
  change m2 with (fst (m2, w2)). rewrite <- E2, set8_length.
  change m1 with (fst (m1, w1)). rewrite <- E1, set8_length.
  reflexivity.
Qed.

Lemma set32_length m a v : length (fst (set32 m a v)) = length m.
Proof.
  unfold set32.
  destruct (set16 m a _) as [m1 w1] eqn:E1.
  destruct (set16 m1 _ _) as [m2 w2] eqn:E2. simpl.
  change m2 with (fst (m2, w2)). rewrite <- E2, set16_length.
  change m1 with (fst (m1, w1)). rewrite <- E1, set16_length.
  reflexivity.
Qed.

Lemma load_bytes_length bytes : forall m a,
  length (snd (fst (load_bytes m a bytes))) = length m.
Proof.
  induction bytes as [| b rest IH]; intros m a; simpl; [reflexivity|].
  destruct (check_illegal m a) as [[|] w]; simpl; [reflexivity|].
  destruct (set8 m a b) as [m1 w1] eqn:E1.
  specialize (IH m1 (u32 (a + 1))).
  destruct (load_bytes m1 (u32 (a + 1)) rest) as [[ok m2] w2]. simpl in *.
  rewrite IH. change m1 with (fst (m1, w1)). rewrite <- E1.
  apply set8_length.
Qed.

Lemma load_file_length m fname contents :
  length (snd (fst (load_file m fname contents))) = length m.
Proof.
  destruct contents as [bytes|]; simpl; [apply load_bytes_length | reflexivity].
Qed.

(** The bytes of a 32-bit value, as [set32] cuts them. *)
Lemma set32_in_range m a v :
  0 <= a -> a + 3 < get_size m ->
  set32 m a v =
    (<[Z.to_nat (a + 3) :=
         u8 (u8 (Z.land
                   (Z.shiftr (u16 (Z.land (Z.shiftr v 16) 0xffff)) 8) 0xff))]>
       (<[Z.to_nat (a + 2) :=
            u8 (u8 (Z.land (u16 (Z.land (Z.shiftr v 16) 0xffff)) 0xff))]>
          (<[Z.to_nat (a + 1) :=
               u8 (u8 (Z.land (Z.shiftr (u16 (Z.land v 0xffff)) 8) 0xff))]>
             (<[Z.to_nat a :=
                  u8 (u8 (Z.land (u16 (Z.land v 0xffff)) 0xff))]> m))),
     []).
Proof.
  intros Ha Hin.
  pose proof (get_size_le_length m) as Hle.
  pose proof (get_size_range m) as Hr.
  unfold set32, set16.
  rewrite (set8_in_range m a) by lia. cbv beta iota zeta.
  rewrite (u32_small (a + 1)) by lia.
  rewrite set8_in_range by (rewrite length_insert; lia). cbv beta iota zeta.
  rewrite (u32_small (a + 2)) by lia.
  rewrite set8_in_range by (rewrite !length_insert; lia). cbv beta iota zeta.
  replace (u32 (a + 2 + 1)) with (a + 3) by (rewrite u32_small; lia).
  rewrite set8_in_range by (rewrite !length_insert; lia).
  reflexivity.
Qed.

(** C5 as stated fails at the last byte of a memory: the three upper
    bytes of the store fall outside and are dropped. *)
Lemma set32_get32_last_byte_counterexample :
  let m := new 16 in
  15 < get_size m /\
  fst (get32 (fst (set32 m 15 0xdeadbeef)) 15) <> 0xdeadbeef.
Proof. vm_compute. split; [reflexivity | discriminate]. Qed.

(** C5 (amended): for every 32-bit value [v] and every address [a] whose
    four bytes [a .. a+3] are all in range, [set32] followed by [get32]
    returns [v], the four bytes hold [v] in little-endian order, and no
    warning is emitted. *)
Theorem set32_get32_roundtrip m a v :
  0 <= v < 2^32 -> 0 <= a -> a + 3 < get_size m ->
  let m' := fst (set32 m a v) in
  get32 m' a = (v, []) /\
  get8 m' a = (Z.land v 0xff, []) /\
  get8 m' (a + 1) = (Z.land (Z.shiftr v 8) 0xff, []) /\
  get8 m' (a + 2) = (Z.land (Z.shiftr v 16) 0xff, []) /\
  get8 m' (a + 3) = (Z.land (Z.shiftr v 24) 0xff, []) /\
  snd (set32 m a v) = [].
Proof.
  intros Hv Ha Hin m'. subst m'.
  pose proof (get_size_le_length m) as Hle.
  pose proof (get_size_range m) as Hr.
  rewrite set32_in_range by assumption. cbn [fst snd].
  set (b0 := u8 (u8 (Z.land (u16 (Z.land v 0xffff)) 0xff))).
  set (b1 := u8 (u8 (Z.land (Z.shiftr (u16 (Z.land v 0xffff)) 8) 0xff))).
  set (b2 := u8 (u8 (Z.land (u16 (Z.land (Z.shiftr v 16) 0xffff)) 0xff))).
  set (b3 := u8 (u8 (Z.land (Z.shiftr (u16 (Z.land (Z.shiftr v 16) 0xffff))
                               8) 0xff))).
  set (m' := <[Z.to_nat (a + 3) := b3]> _).
  assert (Hlen : length m' = length m)
    by (subst m'; rewrite !length_insert; reflexivity).
  assert (E0 : m' !!! Z.to_nat a = b0).
  { subst m'. rewrite !list_lookup_total_insert_ne by lia.
    apply list_lookup_total_insert_eq. lia. }
  assert (E1 : m' !!! Z.to_nat (a + 1) = b1).
  { subst m'. rewrite !list_lookup_total_insert_ne by lia.
    apply list_lookup_total_insert_eq. rewrite length_insert. lia. }
  assert (E2 : m' !!! Z.to_nat (a + 2) = b2).
  { subst m'. rewrite !list_lookup_total_insert_ne by lia.
    apply list_lookup_total_insert_eq. rewrite !length_insert. lia. }
  assert (E3 : m' !!! Z.to_nat (a + 3) = b3).
  { subst m'. apply list_lookup_total_insert_eq. rewrite !length_insert. lia. }
  assert (G0 : get8 m' a = (b0, [])).
  { rewrite get8_in_range by lia. rewrite E0. reflexivity. }
  assert (G1 : get8 m' (a + 1) = (b1, [])).
  { rewrite get8_in_range by lia. rewrite E1. reflexivity. }
  assert (G2 : get8 m' (a + 2) = (b2, [])).
  { rewrite get8_in_range by lia. rewrite E2. reflexivity. }
  assert (G3 : get8 m' (a + 3) = (b3, [])).
  { rewrite get8_in_range by lia. rewrite E3. reflexivity. }
  assert (B0 : b0 = v mod 2^8).
  { subst b0. unfold u8, u16. rewrite !land_ff, !land_ffff.
    change (2^8) with 256. change (2^16) with 65536.
    Z.div_mod_to_equations. lia. }
  assert (B1 : b1 = (v / 2^8) mod 2^8).
  { subst b1. unfold u8, u16. rewrite !land_ff, !land_ffff.
    rewrite !Z.shiftr_div_pow2 by lia.
    change (2^8) with 256. change (2^16) with 65536.
    Z.div_mod_to_equations. lia. }
  assert (B2 : b2 = (v / 2^16) mod 2^8).
  { subst b2. unfold u8, u16. rewrite !land_ff, !land_ffff.
    rewrite !Z.shiftr_div_pow2 by lia.
    change (2^8) with 256. change (2^16) with 65536.
    Z.div_mod_to_equations. lia. }
  assert (B3 : b3 = (v / 2^24) mod 2^8).
  { subst b3. unfold u8, u16. rewrite !land_ff, !land_ffff.
    rewrite !Z.shiftr_div_pow2 by lia.
    change (2^8) with 256. change (2^16) with 65536.
        change (2^24) with 16777216.
    Z.div_mod_to_equations. lia. }
  repeat split.
  - unfold get32, get16.
    rewrite G0. rewrite (u32_small (a + 1)) by lia. rewrite G1.
    rewrite (u32_small (a + 2)) by lia. rewrite G2.
    replace (u32 (a + 2 + 1)) with (a + 3) by (rewrite u32_small; lia).
    rewrite G3. cbv beta iota zeta. f_equal.
    rewrite B0, B1, B2, B3.
    rewrite !Z.shiftl_mul_pow2 by lia.
    unfold u16 at 2 4.
    rewrite (Z.mod_small (_ * 2^8) (2^16)).
    2:{ change (2^8) with 256. change (2^16) with 65536.
        Z.div_mod_to_equations. lia. }
    rewrite (Z.mod_small (_ * 2^8) (2^16)).
    2:{ change (2^8) with 256. change (2^16) with 65536.
        Z.div_mod_to_equations. lia. }
    unfold u16.
    rewrite (Z.mod_small (_ + _) (2^16)).
    2:{ change (2^8) with 256. change (2^16) with 65536.
        Z.div_mod_to_equations. lia. }
    rewrite (Z.mod_small (_ + _) (2^16)).
    2:{ change (2^8) with 256. change (2^16) with 65536.
        change (2^24) with 16777216.
        Z.div_mod_to_equations. lia. }
    unfold u32. rewrite (Z.mod_small (_ * 2^16) (2^32)).
    2:{ change (2^8) with 256. change (2^16) with 65536.
        change (2^24) with 16777216.
        change (2^32) with 4294967296.
        Z.div_mod_to_equations. lia. }
    rewrite <- (Z.shiftl_mul_pow2 _ 16) by lia.
    rewrite lor_shiftl_add.
    + change (2^8) with 256. change (2^16) with 65536.
        change (2^24) with 16777216.
      Z.div_mod_to_equations. lia.
    + lia.
    + change (2^8) with 256. change (2^16) with 65536.
      Z.div_mod_to_equations. lia.
  - rewrite G0, B0, land_ff. reflexivity.
  - rewrite G1, B1, land_ff, Z.shiftr_div_pow2 by lia. reflexivity.
  - rewrite G2, B2, land_ff, Z.shiftr_div_pow2 by lia. reflexivity.
  - rewrite G3, B3, land_ff, Z.shiftr_div_pow2 by lia. reflexivity.
Qed.

Lemma set32_get32_roundtrip_witness :
  let m := new 0x100 in
  0 <= 0xdeadbeef < 2^32 /\ 0 <= 0x40 /\ 0x40 + 3 < get_size m /\
  get32 (fst (set32 m 0x40 0xdeadbeef)) 0x40 = (0xdeadbeef, []) /\
  get8 (fst (set32 m 0x40 0xdeadbeef)) 0x40 = (0xef, []).
Proof.
  cbv zeta.
  assert (Hv : 0 <= 0xdeadbeef < 2^32)
    by (change (2^32) with 4294967296; lia).
  assert (Ha : 0 <= 0x40) by lia.
  assert (Hin : 0x40 + 3 < get_size (new 0x100)) by reflexivity.
  repeat apply conj; try assumption; try apply Hv.
  - apply (set32_get32_roundtrip (new 0x100) 0x40 0xdeadbeef Hv Ha Hin).
  - apply (set32_get32_roundtrip (new 0x100) 0x40 0xdeadbeef Hv Ha Hin).
Defined.

End Memory.

(** The facts proved handler by handler, for the proofs about [exec]. *)
Create HintDb handlers.

(** Split [exec] along its switch on the opcode and on funct3. *)
Ltac exec_dispatch insn :=
  unfold rv32i_hart.exec; cbv zeta;
  repeat match goal with
    | |- context [if rv32i_decode.get_opcode insn =? ?o then _ else _] =>
        destruct (rv32i_decode.get_opcode insn =? o)
    end;
  try (destruct (rv32i_decode.get_funct3 insn)
         as [|[[[?|?|]|[?|?|]|]|[[?|?|]|[?|?|]|]|]|?];
       try destruct (insn =? 0x00000073);
       try destruct (insn =? 0x00100073)).

(** ** rv32i_hart.cpp: the trace sink changes the output only *)

Section TraceSink.
Import rv32i_hart.

(** Name the fields of two worlds that agree up to the trace flag. *)
Ltac agree_fields :=
  let Hh := fresh "Hh" in
  let He := fresh "He" in
  intros [Hh He];
  match goal with
  | |- same_state_but_trace (_ ?w1) (_ ?w2) =>
      destruct w1 as [[r1 m1 h1 hr1 si1 sr1 c1 p1 id1 cs1] o1 e1];
      destruct w2 as [[r2 m2 h2 hr2 si2 sr2 c2 p2 id2 cs2] o2 e2]
  end;
  cbn in Hh, He; injection Hh as -> -> -> -> -> -> -> -> ->; subst.

Ltac agree_done :=
  match goal with
  | |- same_state_but_trace (_ ?q1 _) (_ ?q2 _) =>
      destruct q1, q2; split; reflexivity
  end.

Lemma exec_illegal_insn_agree insn q1 q2 w1 w2 :
  same_state_but_trace w1 w2 ->
  same_state_but_trace (exec_illegal_insn insn q1 w1)
                       (exec_illegal_insn insn q2 w2).
Proof. agree_fields. agree_done. Qed.

Lemma exec_lui_agree insn q1 q2 w1 w2 :
  same_state_but_trace w1 w2 ->
  same_state_but_trace (exec_lui insn q1 w1) (exec_lui insn q2 w2).
Proof. agree_fields. agree_done. Qed.

Lemma exec_auipc_agree insn q1 q2 w1 w2 :
  same_state_but_trace w1 w2 ->
  same_state_but_trace (exec_auipc insn q1 w1) (exec_auipc insn q2 w2).
Proof. agree_fields. agree_done. Qed.

Lemma exec_jal_agree insn q1 q2 w1 w2 :
  same_state_but_trace w1 w2 ->
  same_state_but_trace (exec_jal insn q1 w1) (exec_jal insn q2 w2).
Proof. agree_fields. agree_done. Qed.

Lemma exec_jalr_agree insn q1 q2 w1 w2 :
  same_state_but_trace w1 w2 ->
  same_state_but_trace (exec_jalr insn q1 w1) (exec_jalr insn q2 w2).
Proof. agree_fields. agree_done. Qed.

Lemma exec_ecall_agree insn q1 q2 w1 w2 :
  same_state_but_trace w1 w2 ->
  same_state_but_trace (exec_ecall insn q1 w1) (exec_ecall insn q2 w2).
Proof. agree_fields. agree_done. Qed.

Lemma exec_ebreak_agree insn q1 q2 w1 w2 :
  same_state_but_trace w1 w2 ->
  same_state_but_trace (exec_ebreak insn q1 w1) (exec_ebreak insn q2 w2).
Proof. agree_fields. agree_done. Qed.

Lemma exec_alu_imm_agree insn q1 q2 w1 w2 :
  same_state_but_trace w1 w2 ->
  same_state_but_trace (exec_alu_imm insn q1 w1) (exec_alu_imm insn q2 w2).
Proof.
  agree_fields. unfold exec_alu_imm. cbv zeta. cbn [hart regs].
  destruct (alu_imm_case _ _ _ _) as [[[mnemonic shown_imm] result]|];
    destruct q1, q2; split; reflexivity.
Qed.

Lemma exec_alu_reg_agree insn q1 q2 w1 w2 :
  same_state_but_trace w1 w2 ->
  same_state_but_trace (exec_alu_reg insn q1 w1) (exec_alu_reg insn q2 w2).
Proof.
  agree_fields. unfold exec_alu_reg. cbv zeta. cbn [hart regs].
  destruct (alu_reg_case _ _ _ _) as [[mnemonic result]|];
    destruct q1, q2; split; reflexivity.
Qed.

Lemma exec_load_agree insn q1 q2 w1 w2 :
  same_state_but_trace w1 w2 ->
  same_state_but_trace (exec_load insn q1 w1) (exec_load insn q2 w2).
Proof.
  agree_fields. unfold exec_load. cbv zeta. cbn [hart regs mem].
  destruct (load_case _ _ _) as [[[mnemonic loaded] ws]|];
    destruct q1, q2; split; reflexivity.
Qed.

Lemma exec_store_agree insn q1 q2 w1 w2 :
  same_state_but_trace w1 w2 ->
  same_state_but_trace (exec_store insn q1 w1) (exec_store insn q2 w2).
Proof.
  agree_fields. unfold exec_store. cbv zeta. cbn [hart regs mem].
  destruct (store_case _ _ _ _) as [[[mnemonic m'] ws]|];
    destruct q1, q2; split; reflexivity.
Qed.

Lemma exec_branch_agree insn q1 q2 w1 w2 :
  same_state_but_trace w1 w2 ->
  same_state_but_trace (exec_branch insn q1 w1) (exec_branch insn q2 w2).
Proof.
  agree_fields. unfold exec_branch. cbv zeta. cbn [hart regs pc].
  destruct (branch_case _ _ _) as [[mnemonic [|]]|];
    destruct q1, q2; split; reflexivity.
Qed.

Lemma exec_csrrx_agree insn mnemonic q1 q2 w1 w2 :
  same_state_but_trace w1 w2 ->
  same_state_but_trace (exec_csrrx insn q1 mnemonic w1)
                       (exec_csrrx insn q2 mnemonic w2).
Proof.
  agree_fields. unfold exec_csrrx. cbv zeta. cbn [hart regs csr].
  destruct (_ >=? 4096); [destruct q1, q2; split; reflexivity|].
  destruct (csrrx_case _ _ _ _) as [new_val|];
    [|destruct q1, q2; split; reflexivity].
  destruct (rv32i_decode.get_rd insn =? 0);
    destruct q1, q2; split; reflexivity.
Qed.

Lemma exec_csrrxi_agree insn mnemonic q1 q2 w1 w2 :
  same_state_but_trace w1 w2 ->
  same_state_but_trace (exec_csrrxi insn q1 mnemonic w1)
                       (exec_csrrxi insn q2 mnemonic w2).
Proof.
  agree_fields. unfold exec_csrrxi. cbv zeta. cbn [hart regs csr].
  destruct (_ >=? 4096); [destruct q1, q2; split; reflexivity|].
  destruct (csrrxi_case _ _ _) as [new_val|];
    [|destruct q1, q2; split; reflexivity].
  destruct (rv32i_decode.get_rd insn =? 0);
    destruct q1, q2; split; reflexivity.
Qed.

#[local] Hint Resolve exec_illegal_insn_agree exec_lui_agree exec_auipc_agree
  exec_jal_agree exec_jalr_agree exec_ecall_agree exec_ebreak_agree
  exec_alu_imm_agree exec_alu_reg_agree exec_load_agree exec_store_agree
  exec_branch_agree exec_csrrx_agree exec_csrrxi_agree : handlers.

Lemma exec_agree insn q1 q2 w1 w2 :
  same_state_but_trace w1 w2 ->
  same_state_but_trace (exec insn q1 w1) (exec insn q2 w2).
Proof.
  intros H. exec_dispatch insn; auto with handlers.
Qed.

Lemma tick_agree hdr1 hdr2 w1 w2 :
  same_state_but_trace w1 w2 ->
  same_state_but_trace (tick hdr1 w1) (tick hdr2 w2).
Proof.
  intros H. unfold tick.
  assert (Hhalt : halt (hart w1) = halt (hart w2))
    by (destruct H as [H _]; apply (f_equal halt) in H; exact H).
  rewrite <- Hhalt. destruct (halt (hart w1)); [exact H|].
  assert (Hsr : show_registers (hart w1) = show_registers (hart w2))
    by (destruct H as [H _]; apply (f_equal show_registers) in H; exact H).
  rewrite <- Hsr.
  assert (H' : same_state_but_trace
                 (if show_registers (hart w1) then dump hdr1 w1 else w1)
                 (if show_registers (hart w1) then dump hdr2 w2 else w2))
    by (destruct (show_registers (hart w1));
        [destruct H; split; assumption | exact H]).
  clear H Hhalt Hsr.
  set (u1 := if show_registers (hart w1) then dump hdr1 w1 else w1) in *.
  set (u2 := if show_registers (hart w1) then dump hdr2 w2 else w2) in *.
  clearbody u1 u2. clear w1 w2.
  destruct H' as [Hh He].
  destruct u1 as [[r1 m1 h1 hr1 si1 sr1 c1 p1 id1 cs1] o1 e1].
  destruct u2 as [[r2 m2 h2 hr2 si2 sr2 c2 p2 id2 cs2] o2 e2].
  cbn in Hh, He. injection Hh as -> -> -> -> -> -> -> -> ->. subst.
  cbn [hart pc mem show_instructions on_hart count_insn with_insn_counter].
  destruct (negb (Z.land p2 3 =? 0)); [split; reflexivity|].
  destruct (memory.get32 m2 p2) as [insn ws].
  assert (Hexec : forall q1 q2 x1 x2,
             same_state_but_trace x1 x2 ->
             same_state_but_trace (exec insn q1 x1) (exec insn q2 x2))
    by (intros; apply exec_agree; assumption).
  assert (Hprint : forall s x1 x2,
             same_state_but_trace x1 x2 ->
             same_state_but_trace (print s x1) x2)
    by (intros s x1 x2 [? ?]; split; assumption).
  assert (Hsym : forall x1 x2,
             same_state_but_trace x1 x2 -> same_state_but_trace x2 x1)
    by (intros x1 x2 [? ?]; split; symmetry; assumption).
  destruct si1, si2.
  - apply Hprint, Hsym, Hprint, Hsym, Hexec. split; reflexivity.
  - apply Hprint, Hexec. split; reflexivity.
  - apply Hsym, Hprint, Hsym, Hexec. split; reflexivity.
  - apply Hexec. split; reflexivity.
Qed.

End TraceSink.

(** ** registerfile.cpp: register 0 *)

Section Registers.
Import registerfile.

Implicit Types (rf : registerfile) (r v : Z).

Lemma get_zero rf : get rf 0 = 0.
Proof. reflexivity. Qed.

Lemma set_length rf r v : length (set rf r v) = length rf.
Proof.
  unfold set. cbv zeta.
  destruct ((u32 r =? 0) || _); [reflexivity | apply length_insert].
Qed.

Lemma set_slot_zero rf r v : set rf r v !! 0%nat = rf !! 0%nat.
Proof.
  unfold set. cbv zeta. pose proof (u32_range r) as Hr.
  destruct (Z.eqb_spec (u32 r) 0) as [E0 | Hne]; [reflexivity|].
  cbn [orb]. destruct (u32 r >=? _); [reflexivity|].
  apply list_lookup_insert_ne. lia.
Qed.

Lemma reset_length rf : length (reset rf) = length rf.
Proof.
  destruct rf as [| x rest]; [reflexivity|].
  cbn [reset length]. rewrite length_replicate. reflexivity.
Qed.

Lemma reset_slot_zero rf : rf <> [] -> reset rf !! 0%nat = Some 0.
Proof. destruct rf; [congruence | reflexivity]. Qed.

Lemma new_is_post_reset : new = post_reset_regs.
Proof. reflexivity. Qed.

(** Reading and writing the registers x1 .. x31 of a file of 32. *)
Lemma get_set_same rf r v :
  length rf = 32%nat -> 0 < r < 32 -> get (set rf r v) r = v.
Proof.
  intros Hlen Hr.
  assert (Hu : u32 r = r)
    by (apply u32_small; change (2^32) with 4294967296; lia).
  unfold get. cbv zeta. rewrite set_length, Hu.
  rewrite (proj2 (Z.eqb_neq r 0)) by lia. cbn [orb].
  rewrite geb_false by lia.
  unfold set. cbv zeta. rewrite Hu.
  rewrite (proj2 (Z.eqb_neq r 0)) by lia. cbn [orb].
  rewrite geb_false by lia.
  apply list_lookup_total_insert_eq. lia.
Qed.

Lemma get_set_other rf r r' v :
  u32 r <> u32 r' -> get (set rf r v) r' = get rf r'.
Proof.
  intros Hne. unfold get. cbv zeta.
  rewrite set_length.
  destruct ((u32 r' =? 0) || _); [reflexivity|].
  unfold set. cbv zeta. destruct ((u32 r =? 0) || _); [reflexivity|].
  pose proof (u32_range r). pose proof (u32_range r').
  apply list_lookup_total_insert_ne. lia.
Qed.

End Registers.

(** ** rv32i_hart.cpp: what every handler leaves alone *)

Section HandlerFrames.
Import rv32i_hart.

Lemma frame_refl w : frame w w.
Proof. repeat split. Qed.

Lemma frame_trans w1 w2 w3 : frame w1 w2 -> frame w2 w3 -> frame w1 w3.
Proof.
  unfold frame. intros (A1 & A2 & A3 & A4 & A5 & A6 & A7)
                       (B1 & B2 & B3 & B4 & B5 & B6 & B7).
  repeat split; congruence.
Qed.

Lemma store_case_length m f3 addr v mnemonic m' ws :
  store_case m f3 addr v = Some (mnemonic, m', ws) -> length m' = length m.
Proof.
  unfold store_case. intros H.
  destruct f3 as [|[[?|?|]|[?|?|]|]|?]; try discriminate.
  - destruct (memory.set8 m addr _) as [m1 w1] eqn:E. injection H as _ <- _.
    change m1 with (fst (m1, w1)). rewrite <- E. apply set8_length.
  - destruct (memory.set32 m addr _) as [m1 w1] eqn:E. injection H as _ <- _.
    change m1 with (fst (m1, w1)). rewrite <- E. apply set32_length.
  - destruct (memory.set16 m addr _) as [m1 w1] eqn:E. injection H as _ <- _.
    change m1 with (fst (m1, w1)). rewrite <- E. apply set16_length.
Qed.

(** Close a frame goal on a world given by its fields. *)
Ltac frame_done :=
  repeat split; cbn;
  rewrite ?set_length, ?set_slot_zero, ?length_insert; reflexivity.

Ltac frame_start w q := destruct w as [[r m h hr si sr c p id cs] o e], q.

Lemma exec_illegal_insn_frame insn q w : frame w (exec_illegal_insn insn q w).
Proof. frame_start w q; frame_done. Qed.

Lemma exec_lui_frame insn q w : frame w (exec_lui insn q w).
Proof. frame_start w q; frame_done. Qed.

Lemma exec_auipc_frame insn q w : frame w (exec_auipc insn q w).
Proof. frame_start w q; frame_done. Qed.

Lemma exec_jal_frame insn q w : frame w (exec_jal insn q w).
Proof. frame_start w q; frame_done. Qed.

Lemma exec_jalr_frame insn q w : frame w (exec_jalr insn q w).
Proof. frame_start w q; frame_done. Qed.

Lemma exec_ecall_frame insn q w : frame w (exec_ecall insn q w).
Proof. frame_start w q; frame_done. Qed.

Lemma exec_ebreak_frame insn q w : frame w (exec_ebreak insn q w).
Proof. frame_start w q; frame_done. Qed.

Lemma exec_alu_imm_frame insn q w : frame w (exec_alu_imm insn q w).
Proof.
  unfold exec_alu_imm. cbv zeta.
  destruct (alu_imm_case _ _ _ _) as [[[mnemonic shown_imm] result]|];
    frame_start w q; frame_done.
Qed.

Lemma exec_alu_reg_frame insn q w : frame w (exec_alu_reg insn q w).
Proof.
  unfold exec_alu_reg. cbv zeta.
  destruct (alu_reg_case _ _ _ _) as [[mnemonic result]|];
    frame_start w q; frame_done.
Qed.

Lemma exec_load_frame insn q w : frame w (exec_load insn q w).
Proof.
  unfold exec_load. cbv zeta.
  destruct (load_case _ _ _) as [[[mnemonic loaded] ws]|];
    frame_start w q; frame_done.
Qed.

Lemma exec_store_frame insn q w : frame w (exec_store insn q w).
Proof.
  unfold exec_store. cbv zeta.
  destruct (store_case _ _ _ _) as [[[mnemonic m'] ws]|] eqn:E;
    [apply store_case_length in E|];
    frame_start w q; cbn in E; repeat split; cbn; auto.
Qed.

Lemma exec_branch_frame insn q w : frame w (exec_branch insn q w).
Proof.
  unfold exec_branch. cbv zeta.
  destruct (branch_case _ _ _) as [[mnemonic [|]]|];
    frame_start w q; frame_done.
Qed.

Lemma exec_csrrx_frame insn q mnemonic w :
  frame w (exec_csrrx insn q mnemonic w).
Proof.
  unfold exec_csrrx. cbv zeta.
  destruct (_ >=? 4096); [frame_start w q; frame_done|].
  destruct (csrrx_case _ _ _ _) as [new_val|];
    [|frame_start w q; frame_done].
  destruct (rv32i_decode.get_rd insn =? 0); frame_start w q; frame_done.
Qed.

Lemma exec_csrrxi_frame insn q mnemonic w :
  frame w (exec_csrrxi insn q mnemonic w).
Proof.
  unfold exec_csrrxi. cbv zeta.
  destruct (_ >=? 4096); [frame_start w q; frame_done|].
  destruct (csrrxi_case _ _ _) as [new_val|];
    [|frame_start w q; frame_done].
  destruct (rv32i_decode.get_rd insn =? 0); frame_start w q; frame_done.
Qed.

#[local] Hint Resolve exec_illegal_insn_frame exec_lui_frame exec_auipc_frame
  exec_jal_frame exec_jalr_frame exec_ecall_frame exec_ebreak_frame
  exec_alu_imm_frame exec_alu_reg_frame exec_load_frame exec_store_frame
  exec_branch_frame exec_csrrx_frame exec_csrrxi_frame : handlers.

Lemma exec_frame insn q w : frame w (exec insn q w).
Proof.
  exec_dispatch insn; auto with handlers.
Qed.

Lemma tick_frame hdr w : frame w (tick hdr w).
Proof.
  unfold tick.
  destruct (halt (hart w)); [repeat split|].
  set (u := if show_registers (hart w) then dump hdr w else w).
  assert (Hu : frame w u)
    by (subst u; destruct (show_registers (hart w)); repeat split).
  apply (frame_trans _ _ _ Hu). clearbody u. clear Hu w.
  destruct (negb _); [repeat split|].
  cbv zeta.
  destruct (memory.get32 _ _) as [insn ws].
  cbn [hart warn on_hart count_insn show_instructions with_insn_counter].
  destruct (show_instructions (hart u)).
  - match goal with
    | |- frame u (print _ (exec insn true ?x)) =>
        apply (frame_trans u x); [repeat split|];
        apply (frame_trans x (exec insn true x)); [apply exec_frame|];
        repeat split
    end.
  - match goal with
    | |- frame u (exec insn false ?x) =>
        apply (frame_trans u x); [repeat split | apply exec_frame]
    end.
Qed.

End HandlerFrames.

(** ** The claims about one tick *)

Section Tick.
Import rv32i_hart.

(** C3: for every instruction word and every hart state, executing with
    the trace sink enabled and with it disabled gives the same hart
    (registers, pc, memory, CSRs, halt flag, halt reason, counter) and the
    same warnings; and a tick with the instruction-trace flag set gives
    the same registers, pc, memory, CSRs, halt flag, halt reason and
    counter as a tick with the flag clear.  Only [std::cout] differs. *)
Theorem trace_sink_noninterference insn hdr w :
  same_state (exec insn true w) (exec insn false w) /\
  (let t_on := tick hdr (on_hart (set_show_instructions true) w) in
   let t_off := tick hdr (on_hart (set_show_instructions false) w) in
   regs (hart t_on) = regs (hart t_off) /\
   pc (hart t_on) = pc (hart t_off) /\
   mem (hart t_on) = mem (hart t_off) /\
   csr (hart t_on) = csr (hart t_off) /\
   halt (hart t_on) = halt (hart t_off) /\
   halt_reason (hart t_on) = halt_reason (hart t_off) /\
   insn_counter (hart t_on) = insn_counter (hart t_off) /\
   cerr t_on = cerr t_off).
Proof.
  split.
  - destruct (exec_agree insn true false w w (conj eq_refl eq_refl)) as [Hh He].
    destruct (exec_frame insn true w) as (F & _).
    destruct (exec_frame insn false w) as (G & _).
    split; [|exact He].
    destruct (hart (exec insn true w)), (hart (exec insn false w)).
    cbn in *. injection Hh as -> -> -> -> -> -> -> -> ->. congruence.
  - cbv zeta.
    destruct (tick_agree hdr hdr (on_hart (set_show_instructions true) w)
                (on_hart (set_show_instructions false) w)) as [Hh He];
      [split; reflexivity|].
    repeat apply conj; try exact He.
    + exact (f_equal regs Hh).
    + exact (f_equal pc Hh).
    + exact (f_equal mem Hh).
    + exact (f_equal csr Hh).
    + exact (f_equal halt Hh).
    + exact (f_equal halt_reason Hh).
    + exact (f_equal insn_counter Hh).
Qed.

(** C4: a tick of a hart that is not halted and whose pc is not a
    multiple of four sets halted with reason "PC alignment error", leaves
    the counter, the registers, the memory, the CSRs and the pc as they
    were, sends no warning to [std::cerr] and does not depend on the
    memory: no fetch takes place. *)
Theorem tick_misaligned_pc hdr w :
  halt (hart w) = false ->
  pc (hart w) mod 4 <> 0 ->
  let t := tick hdr w in
  halt (hart t) = true /\
  halt_reason (hart t) = "PC alignment error" /\
  insn_counter (hart t) = insn_counter (hart w) /\
  regs (hart t) = regs (hart w) /\
  mem (hart t) = mem (hart w) /\
  csr (hart t) = csr (hart w) /\
  pc (hart t) = pc (hart w) /\
  hart t = with_halt true "PC alignment error" (hart w) /\
  cerr t = cerr w /\
  (forall m', tick hdr (on_hart (with_mem m') w) = on_hart (with_mem m') t).
Proof.
  intros Hhalt Hpc t. subst t.
  assert (Hbit : negb (Z.land (pc (hart w)) 0x3 =? 0) = true).
  { rewrite land_3_mod_4. apply negb_true_iff, Z.eqb_neq. exact Hpc. }
  destruct w as [[r m h hr si sr c p id cs] o e].
  cbn in Hhalt, Hbit. subst h.
  unfold tick. cbn [hart halt show_registers on_hart with_mem].
  destruct sr; cbn [hart pc dump print on_hart with_mem]; rewrite Hbit;
    repeat split; reflexivity.
Qed.

Lemma tick_misaligned_pc_witness :
  let w := mk_world (with_pc 2 (new (memory.new 0x100))) "" "" in
  halt (hart w) = false /\ pc (hart w) mod 4 <> 0 /\
  halt_reason (hart (tick "" w)) = "PC alignment error".
Proof.
  cbv zeta. split; [reflexivity|]. split; [vm_compute; lia|].
  apply (tick_misaligned_pc ""
           (mk_world (with_pc 2 (new (memory.new 0x100))) "" ""));
    [reflexivity | vm_compute; lia].
Defined.

(** C7: a tick of a halted hart changes nothing at all: the hart (pc,
    registers, memory, CSRs, counter, halt flag and reason) and both
    output streams are as before, whatever the trace flags are. *)
Theorem tick_halted_is_noop hdr w :
  halt (hart w) = true -> tick hdr w = w.
Proof. intros H. unfold tick. rewrite H. reflexivity. Qed.

Lemma tick_halted_is_noop_witness :
  let w := mk_world
             (with_halt true "EBREAK instruction"
                (set_show_registers true
                   (set_show_instructions true (new (memory.new 0x100)))))
             "" "" in
  halt (hart w) = true /\ tick "trace " w = w.
Proof.
  cbv zeta. split; [reflexivity|].
  apply tick_halted_is_noop. reflexivity.
Defined.

End Tick.

(** ** Register 0 *)

Section RegisterZero.
Import rv32i_hart.

(** The slot of register 0 holds zero from the reset on: no write and no
    tick reaches it. *)
Lemma ticks_frame n hdr w : frame w (ticks n hdr w).
Proof.
  unfold ticks. induction n as [| n IH] using N.peano_ind.
  - apply frame_refl.
  - rewrite N.iter_succ.
    apply (frame_trans _ _ _ IH), tick_frame.
Qed.

Lemma run_init_frame w : frame w (cpu_single_hart.run_init w).
Proof.
  destruct w as [[r m h hr si sr c p id cs] o e].
  repeat split; cbn; rewrite ?set_length, ?set_slot_zero; reflexivity.
Qed.

(** C6: register 0 reads as zero at every observation point:
    [registerfile::get(0)] returns 0 on every register file, after any
    [registerfile::set] (any index, any value), after [reset] and after
    every tick; and in every state reached from the reset by [run]'s
    write of x2 and any number of ticks, the slot regs[0] that
    [registerfile::dump] prints holds 0 as well. *)
Theorem register_zero_reads_zero :
  (forall rf, registerfile.get rf 0 = 0) /\
  (forall rf r v, registerfile.get (registerfile.set rf r v) 0 = 0) /\
  (forall rf, registerfile.get (registerfile.reset rf) 0 = 0) /\
  (forall hdr w, registerfile.get (regs (hart (tick hdr w))) 0 = 0) /\
  (forall m iflag rflag n hdr,
      regs (hart (ticks n hdr (cpu_single_hart.run_init (boot m iflag rflag))))
        !! 0%nat = Some 0).
Proof.
  repeat apply conj; try reflexivity.
  intros m iflag rflag n hdr.
  destruct (ticks_frame n hdr (cpu_single_hart.run_init (boot m iflag rflag)))
    as (_ & _ & _ & _ & _ & _ & ->).
  destruct (run_init_frame (boot m iflag rflag))
    as (_ & _ & _ & _ & _ & _ & ->).
  reflexivity.
Qed.

End RegisterZero.

(** ** The jal-to-self scenario *)

Section JalSelf.
Import rv32i_hart.

Lemma u64_succ z : u64 (u64 z + 1) = u64 (z + 1).
Proof. unfold u64. apply Zplus_mod_idemp_l. Qed.

(** One tick on [jal x0, 0] at pc 0 moves the counter and nothing else. *)
Lemma jal_self_tick hdr w :
  halt (hart w) = false ->
  pc (hart w) = 0 ->
  fst (memory.get32 (mem (hart w)) 0) = 0x0000006F ->
  hart (tick hdr w)
  = with_insn_counter (u64 (insn_counter (hart w) + 1)) (hart w).
Proof.
  intros Hhalt Hpc Hmem.
  destruct w as [[r m h hr si sr c p id cs] o e].
  cbn in Hhalt, Hpc, Hmem. subst h p.
  unfold tick. cbn [hart halt show_registers].
  destruct sr;
    cbn [hart pc dump print on_hart count_insn with_insn_counter mem];
    change (negb (Z.land 0 3 =? 0)) with false; cbv iota;
    destruct (memory.get32 m 0) as [insn ws]; cbn in Hmem; subst insn;
    cbn [hart warn show_instructions];
    destruct si; reflexivity.
Qed.

(** [n] ticks move the counter [n] times, modulo 2^64. *)
Lemma jal_self_ticks n hdr w :
  halt (hart w) = false ->
  pc (hart w) = 0 ->
  fst (memory.get32 (mem (hart w)) 0) = 0x0000006F ->
  0 <= insn_counter (hart w) < 2^64 ->
  hart (ticks n hdr w)
  = with_insn_counter (u64 (insn_counter (hart w) + Z.of_N n)) (hart w).
Proof.
  intros Hhalt Hpc Hmem Hc. unfold ticks.
  induction n as [| n IH] using N.peano_ind.
  - cbn [N.iter Z.of_N]. rewrite Z.add_0_r. unfold u64.
    rewrite Z.mod_small by exact Hc.
    destruct w as [[r m h hr si sr c p id cs] o e]. reflexivity.
  - rewrite N.iter_succ.
    rewrite jal_self_tick; rewrite IH;
      cbn [halt pc mem insn_counter with_insn_counter]; try assumption.
    rewrite u64_succ.
    replace (insn_counter (hart w) + Z.of_N n + 1)
      with (insn_counter (hart w) + Z.of_N (N.succ n)) by lia.
    reflexivity.
Qed.

Lemma jal_self_counter n hdr m iflag rflag :
  fst (memory.get32 m 0) = 0x0000006F ->
  hart (ticks n hdr (boot m iflag rflag))
  = with_insn_counter (u64 (Z.of_N n)) (hart (boot m iflag rflag)).
Proof.
  intros Hmem.
  rewrite jal_self_ticks; [reflexivity | reflexivity | reflexivity
                          | exact Hmem | split; [discriminate | reflexivity]].
Qed.

(** C8 as stated fails once the 64-bit counter wraps: after 2^64 ticks it
    is back at 0. *)
Lemma jal_self_counter_wraps_counterexample :
  fst (memory.get32 jal_self_image 0) = 0x0000006F /\
  insn_counter (hart (ticks (2^64) "" (boot jal_self_image false false)))
  <> Z.of_N (2^64).
Proof.
  split; [reflexivity|].
  rewrite jal_self_counter by reflexivity.
  cbn [insn_counter with_insn_counter]. discriminate.
Qed.

(** C8 (amended): with the word [0x0000006F] at address 0 and the hart
    reset, for every [n] with [1 <= n < 2^64], after [n] ticks the pc is 0,
    x0 reads 0, the instruction counter is [n] and the hart is not halted;
    in particular after 1000 ticks.  (The counter is a [uint64_t].) *)
Theorem jal_self_after_n_ticks m iflag rflag hdr n :
  fst (memory.get32 m 0) = 0x0000006F ->
  (1 <= n < 2^64)%N ->
  let w := ticks n hdr (boot m iflag rflag) in
  pc (hart w) = 0 /\
  registerfile.get (regs (hart w)) 0 = 0 /\
  insn_counter (hart w) = Z.of_N n /\
  halt (hart w) = false.
Proof.
  intros Hmem Hn w. subst w.
  rewrite jal_self_counter by assumption.
  cbn [pc insn_counter halt with_insn_counter].
  repeat apply conj; try reflexivity.
  unfold u64. apply Z.mod_small.
  change (2^64)%Z with (Z.of_N (2^64)). lia.
Qed.

Lemma jal_self_after_n_ticks_witness :
  fst (memory.get32 jal_self_image 0) = 0x0000006F /\
  (1 <= 1000 < 2^64)%N /\
  insn_counter (hart (ticks 1000 "" (boot jal_self_image true false))) = 1000 /\
  pc (hart (ticks 1000 "" (boot jal_self_image true false))) = 0.
Proof.
  assert (Hmem : fst (memory.get32 jal_self_image 0) = 0x0000006F)
    by reflexivity.
  assert (Hn : (1 <= 1000 < 2^64)%N)
    by (change (2^64)%N with 18446744073709551616%N; lia).
  split; [exact Hmem|]. split; [exact Hn|].
  destruct (jal_self_after_n_ticks jal_self_image true false "" 1000 Hmem Hn)
    as (Hpc & _ & Hc & _).
  split; [exact Hc | exact Hpc].
Defined.

End JalSelf.

(** ** The size of the memory *)

Section MemorySize.
Import memory.

Lemma new_size s :
  get_size (new s) = 16 * (u32 (u32 s + 15) / 16).
Proof.
  pose proof (u32_range (u32 s + 15)) as Hr.
  unfold get_size, new. cbv zeta.
  rewrite length_replicate, land_fffffff0 by exact Hr.
  rewrite Z2Nat.id by (Z.div_mod_to_equations; lia).
  apply u32_small.
  change (2^32) with 4294967296 in *. Z.div_mod_to_equations. lia.
Qed.

(** C9 as stated fails above [0xFFFFFFF0]: the addition wraps in
    [uint32_t] and the memory is empty. *)
Lemma new_size_wraps_counterexample :
  get_size (new 0xfffffff1) = 0 /\
  get_size (new 0xfffffff1) <> round_up_16 0xfffffff1.
Proof. split; [reflexivity | discriminate]. Qed.

(** C9 (amended): for every requested size [s] up to [0xFFFFFFF0] the
    length of the memory ([get_size]) is [s] rounded up to the next
    multiple of 16; for every [uint32_t] size whatever it is a multiple of
    16; and no operation changes it afterward: not [set8], [set16],
    [set32] or [load_file], and not a tick of the hart bound to it. *)
Theorem memory_size_rounded_and_fixed s :
  0 <= s <= 0xfffffff0 ->
  get_size (new s) = round_up_16 s /\
  (forall s', get_size (new s') mod 16 = 0) /\
  (forall m a v, get_size (fst (set8 m a v)) = get_size m) /\
  (forall m a v, get_size (fst (set16 m a v)) = get_size m) /\
  (forall m a v, get_size (fst (set32 m a v)) = get_size m) /\
  (forall m fname contents,
      get_size (snd (fst (load_file m fname contents))) = get_size m) /\
  (forall hdr w,
      get_size (mem (hart (rv32i_hart.tick hdr w))) = get_size (mem (hart w))).
Proof.
  intros Hs. repeat apply conj.
  - rewrite new_size. unfold round_up_16.
    rewrite (u32_small s) by (change (2^32) with 4294967296; lia).
    rewrite u32_small by (change (2^32) with 4294967296; lia).
    reflexivity.
  - intros s'. rewrite new_size.
    rewrite Z.mul_comm. apply Z.mod_mul. lia.
  - intros m a v. unfold get_size. rewrite set8_length. reflexivity.
  - intros m a v. unfold get_size. rewrite set16_length. reflexivity.
  - intros m a v. unfold get_size. rewrite set32_length. reflexivity.
  - intros m fname contents. unfold get_size.
    rewrite load_file_length. reflexivity.
  - intros hdr w. unfold get_size.
    destruct (tick_frame hdr w) as (_ & _ & _ & -> & _). reflexivity.
Qed.

Lemma memory_size_rounded_and_fixed_witness :
  0 <= 0xf1 <= 0xfffffff0 /\ get_size (new 0xf1) = 0x100.
Proof.
  split; [lia|].
  apply (memory_size_rounded_and_fixed 0xf1). lia.
Defined.

End MemorySize.

(** ** cpu_single_hart::run *)

Section Run.
Import cpu_single_hart.

(** C10: for every execution limit, [run] writes the memory size into x2
    before the first tick: its loop starts from the state in which x2
    holds the memory size (as a signed word, the same 32 bits) instead of
    the post-reset value, every other register holds its post-reset
    value, and the rest of the hart and both streams are as the reset
    left them; the first tick runs from that state. *)
Theorem run_sets_x2_before_first_tick m iflag rflag fuel exec_limit :
  0 <= exec_limit < 2^64 ->
  let w0 := boot m iflag rflag in
  let w1 := run_init w0 in
  run fuel exec_limit w0
  = option_map run_report (run_loop fuel exec_limit w1) /\
  run (S fuel) exec_limit w0
  = option_map run_report (run_loop fuel exec_limit (rv32i_hart.tick "" w1)) /\
  regs (hart w1) = <[2%nat := i32 (memory.get_size m)]> post_reset_regs /\
  registerfile.get (regs (hart w1)) 2 = i32 (memory.get_size m) /\
  u32 (registerfile.get (regs (hart w1)) 2) = memory.get_size m /\
  (forall r, registerfile.get (regs (hart w1)) r
             = if u32 r =? 2 then i32 (memory.get_size m)
               else registerfile.get post_reset_regs r) /\
  hart w1 = with_regs (regs (hart w1)) (hart w0) /\
  cout w1 = cout w0 /\ cerr w1 = cerr w0.
Proof.
  intros Hlimit w0 w1.
  assert (Hregs :
            regs (hart w1)
            = registerfile.set post_reset_regs 2 (i32 (memory.get_size m)))
    by reflexivity.
  repeat apply conj; try reflexivity.
  - unfold run. fold w0. fold w1. cbn [run_loop].
    change (halt (hart w1)) with false.
    change (insn_counter (hart w1)) with 0.
    cbn [negb andb].
    destruct (Z.eqb_spec exec_limit 0) as [E | E].
    + destruct (run_loop fuel exec_limit _); reflexivity.
    + rewrite (proj2 (Z.ltb_lt 0 exec_limit)) by lia.
      destruct (run_loop fuel exec_limit _); reflexivity.
  - rewrite Hregs, get_set_same by (reflexivity || lia).
    rewrite u32_i32. apply u32_small, get_size_range.
  - intros r. rewrite Hregs.
    destruct (Z.eqb_spec (u32 r) 2) as [E | E].
    + unfold registerfile.get at 1. cbv zeta. rewrite E.
      rewrite set_length. reflexivity.
    + apply get_set_other. rewrite (u32_small 2); [congruence|].
      split; [discriminate | reflexivity].
Qed.

Lemma run_sets_x2_before_first_tick_witness :
  0 <= 1000 < 2^64 /\
  registerfile.get
    (regs (hart (run_init (boot (memory.new 0x100) false false)))) 2 = 0x100.
Proof.
  assert (H : 0 <= 1000 < 2^64)
    by (change (2^64) with 18446744073709551616; lia).
  split; [exact H|].
  destruct (run_sets_x2_before_first_tick
              (memory.new 0x100) false false 0 1000 H)
    as (_ & _ & _ & Hx2 & _).
  exact Hx2.
Defined.

End Run.

(** ** The decoder against the hart *)

Section Decoder.
Import rv32i_decode rv32i_hart.

(** Under the ALU-register opcode the hart refuses every funct7 that the
    table does not allow: it halts with "Illegal instruction" and changes
    nothing else. *)
Lemma exec_alu_reg_funct7_illegal insn q w :
  get_opcode insn = opcode_alu_reg ->
  alu_reg_funct7_allowed (get_funct3 insn) (get_funct7 insn) = false ->
  hart (exec insn q w) = with_halt true "Illegal instruction" (hart w).
Proof.
  intros Hop Hf7. unfold exec. cbv zeta. rewrite Hop.
  cbn [Z.eqb Pos.eqb opcode_lui opcode_auipc opcode_jal opcode_jalr
         opcode_alu_imm opcode_alu_reg].
  unfold exec_alu_reg. cbv zeta.
  assert (Hcase : forall a b,
             alu_reg_case (get_funct3 insn) (get_funct7 insn) a b = None).
  { intros a b. unfold alu_reg_funct7_allowed in Hf7. unfold alu_reg_case.
    destruct (get_funct3 insn) as [|[[[?|?|]|[?|?|]|]|[[?|?|]|[?|?|]|]|]|?];
      cbn [Z.eqb Pos.eqb orb] in Hf7; try reflexivity;
      try (apply orb_false_elim in Hf7 as [-> ->]; reflexivity);
      rewrite Hf7; reflexivity. }
  rewrite Hcase. destruct q; reflexivity.
Qed.

(** The decoder looks at funct7 for add/sub and srl/sra only: under the
    other six funct3 values it renders the mnemonic whatever funct7 is. *)
Lemma decode_alu_reg_funct3_only addr insn :
  get_opcode insn = opcode_alu_reg ->
  decode addr insn =
    match get_funct3 insn with
    | 1 => render_rtype insn "sll"
    | 2 => render_rtype insn "slt"
    | 3 => render_rtype insn "sltu"
    | 4 => render_rtype insn "xor"
    | 6 => render_rtype insn "or"
    | 7 => render_rtype insn "and"
    | _ => decode addr insn
    end.
Proof.
  intros Hop. unfold decode at 1. cbv zeta. rewrite Hop.
  cbn [Z.eqb Pos.eqb opcode_lui opcode_auipc opcode_jal opcode_jalr
         opcode_btype opcode_load opcode_store opcode_alu_imm opcode_alu_reg].
  destruct (get_funct3 insn) as [|[[[?|?|]|[?|?|]|]|[[?|?|]|[?|?|]|]|]|?] eqn:E;
    try reflexivity; unfold decode; cbv zeta; rewrite Hop, E; reflexivity.
Qed.

(** C2, at the word [0x02001033] (ALU-register opcode, funct3 [001],
    funct7 [0000001], which the table does not allow): executing it halts
    the hart with "Illegal instruction", as the claim says, but the
    decoder renders it as [sll] and not as the error string. *)
Theorem decode_sll_ignores_funct7 :
  let insn := 0x02001033 in
  get_opcode insn = opcode_alu_reg /\
  get_funct3 insn = 1 /\
  get_funct7 insn = 1 /\
  alu_reg_funct7_allowed (get_funct3 insn) (get_funct7 insn) = false /\
  decode 0 insn = "sll     x0,x0,x0" /\
  decode 0 insn <> render_illegal_insn /\
  (forall q w,
      halt (hart (exec insn q w)) = true /\
      halt_reason (hart (exec insn q w)) = "Illegal instruction").
Proof.
  cbv zeta. repeat apply conj; try reflexivity.
  - discriminate.
  - intros q w. rewrite exec_alu_reg_funct7_illegal by reflexivity.
    split; reflexivity.
Qed.

(** Both upper-immediate renderers print the 20-bit field through
    [std::hex] alone. *)
Lemma render_lui_field insn :
  render_lui insn =
    "lui     " +:+ render_reg (get_rd insn) +:+ ",0x"
      +:+ show_hex (Z.land (Z.shiftr (u32 (get_imm_u insn)) 12) 0xFFFFF).
Proof. reflexivity. Qed.

Lemma render_auipc_field insn :
  render_auipc insn =
    "auipc   " +:+ render_reg (get_rd insn) +:+ ",0x"
      +:+ show_hex (Z.land (Z.shiftr (u32 (get_imm_u insn)) 12) 0xFFFFF).
Proof. reflexivity. Qed.

(** The 20-bit field the two renderers print is the U-immediate shifted
    right by 12, that is bits [31:12] of the word. *)
Lemma upper_immediate_field insn :
  0 <= insn < 2^32 ->
  Z.land (Z.shiftr (u32 (get_imm_u insn)) 12) 0xFFFFF = Z.shiftr insn 12.
Proof.
  intros Hinsn. unfold get_imm_u. rewrite u32_i32.
  assert (Hland : Z.land insn 0xfffff000 = 4096 * (insn / 4096)).
  { change 0xfffff000 with (Z.shiftl (Z.ones 20) 12).
    apply Z.bits_inj'. intros n Hn.
    rewrite Z.land_spec.
    replace (4096 * (insn / 4096)) with (Z.shiftl (Z.shiftr insn 12) 12)
      by (rewrite Z.shiftl_mul_pow2, Z.shiftr_div_pow2 by lia;
          change (2^12) with 4096; lia).
    destruct (Z.lt_ge_cases n 12) as [Hlt | Hge].
    - rewrite !Z.shiftl_spec_low by lia. apply andb_false_r.
    - rewrite !Z.shiftl_spec, Z.shiftr_spec by lia.
      replace (n - 12 + 12) with n by lia.
      destruct (Z.lt_ge_cases (n - 12) 20) as [Hin | Hout].
      + rewrite Z.ones_spec_low by lia. apply andb_true_r.
      + rewrite Z.ones_spec_high by lia. rewrite andb_false_r.
        symmetry. destruct (Z.eq_dec insn 0) as [-> | Hnz]; [apply Z.bits_0|].
        apply Z.bits_above_log2; [lia|].
        apply Z.lt_le_trans with 32; [apply Z.log2_lt_pow2; lia | lia]. }
  rewrite Hland.
  change 0xFFFFF with (Z.ones 20). rewrite land_ones_mod by lia.
  rewrite !Z.shiftr_div_pow2 by lia.
  change (2^12) with 4096. change (2^20) with 1048576.
  change (2^32) with 4294967296 in *.
  unfold u32. change (2^32) with 4294967296.
  Z.div_mod_to_equations. lia.
Qed.

(** [std::hex] prints a value below 16 as one digit. *)
Lemma show_hex_one_digit n :
  0 <= n < 16 -> show_hex n = String (digit_char n) "".
Proof.
  intros Hn. unfold show_hex, digits. cbn [digits_go].
  rewrite Z.div_small, Z.mod_small by exact Hn. reflexivity.
Qed.

(** Every [lui] word whose immediate is below 16 is rendered with a single
    hex digit after the prefix. *)
Lemma render_lui_one_digit insn :
  0 <= insn < 2^16 ->
  render_lui insn =
    "lui     " +:+ render_reg (get_rd insn) +:+ ",0x"
      +:+ String (digit_char (Z.shiftr insn 12)) "".
Proof.
  intros Hinsn. unfold render_lui. cbv zeta.
  rewrite upper_immediate_field
    by (change (2^16) with 65536 in Hinsn; change (2^32) with 4294967296; lia).
  rewrite show_hex_one_digit; [reflexivity|].
  rewrite Z.shiftr_div_pow2 by lia.
  change (2^12) with 4096. change (2^16) with 65536 in Hinsn.
  Z.div_mod_to_equations. lia.
Qed.

(** C1, at [lui x1, 1] ([0x000010B7]) and [auipc x1, 1] ([0x00001097]):
    the immediate is rendered with one hex digit, where the claim (and
    [hex::to_hex0x20], which the renderers do not call) has five. *)
Theorem render_upper_immediate_unpadded :
  decode 0 0x000010B7 = "lui     x1,0x1" /\
  decode 0 0x00001097 = "auipc   x1,0x1" /\
  hex.to_hex0x20 (Z.shiftr (u32 (get_imm_u 0x000010B7)) 12) = "0x00001" /\
  hex.to_hex0x20 (Z.shiftr (u32 (get_imm_u 0x00001097)) 12) = "0x00001".
Proof. repeat apply conj; reflexivity. Qed.

End Decoder.


(** * Further properties of the decoder, the memory and the engine *)

(** ** Bit fields as quotients and remainders *)

Section BitFields.

(** A field cut out by a shift and a mask. *)
Lemma field_div_mod z j k :
  0 <= j -> 0 <= k ->
  Z.land (Z.shiftr z j) (Z.ones k) = (z / 2^j) mod 2^k.
Proof.
  intros Hj Hk. rewrite land_ones_mod by exact Hk.
  rewrite Z.shiftr_div_pow2 by exact Hj. reflexivity.
Qed.

(** A field kept in place by a mask. *)
Lemma mask_div_mod z j k :
  0 <= j -> 0 <= k ->
  Z.land z (Z.shiftl (Z.ones k) j) = ((z / 2^j) mod 2^k) * 2^j.
Proof.
  intros Hj Hk.
  rewrite <- field_div_mod, <- Z.shiftl_mul_pow2 by assumption.
  rewrite Z.shiftl_land.
  apply Z.bits_inj'. intros n Hn. rewrite !Z.land_spec.
  destruct (Z.lt_ge_cases n j) as [Hlt | Hge].
  - rewrite (Z.shiftl_spec_low (Z.ones k)) by lia.
    rewrite !andb_false_r. reflexivity.
  - f_equal. rewrite Z.shiftl_spec, Z.shiftr_spec by lia.
    f_equal. lia.
Qed.

(** The same two facts with the mask given as a numeral. *)
Lemma field_const z m j k :
  m = Z.ones k -> 0 <= j -> 0 <= k ->
  Z.land (Z.shiftr z j) m = (z / 2^j) mod 2^k.
Proof. intros ->. apply field_div_mod. Qed.

Lemma mask_const z m j k :
  m = Z.shiftl (Z.ones k) j -> 0 <= j -> 0 <= k ->
  Z.land z m = ((z / 2^j) mod 2^k) * 2^j.
Proof. intros ->. apply mask_div_mod. Qed.

(** Parts that occupy different bits add up. *)
Lemma lor_disjoint a b n :
  0 <= n -> 0 <= a < 2^n -> b mod 2^n = 0 -> Z.lor a b = a + b.
Proof.
  intros Hn Ha Hb.
  assert (E : b = Z.shiftl (b / 2^n) n).
  { rewrite Z.shiftl_mul_pow2 by exact Hn.
    pose proof (Z.div_mod b (2^n)). lia. }
  rewrite E at 1. rewrite lor_shiftl_add by assumption.
  pose proof (Z.div_mod b (2^n)). lia.
Qed.

Lemma i32_small z : - 2^31 <= z < 2^31 -> i32 z = z.
Proof.
  intros H. unfold i32.
  rewrite Z.mod_small; change (2^31) with 2147483648 in *;
    change (2^32) with 4294967296; lia.
Qed.

Lemma i32_range z : - 2^31 <= i32 z < 2^31.
Proof.
  unfold i32. pose proof (Z.mod_pos_bound (z + 2^31) (2^32)).
  change (2^31) with 2147483648 in *.
  change (2^32) with 4294967296 in *. lia.
Qed.

(** A word with its upper half set, read as a signed word. *)
Lemma i32_high z : 2^31 <= z < 2^32 -> i32 z = z - 2^32.
Proof.
  intros H. unfold i32.
  change (2^31) with 2147483648 in *. change (2^32) with 4294967296 in *.
  Z.div_mod_to_equations. lia.
Qed.

End BitFields.

(** Turn the powers of two of the field lemmas into numerals. *)
Ltac pow2_numerals :=
  change (2^1) with 2 in *; change (2^3) with 8 in *;
  change (2^4) with 16 in *; change (2^5) with 32 in *;
  change (2^6) with 64 in *; change (2^7) with 128 in *;
  change (2^8) with 256 in *; change (2^10) with 1024 in *;
  change (2^11) with 2048 in *; change (2^12) with 4096 in *;
  change (2^13) with 8192 in *; change (2^15) with 32768 in *;
  change (2^16) with 65536 in *; change (2^20) with 1048576 in *;
  change (2^24) with 16777216 in *; change (2^21) with 2097152 in *;
  change (2^25) with 33554432 in *; change (2^31) with 2147483648 in *;
  change (2^32) with 4294967296 in *.

(** Arithmetic with quotients and remainders by powers of two. *)
Ltac solve_pow := pow2_numerals; Z.div_mod_to_equations; lia.

(** ** rv32i_decode.cpp: the fields and the immediates *)

Section DecoderFields.
Import rv32i_decode.

Lemma get_opcode_eq insn : get_opcode insn = insn mod 2^7.
Proof. unfold get_opcode. change 0x7f with (Z.ones 7). apply land_ones_mod. lia. Qed.

Lemma get_rd_eq insn : get_rd insn = (insn / 2^7) mod 2^5.
Proof. unfold get_rd. change 0x1f with (Z.ones 5). apply field_div_mod; lia. Qed.

Lemma get_funct3_eq insn : get_funct3 insn = (insn / 2^12) mod 2^3.
Proof. unfold get_funct3. change 0x7 with (Z.ones 3). apply field_div_mod; lia. Qed.

Lemma get_rs1_eq insn : get_rs1 insn = (insn / 2^15) mod 2^5.
Proof. unfold get_rs1. change 0x1f with (Z.ones 5). apply field_div_mod; lia. Qed.

Lemma get_rs2_eq insn : get_rs2 insn = (insn / 2^20) mod 2^5.
Proof. unfold get_rs2. change 0x1f with (Z.ones 5). apply field_div_mod; lia. Qed.

Lemma get_funct7_eq insn : get_funct7 insn = (insn / 2^25) mod 2^7.
Proof. unfold get_funct7. change 0x7f with (Z.ones 7). apply field_div_mod; lia. Qed.

(** X1: the six fields of a 32-bit instruction word are in their ranges
    (rd, rs1 and rs2 below 32, funct3 below 8, opcode and funct7 below
    128) and together they make up the whole word. *)
Theorem instruction_fields_partition insn :
  0 <= insn < 2^32 ->
  0 <= get_opcode insn < 128 /\
  0 <= get_rd insn < 32 /\
  0 <= get_funct3 insn < 8 /\
  0 <= get_rs1 insn < 32 /\
  0 <= get_rs2 insn < 32 /\
  0 <= get_funct7 insn < 128 /\
  insn = get_opcode insn + 2^7 * get_rd insn + 2^12 * get_funct3 insn
         + 2^15 * get_rs1 insn + 2^20 * get_rs2 insn
         + 2^25 * get_funct7 insn.
Proof.
  intros Hinsn.
  rewrite get_opcode_eq, get_rd_eq, get_funct3_eq, get_rs1_eq, get_rs2_eq,
    get_funct7_eq.
  pow2_numerals. Z.div_mod_to_equations. lia.
Qed.

Lemma instruction_fields_partition_witness :
  0 <= 0x00b50533 < 2^32 /\ get_rd 0x00b50533 = 10 /\
  0 <= get_funct7 0x00b50533 < 128.
Proof.
  assert (H : 0 <= 0x00b50533 < 2^32)
    by (change (2^32) with 4294967296; lia).
  split; [exact H|]. split; [reflexivity|].
  apply (instruction_fields_partition 0x00b50533 H).
Defined.

End DecoderFields.

Section Immediates.
Import rv32i_decode.

(** X2: the I-type immediate is the 12-bit field insn[31:20] read as a
    signed number: it lies in [-2048, 2048). *)
Theorem get_imm_i_sign_extends insn :
  let f := (insn / 2^20) mod 2^12 in
  get_imm_i insn = (if f <? 2048 then f else f - 4096) /\
  - 2048 <= get_imm_i insn < 2048.
Proof.
  cbv zeta. unfold get_imm_i. cbv zeta.
  rewrite (field_const insn 0xfff 20 12) by (reflexivity || lia).
  set (f := (insn / 2^20) mod 2^12).
  assert (Hf : 0 <= f < 4096) by (subst f; solve_pow).
  clearbody f.
  rewrite (i32_small f) by solve_pow.
  rewrite (mask_const f 0x800 11 1) by (reflexivity || lia).
  destruct (Z.ltb_spec f 2048) as [Hlt | Hge].
  - replace ((f / 2^11) mod 2^1 * 2^11) with 0 by solve_pow.
    cbn [Z.eqb negb]. lia.
  - replace ((f / 2^11) mod 2^1 * 2^11) with 2048 by solve_pow.
    cbn [Z.eqb negb].
    rewrite (u32_small f) by solve_pow.
    rewrite (lor_disjoint f _ 12) by (try reflexivity; solve_pow).
    rewrite i32_high by solve_pow. solve_pow.
Qed.

(** X3: the U-type immediate is insn[31:12] placed in the upper 20 bits:
    its low 12 bits are zero and, as an unsigned word, it is the
    instruction word with the low 12 bits cleared. *)
Theorem get_imm_u_upper_bits insn :
  get_imm_u insn mod 4096 = 0 /\
  u32 (get_imm_u insn) = 4096 * ((insn / 2^12) mod 2^20) /\
  - 2^31 <= get_imm_u insn < 2^31.
Proof.
  unfold get_imm_u.
  rewrite (mask_const insn 0xfffff000 12 20) by (reflexivity || lia).
  set (f := (insn / 2^12) mod 2^20).
  assert (Hf : 0 <= f < 1048576) by (subst f; solve_pow).
  clearbody f.
  repeat apply conj.
  - unfold i32. solve_pow.
  - rewrite u32_i32. unfold u32. solve_pow.
  - apply i32_range.
  - apply i32_range.
Qed.

(** X4: the S-type immediate is the 12-bit number made of insn[31:25]
    (upper seven bits) and insn[11:7] (lower five), read as signed. *)
Theorem get_imm_s_sign_extends insn :
  let f := 32 * ((insn / 2^25) mod 2^7) + (insn / 2^7) mod 2^5 in
  get_imm_s insn = (if f <? 2048 then f else f - 4096) /\
  - 2048 <= get_imm_s insn < 2048.
Proof.
  cbv zeta. unfold get_imm_s. cbv zeta.
  rewrite (mask_const insn 0xfe000000 25 7) by (reflexivity || lia).
  rewrite (mask_const insn 0x00000f80 7 5) by (reflexivity || lia).
  rewrite (mask_const insn 0x80000000 31 1) by (reflexivity || lia).
  change (25 - 5) with 20. change (7 - 0) with 7.
  rewrite !Z.shiftr_div_pow2 by lia.
  assert (Hb : (insn / 2^31) mod 2^1 = ((insn / 2^25) mod 2^7) / 64)
    by solve_pow.
  rewrite Hb.
  set (hi := (insn / 2^25) mod 2^7).
  set (lo := (insn / 2^7) mod 2^5).
  assert (Hhi : 0 <= hi < 128) by (subst hi; solve_pow).
  assert (Hlo : 0 <= lo < 32) by (subst lo; solve_pow).
  clearbody hi lo. clear Hb.
  replace (hi * 2^25 / 2^20) with (hi * 32) by solve_pow.
  replace (lo * 2^7 / 2^7) with lo by solve_pow.
  rewrite (i32_small (hi * 32)) by solve_pow.
  rewrite (u32_small (hi * 32)) by solve_pow.
  rewrite (Z.lor_comm (hi * 32) lo), (lor_disjoint lo _ 5) by solve_pow.
  rewrite (i32_small (lo + hi * 32)) by solve_pow.
  destruct (Z.ltb_spec (32 * hi + lo) 2048) as [Hlt | Hge].
  - replace (hi / 64 * 2^31) with 0 by solve_pow.
    cbn [Z.eqb negb]. lia.
  - replace (hi / 64 * 2^31) with 2147483648 by solve_pow.
    cbn [Z.eqb negb].
    rewrite (u32_small (lo + hi * 32)) by solve_pow.
    rewrite (lor_disjoint _ _ 12) by (try reflexivity; solve_pow).
    rewrite i32_high by solve_pow. solve_pow.
Qed.

Lemma get_imm_b_value insn :
  get_imm_b insn
  = 2 * ((insn / 2^8) mod 2^4) + 32 * ((insn / 2^25) mod 2^6)
    + 2048 * ((insn / 2^7) mod 2) - 4096 * ((insn / 2^31) mod 2).
Proof.
  unfold get_imm_b. cbv zeta.
  rewrite (field_const insn 0x1 31 1) by (reflexivity || lia).
  rewrite (field_const insn 0x3f 25 6) by (reflexivity || lia).
  rewrite (field_const insn 0x0f 8 4) by (reflexivity || lia).
  rewrite (field_const insn 0x1 7 1) by (reflexivity || lia).
  change (2^1) with 2.
  set (b12 := (insn / 2^31) mod 2).
  set (b11 := (insn / 2^7) mod 2).
  set (b10_5 := (insn / 2^25) mod 2^6).
  set (b4_1 := (insn / 2^8) mod 2^4).
  assert (H12 : 0 <= b12 < 2) by (subst b12; solve_pow).
  assert (H11 : 0 <= b11 < 2) by (subst b11; solve_pow).
  assert (H10 : 0 <= b10_5 < 64) by (subst b10_5; solve_pow).
  assert (H4 : 0 <= b4_1 < 16) by (subst b4_1; solve_pow).
  clearbody b12 b11 b10_5 b4_1.
  rewrite (i32_small b12), (i32_small b11), (i32_small b10_5),
    (i32_small b4_1) by solve_pow.
  rewrite !Z.shiftl_mul_pow2 by lia.
  rewrite (Z.lor_comm (b12 * 2^12)),
    (lor_disjoint (b11 * 2^11) (b12 * 2^12) 12) by solve_pow.
  rewrite (Z.lor_comm _ (b10_5 * 2^5)),
    (lor_disjoint (b10_5 * 2^5) _ 11) by solve_pow.
  rewrite (Z.lor_comm _ (b4_1 * 2^1)),
    (lor_disjoint (b4_1 * 2^1) _ 5) by solve_pow.
  set (imm := b4_1 * 2^1 + (b10_5 * 2^5 + (b11 * 2^11 + b12 * 2^12))).
  assert (Himm : imm = 2 * b4_1 + 32 * b10_5 + 2048 * b11 + 4096 * b12)
    by (subst imm; solve_pow).
  clearbody imm.
  destruct (Z.eqb_spec b12 0) as [E | E]; cbn [negb].
  - solve_pow.
  - rewrite (u32_small imm) by solve_pow.
    rewrite (lor_disjoint _ _ 13) by (try reflexivity; solve_pow).
    rewrite i32_high by solve_pow. solve_pow.
Qed.

Lemma get_imm_b_even insn : get_imm_b insn mod 2 = 0.
Proof. rewrite get_imm_b_value. solve_pow. Qed.

(** X5: the B-type immediate gathers insn[31], insn[7], insn[30:25] and
    insn[11:8] into bits 12, 11, [10:5] and [4:1] of a signed offset: it is
    even and lies in [-4096, 4096). *)
Theorem get_imm_b_sign_extends insn :
  let b12 := (insn / 2^31) mod 2 in
  let b11 := (insn / 2^7) mod 2 in
  let b10_5 := (insn / 2^25) mod 2^6 in
  let b4_1 := (insn / 2^8) mod 2^4 in
  get_imm_b insn = 2 * b4_1 + 32 * b10_5 + 2048 * b11 - 4096 * b12 /\
  get_imm_b insn mod 2 = 0 /\
  - 4096 <= get_imm_b insn < 4096.
Proof.
  cbv zeta. rewrite get_imm_b_value.
  repeat apply conj; solve_pow.
Qed.

Lemma get_imm_j_value insn :
  get_imm_j insn
  = 2 * ((insn / 2^21) mod 2^10) + 2048 * ((insn / 2^20) mod 2)
    + 4096 * ((insn / 2^12) mod 2^8) - 1048576 * ((insn / 2^31) mod 2).
Proof.
  unfold get_imm_j. cbv zeta.
  rewrite (field_const insn 0x1 31 1) by (reflexivity || lia).
  rewrite (field_const insn 0x3ff 21 10) by (reflexivity || lia).
  rewrite (field_const insn 0x1 20 1) by (reflexivity || lia).
  rewrite (field_const insn 0xff 12 8) by (reflexivity || lia).
  change (2^1) with 2.
  set (b20 := (insn / 2^31) mod 2).
  set (b19_12 := (insn / 2^12) mod 2^8).
  set (b11 := (insn / 2^20) mod 2).
  set (b10_1 := (insn / 2^21) mod 2^10).
  assert (H20 : 0 <= b20 < 2) by (subst b20; solve_pow).
  assert (H19 : 0 <= b19_12 < 256) by (subst b19_12; solve_pow).
  assert (H11 : 0 <= b11 < 2) by (subst b11; solve_pow).
  assert (H10 : 0 <= b10_1 < 1024) by (subst b10_1; solve_pow).
  clearbody b20 b19_12 b11 b10_1.
  rewrite (i32_small b20), (i32_small b19_12), (i32_small b11),
    (i32_small b10_1) by solve_pow.
  rewrite !Z.shiftl_mul_pow2 by lia.
  rewrite (Z.lor_comm (b20 * 2^20)),
    (lor_disjoint (b19_12 * 2^12) (b20 * 2^20) 20) by solve_pow.
  rewrite (Z.lor_comm _ (b11 * 2^11)),
    (lor_disjoint (b11 * 2^11) _ 12) by solve_pow.
  rewrite (Z.lor_comm _ (b10_1 * 2^1)),
    (lor_disjoint (b10_1 * 2^1) _ 11) by solve_pow.
  set (imm := b10_1 * 2^1 + (b11 * 2^11 + (b19_12 * 2^12 + b20 * 2^20))).
  assert (Himm : imm = 2 * b10_1 + 2048 * b11 + 4096 * b19_12 + 1048576 * b20)
    by (subst imm; solve_pow).
  clearbody imm.
  destruct (Z.eqb_spec b20 0) as [E | E]; cbn [negb].
  - solve_pow.
  - rewrite (u32_small imm) by solve_pow.
    rewrite (lor_disjoint _ _ 21) by (try reflexivity; solve_pow).
    rewrite i32_high by solve_pow. solve_pow.
Qed.

Lemma get_imm_j_even insn : get_imm_j insn mod 2 = 0.
Proof. rewrite get_imm_j_value. solve_pow. Qed.

(** X6: the J-type immediate gathers insn[31], insn[19:12], insn[20] and
    insn[30:21] into bits 20, [19:12], 11 and [10:1] of a signed offset: it
    is even and lies in [-2^20, 2^20). *)
Theorem get_imm_j_sign_extends insn :
  let b20 := (insn / 2^31) mod 2 in
  let b19_12 := (insn / 2^12) mod 2^8 in
  let b11 := (insn / 2^20) mod 2 in
  let b10_1 := (insn / 2^21) mod 2^10 in
  get_imm_j insn = 2 * b10_1 + 2048 * b11 + 4096 * b19_12 - 1048576 * b20 /\
  get_imm_j insn mod 2 = 0 /\
  - 1048576 <= get_imm_j insn < 1048576.
Proof.
  cbv zeta. rewrite get_imm_j_value.
  repeat apply conj; solve_pow.
Qed.

End Immediates.

(** ** memory.cpp: bytes, halfwords and words *)

Section MemoryAccess.
Import memory.

Implicit Types (m : memory) (a v : Z).

Lemma geb_true' a b : b <= a -> (a >=? b) = true.
Proof. intros H. rewrite Z.geb_leb. apply Z.leb_le. exact H. Qed.

Lemma get8_out_of_range m a :
  Z.of_nat (length m) <= a -> get8 m a = (0, [out_of_range_warning a]).
Proof.
  intros H. unfold get8, check_illegal. rewrite geb_true' by exact H.
  reflexivity.
Qed.

Lemma set8_out_of_range m a v :
  Z.of_nat (length m) <= a -> set8 m a v = (m, [out_of_range_warning a]).
Proof.
  intros H. unfold set8, check_illegal. rewrite geb_true' by exact H.
  reflexivity.
Qed.

Lemma get8_byte m a : bytes_ok m -> 0 <= a -> 0 <= fst (get8 m a) < 256.
Proof.
  intros Hm Ha. unfold get8, check_illegal.
  destruct (a >=? Z.of_nat (length m)) eqn:E; cbn [negb fst]; [lia|].
  rewrite Z.geb_leb in E. apply Z.leb_gt in E.
  apply (Forall_lookup_total_1 _ _ _ Hm). lia.
Qed.

(** X7: a fresh memory reads [0xa5] at every in-range address, as a byte
    and (where the four bytes fit) as the word [0xa5a5a5a5], without a
    warning. *)
Theorem new_memory_reads_a5 s a :
  0 <= a < get_size (new s) ->
  get8 (new s) a = (0xa5, []) /\
  (a + 3 < get_size (new s) -> get32 (new s) a = (0xa5a5a5a5, [])).
Proof.
  intros Ha.
  pose proof (get_size_le_length (new s)) as Hle.
  pose proof (get_size_range (new s)) as Hr.
  assert (Hbyte : forall b, 0 <= b < get_size (new s) ->
                            get8 (new s) b = (0xa5, [])).
  { intros b Hb. rewrite get8_in_range by lia. f_equal.
    assert (Hlen : length (new s)
                   = Z.to_nat (Z.land (u32 (u32 s + 15)) 0xfffffff0))
      by (unfold new; cbv zeta; apply length_replicate).
    unfold new. cbv zeta. apply lookup_total_replicate_2. lia. }
  split; [apply Hbyte; exact Ha|].
  intros H3. unfold get32, get16.
  rewrite (Hbyte a) by lia.
  rewrite (u32_small (a + 1)), (Hbyte (a + 1)) by lia.
  rewrite (u32_small (a + 2)), (Hbyte (a + 2)) by lia.
  replace (u32 (a + 2 + 1)) with (a + 3) by (rewrite u32_small; lia).
  rewrite (Hbyte (a + 3)) by lia.
  reflexivity.
Qed.

Lemma new_memory_reads_a5_witness :
  0 <= 0x10 < get_size (new 0x100) /\ get8 (new 0x100) 0x10 = (0xa5, []).
Proof.
  assert (H : 0 <= 0x10 < get_size (new 0x100)) by (change (get_size (new 0x100)) with 256; lia).
  split; [exact H|]. apply (new_memory_reads_a5 0x100 0x10 H).
Defined.

(** X8: writing a byte at an in-range address and reading any address
    back: the address written holds the value (reduced to 8 bits), every
    other address reads as before, and the write warns about nothing. *)
Theorem set8_get8 m a a' v :
  0 <= a < get_size m -> 0 <= a' ->
  get8 (fst (set8 m a v)) a'
  = (if a' =? a then (u8 v, []) else get8 m a') /\
  snd (set8 m a v) = [].
Proof.
  intros Ha Ha'.
  pose proof (get_size_le_length m) as Hle.
  rewrite set8_in_range by lia. cbn [fst snd]. split; [|reflexivity].
  destruct (Z.eqb_spec a' a) as [-> | Hne].
  - rewrite get8_in_range by (rewrite length_insert; lia).
    f_equal. apply list_lookup_total_insert_eq. lia.
  - unfold get8, check_illegal. rewrite length_insert.
    destruct (a' >=? Z.of_nat (length m)); cbn [negb]; [reflexivity|].
    f_equal. apply list_lookup_total_insert_ne. lia.
Qed.

Lemma set8_get8_witness :
  0 <= 0x20 < get_size (new 0x100) /\ 0 <= 0x20 /\
  get8 (fst (set8 (new 0x100) 0x20 0x1ff)) 0x20 = (0xff, []).
Proof.
  assert (H : 0 <= 0x20 < get_size (new 0x100)) by (change (get_size (new 0x100)) with 256; lia).
  assert (H' : 0 <= 0x20) by lia.
  split; [exact H|]. split; [exact H'|].
  apply (set8_get8 (new 0x100) 0x20 0x20 0x1ff H H').
Defined.



(** X10: an access that lies wholly beyond the end of the memory: [set32]
    leaves the memory as it is, [get32] returns 0, and each of them sends
    one warning for each of the four addresses, in address order. *)
Theorem word_access_out_of_range m a v :
  Z.of_nat (length m) <= a -> a + 3 < 2^32 ->
  let warnings := [out_of_range_warning a; out_of_range_warning (a + 1);
                   out_of_range_warning (a + 2); out_of_range_warning (a + 3)] in
  set32 m a v = (m, warnings) /\ get32 m a = (0, warnings).
Proof.
  intros Ha Hin. cbv zeta.
  assert (H0 : 0 <= a) by lia.
  split.
  - unfold set32, set16.
    rewrite (u32_small (a + 1)), (u32_small (a + 2)) by lia.
    replace (u32 (a + 2 + 1)) with (a + 3) by (rewrite u32_small; lia).
    rewrite (set8_out_of_range m a) by lia. cbv beta iota zeta.
    rewrite (set8_out_of_range m (a + 1)) by lia. cbv beta iota zeta.
    rewrite (set8_out_of_range m (a + 2)) by lia. cbv beta iota zeta.
    rewrite (set8_out_of_range m (a + 3)) by lia. reflexivity.
  - unfold get32, get16.
    rewrite (u32_small (a + 1)), (u32_small (a + 2)) by lia.
    replace (u32 (a + 2 + 1)) with (a + 3) by (rewrite u32_small; lia).
    rewrite (get8_out_of_range m a), (get8_out_of_range m (a + 1)),
      (get8_out_of_range m (a + 2)), (get8_out_of_range m (a + 3)) by lia.
    reflexivity.
Qed.

Lemma word_access_out_of_range_witness :
  Z.of_nat (length (new 16)) <= 16 /\ 16 + 3 < 2^32 /\
  fst (set32 (new 16) 16 0xdeadbeef) = new 16.
Proof.
  assert (Ha : Z.of_nat (length (new 16)) <= 16)
    by (change (Z.of_nat (length (new 16))) with 16; lia).
  assert (Hin : 16 + 3 < 2^32) by (change (2^32) with 4294967296; lia).
  split; [exact Ha|]. split; [exact Hin|].
  destruct (word_access_out_of_range (new 16) 16 0xdeadbeef Ha Hin) as (E & _).
  rewrite E. reflexivity.
Defined.

(** X11: the sign-extending reads: [get8_sx] returns the byte read by
    [get8] as a signed 8-bit number, [get16_sx] the halfword read by
    [get16] as a signed 16-bit number, with the same warnings. *)
Theorem sign_extending_reads m a :
  bytes_ok m -> 0 <= a ->
  let b := fst (get8 m a) in
  let h := fst (get16 m a) in
  get8_sx m a = ((if b <? 128 then b else b - 256), snd (get8 m a)) /\
  get16_sx m a = ((if h <? 32768 then h else h - 65536), snd (get16 m a)).
Proof.
  intros Hm Ha. cbv zeta.
  pose proof (get8_byte m a Hm Ha) as Hb.
  split.
  - unfold get8_sx. destruct (get8 m a) as [b w]. cbn [fst snd] in *.
    f_equal. unfold u8. rewrite Z.shiftr_div_pow2 by lia.
    destruct (Z.ltb_spec b 128) as [Hlt | Hge].
    + replace ((b / 2^7) mod 2^8) with 0 by solve_pow.
      cbn [Z.eqb]. apply i32_small. solve_pow.
    + replace ((b / 2^7) mod 2^8) with 1 by solve_pow.
      cbn [Z.eqb Pos.eqb]. rewrite (u32_small b) by solve_pow.
      rewrite (lor_disjoint _ _ 8) by (try reflexivity; solve_pow).
      rewrite i32_high by solve_pow. solve_pow.
  - unfold get16_sx.
    assert (Hh : 0 <= fst (get16 m a) < 65536).
    { unfold get16. destruct (get8 m a), (get8 m (u32 (a + 1))).
      cbn [fst]. unfold u16. solve_pow. }
    destruct (get16 m a) as [h w]. cbn [fst snd] in *.
    f_equal. unfold u16 at 1. rewrite Z.shiftr_div_pow2 by lia.
    destruct (Z.ltb_spec h 32768) as [Hlt | Hge].
    + replace ((h / 2^15) mod 2^16) with 0 by solve_pow.
      cbn [Z.eqb]. apply i32_small. solve_pow.
    + replace ((h / 2^15) mod 2^16) with 1 by solve_pow.
      cbn [Z.eqb Pos.eqb]. rewrite (u32_small h) by solve_pow.
      rewrite (lor_disjoint _ _ 16) by (try reflexivity; solve_pow).
      rewrite i32_high by solve_pow. solve_pow.
Qed.

Lemma sign_extending_reads_witness :
  let m := fst (set8 (new 16) 3 0x80) in
  bytes_ok m /\ 0 <= 3 /\ get8_sx m 3 = (-128, []).
Proof.
  cbv zeta.
  assert (Hm : bytes_ok (fst (set8 (new 16) 3 0x80))).
  { unfold bytes_ok.
    let l := eval vm_compute in (fst (set8 (new 16) 3 0x80)) in
    change (Forall (fun b => 0 <= b < 256) l).
    repeat (apply List.Forall_cons; [lia|]). apply List.Forall_nil. }
  assert (Ha : 0 <= 3) by lia.
  split; [exact Hm|]. split; [exact Ha|].
  destruct (sign_extending_reads _ 3 Hm Ha) as (E & _).
  rewrite E. reflexivity.
Defined.

End MemoryAccess.

(** ** memory.cpp: every cell stays a byte *)

Section Bytes.
Import memory.

Implicit Types (m : memory) (a v : Z).

Lemma u8_byte v : 0 <= u8 v < 256.
Proof. unfold u8. change (2^8) with 256. apply Z.mod_pos_bound. lia. Qed.

Lemma bytes_ok_new s : bytes_ok (new s).
Proof.
  unfold bytes_ok, new. cbv zeta. apply Forall_replicate. lia.
Qed.

Lemma bytes_ok_set8 m a v : bytes_ok m -> bytes_ok (fst (set8 m a v)).
Proof.
  intros Hm. unfold set8, check_illegal.
  destruct (a >=? Z.of_nat (length m)); cbn [negb fst]; [exact Hm|].
  apply Forall_insert; [exact Hm | apply u8_byte].
Qed.

Lemma bytes_ok_set16 m a v : bytes_ok m -> bytes_ok (fst (set16 m a v)).
Proof.
  intros Hm. unfold set16. cbv zeta.
  pose proof (bytes_ok_set8 m a (u8 (Z.land v 0xff)) Hm) as H1.
  destruct (set8 m a _) as [m1 w1]. cbn [fst] in H1.
  pose proof (bytes_ok_set8 m1 (u32 (a + 1))
                (u8 (Z.land (Z.shiftr v 8) 0xff)) H1) as H2.
  destruct (set8 m1 _ _) as [m2 w2]. exact H2.
Qed.

Lemma bytes_ok_set32 m a v : bytes_ok m -> bytes_ok (fst (set32 m a v)).
Proof.
  intros Hm. unfold set32. cbv zeta.
  pose proof (bytes_ok_set16 m a (u16 (Z.land v 0xffff)) Hm) as H1.
  destruct (set16 m a _) as [m1 w1]. cbn [fst] in H1.
  pose proof (bytes_ok_set16 m1 (u32 (a + 2))
                (u16 (Z.land (Z.shiftr v 16) 0xffff)) H1) as H2.
  destruct (set16 m1 _ _) as [m2 w2]. exact H2.
Qed.

Lemma bytes_ok_load_bytes bytes : forall m a,
  bytes_ok m -> bytes_ok (snd (fst (load_bytes m a bytes))).
Proof.
  induction bytes as [| i rest IH]; intros m a Hm; [exact Hm|].
  cbn [load_bytes]. unfold check_illegal.
  destruct (a >=? Z.of_nat (length m)) eqn:E; [exact Hm|].
  pose proof (bytes_ok_set8 m a i Hm) as H1.
  destruct (set8 m a i) as [m1 w1]. cbn [fst] in H1.
  specialize (IH m1 (u32 (a + 1)) H1).
  destruct (load_bytes m1 _ rest) as [[ok m2] w2]. exact IH.
Qed.

End Bytes.

(** ** memory.cpp: loading an image *)

Section LoadFile.
Import memory.

Lemma load_bytes_fits bytes : forall m a,
  0 <= a -> a + Z.of_nat (length bytes) <= Z.of_nat (length m) ->
  Z.of_nat (length m) < 2^32 ->
  load_bytes m a bytes
  = (true,
     take (Z.to_nat a) m ++ map u8 bytes
       ++ drop (Z.to_nat a + length bytes) m,
     []).
Proof.
  induction bytes as [| b rest IH]; intros m a Ha Hfit Hsize.
  - cbn [load_bytes map length app]. rewrite Nat.add_0_r, take_drop.
    reflexivity.
  - cbn [length] in Hfit. cbn [load_bytes].
    unfold check_illegal at 1. rewrite geb_false by lia.
    rewrite set8_in_range by lia.
    rewrite (u32_small (a + 1)) by lia.
    rewrite IH by (rewrite ?length_insert; lia).
    cbn [app map length]. f_equal. f_equal.
    replace (Z.to_nat (a + 1)) with (S (Z.to_nat a)) by lia.
    rewrite (take_S_r _ _ (u8 b))
      by (apply list_lookup_insert_eq; lia).
    rewrite take_insert_ge by lia.
    rewrite drop_insert_lt by lia.
    rewrite <- app_assoc. cbn [app].
    replace (S (Z.to_nat a) + length rest)%nat
      with (Z.to_nat a + S (length rest))%nat by lia.
    reflexivity.
Qed.


(** X12: an image that fits: [load_file] returns true, the image (byte by
    byte) occupies the memory from address 0, the bytes after it are
    untouched, the size is unchanged and nothing is sent to [std::cerr]. *)
Theorem load_file_fits m fname bytes :
  Z.of_nat (length bytes) <= Z.of_nat (length m) ->
  Z.of_nat (length m) < 2^32 ->
  load_file m fname (Some bytes)
  = (true, map u8 bytes ++ drop (length bytes) m, []).
Proof.
  intros Hfit Hsize. unfold load_file.
  rewrite load_bytes_fits by lia. reflexivity.
Qed.

Lemma load_file_fits_witness :
  Z.of_nat (length [0x6f; 0; 0; 0]) <= Z.of_nat (length (new 16)) /\
  Z.of_nat (length (new 16)) < 2^32 /\
  fst (get32 (snd (fst (load_file (new 16) "prog.bin" (Some [0x6f; 0; 0; 0])))) 0)
  = 0x6f.
Proof.
  assert (H1 : Z.of_nat (length [0x6f; 0; 0; 0]) <= Z.of_nat (length (new 16)))
    by (change (Z.of_nat (length (new 16))) with 16; cbn [length]; lia).
  assert (H2 : Z.of_nat (length (new 16)) < 2^32)
    by (change (Z.of_nat (length (new 16))) with 16;
        change (2^32) with 4294967296; lia).
  split; [exact H1|]. split; [exact H2|].
  rewrite (load_file_fits (new 16) "prog.bin" [0x6f; 0; 0; 0] H1 H2).
  reflexivity.
Defined.



End LoadFile.

(** ** rv32i_hart.cpp: the hart after each handler *)

(** [exec_dispatch], keeping what each test of the switch has decided. *)
Ltac exec_dispatch_eq insn :=
  unfold rv32i_hart.exec; cbv zeta;
  repeat match goal with
    | |- context [if rv32i_decode.get_opcode insn =? ?o then _ else _] =>
        destruct (Z.eqb_spec (rv32i_decode.get_opcode insn) o)
    end;
  try match goal with
    | |- context [match rv32i_decode.get_funct3 insn with _ => _ end] =>
        destruct (rv32i_decode.get_funct3 insn)
          as [|[[[?|?|]|[?|?|]|]|[[?|?|]|[?|?|]|]|]|?] eqn:?;
        try destruct (Z.eqb_spec insn 0x00000073);
        try destruct (Z.eqb_spec insn 0x00100073)
    end.

(** The opcodes as numerals, for [lia]. *)
Ltac opcode_numerals :=
  unfold rv32i_decode.opcode_lui, rv32i_decode.opcode_auipc,
    rv32i_decode.opcode_jal, rv32i_decode.opcode_jalr,
    rv32i_decode.opcode_alu_imm, rv32i_decode.opcode_alu_reg,
    rv32i_decode.opcode_load, rv32i_decode.opcode_store,
    rv32i_decode.opcode_btype, rv32i_decode.opcode_system in *.

Section HartAfter.
Import rv32i_decode rv32i_hart.

Implicit Types (insn : Z) (q : bool) (w : world).

Lemma exec_illegal_insn_hart insn q w :
  hart (exec_illegal_insn insn q w) = with_halt true "Illegal instruction" (hart w).
Proof. destruct q; reflexivity. Qed.

Lemma exec_lui_hart insn q w :
  hart (exec_lui insn q w) = wrote_rd insn (get_imm_u insn) (hart w).
Proof. destruct q; reflexivity. Qed.

Lemma exec_auipc_hart insn q w :
  hart (exec_auipc insn q w)
  = wrote_rd insn (i32 (u32 (pc (hart w) + get_imm_u insn))) (hart w).
Proof. destruct q; reflexivity. Qed.

Lemma exec_jal_hart insn q w :
  hart (exec_jal insn q w)
  = with_pc (u32 (pc (hart w) + get_imm_j insn))
      (wrote_rd insn (i32 (u32 (pc (hart w) + 4))) (hart w)).
Proof. destruct q; reflexivity. Qed.

Lemma exec_jalr_hart insn q w :
  hart (exec_jalr insn q w)
  = with_pc (Z.land (u32 (u32 (registerfile.get (regs (hart w)) (get_rs1 insn))
                          + get_imm_i insn)) 0xfffffffe)
      (wrote_rd insn (i32 (u32 (pc (hart w) + 4))) (hart w)).
Proof. destruct q; reflexivity. Qed.

Lemma exec_ecall_hart insn q w :
  hart (exec_ecall insn q w) = with_halt true "ECALL instruction" (hart w).
Proof. destruct q; reflexivity. Qed.

Lemma exec_ebreak_hart insn q w :
  hart (exec_ebreak insn q w) = with_halt true "EBREAK instruction" (hart w).
Proof. destruct q; reflexivity. Qed.

Lemma exec_alu_imm_hart insn q w :
  hart (exec_alu_imm insn q w)
  = match alu_imm_case (get_funct3 insn) (get_funct7 insn) (get_imm_i insn)
            (registerfile.get (regs (hart w)) (get_rs1 insn)) with
    | None => with_halt true "Illegal instruction" (hart w)
    | Some (_, _, result) => wrote_rd insn result (hart w)
    end.
Proof.
  unfold exec_alu_imm. cbv zeta.
  destruct (alu_imm_case _ _ _ _) as [[[mnemonic shown_imm] result]|];
    destruct q; reflexivity.
Qed.

Lemma exec_alu_reg_hart insn q w :
  hart (exec_alu_reg insn q w)
  = match alu_reg_case (get_funct3 insn) (get_funct7 insn)
            (registerfile.get (regs (hart w)) (get_rs1 insn))
            (registerfile.get (regs (hart w)) (get_rs2 insn)) with
    | None => with_halt true "Illegal instruction" (hart w)
    | Some (_, result) => wrote_rd insn result (hart w)
    end.
Proof.
  unfold exec_alu_reg. cbv zeta.
  destruct (alu_reg_case _ _ _ _) as [[mnemonic result]|];
    destruct q; reflexivity.
Qed.

Lemma exec_load_hart insn q w :
  hart (exec_load insn q w)
  = match load_case (mem (hart w)) (get_funct3 insn)
            (u32 (u32 (registerfile.get (regs (hart w)) (get_rs1 insn))
                  + get_imm_i insn)) with
    | None => with_halt true "Illegal instruction" (hart w)
    | Some (_, loaded, _) => wrote_rd insn loaded (hart w)
    end.
Proof.
  unfold exec_load. cbv zeta.
  destruct (load_case _ _ _) as [[[mnemonic loaded] ws]|];
    destruct q; reflexivity.
Qed.

Lemma exec_store_hart insn q w :
  hart (exec_store insn q w)
  = match store_case (mem (hart w)) (get_funct3 insn)
            (u32 (u32 (registerfile.get (regs (hart w)) (get_rs1 insn))
                  + get_imm_s insn))
            (u32 (registerfile.get (regs (hart w)) (get_rs2 insn))) with
    | None => with_halt true "Illegal instruction" (hart w)
    | Some (_, m', _) => with_pc (u32 (pc (hart w) + 4)) (with_mem m' (hart w))
    end.
Proof.
  unfold exec_store. cbv zeta.
  destruct (store_case _ _ _ _) as [[[mnemonic m'] ws]|];
    destruct q; reflexivity.
Qed.

Lemma exec_branch_hart insn q w :
  hart (exec_branch insn q w)
  = match branch_case (get_funct3 insn)
            (registerfile.get (regs (hart w)) (get_rs1 insn))
            (registerfile.get (regs (hart w)) (get_rs2 insn)) with
    | None => with_halt true "Illegal instruction" (hart w)
    | Some (_, take) =>
        with_pc (if take then u32 (pc (hart w) + get_imm_b insn)
                 else u32 (pc (hart w) + 4)) (hart w)
    end.
Proof.
  unfold exec_branch. cbv zeta.
  destruct (branch_case _ _ _) as [[mnemonic [|]]|];
    destruct q; reflexivity.
Qed.

Lemma exec_csrrx_hart insn q mnemonic w :
  hart (exec_csrrx insn q mnemonic w)
  = if Z.shiftr insn 20 >=? 4096 then with_halt true "Illegal instruction" (hart w)
    else
      match csrrx_case mnemonic (get_rs1 insn)
              (csr (hart w) !!! Z.to_nat (Z.shiftr insn 20))
              (u32 (registerfile.get (regs (hart w)) (get_rs1 insn))) with
      | None => with_halt true "Illegal instruction" (hart w)
      | Some new_val => wrote_csr insn new_val (hart w)
      end.
Proof.
  unfold exec_csrrx, wrote_csr. cbv zeta.
  destruct (_ >=? 4096); [destruct q; reflexivity|].
  destruct (csrrx_case _ _ _ _) as [new_val|]; [|destruct q; reflexivity].
  destruct (get_rd insn =? 0); destruct q; reflexivity.
Qed.

Lemma exec_csrrxi_hart insn q mnemonic w :
  hart (exec_csrrxi insn q mnemonic w)
  = if Z.shiftr insn 20 >=? 4096 then with_halt true "Illegal instruction" (hart w)
    else
      match csrrxi_case mnemonic (get_rs1 insn)
              (csr (hart w) !!! Z.to_nat (Z.shiftr insn 20)) with
      | None => with_halt true "Illegal instruction" (hart w)
      | Some new_val => wrote_csr insn new_val (hart w)
      end.
Proof.
  unfold exec_csrrxi, wrote_csr. cbv zeta.
  destruct (_ >=? 4096); [destruct q; reflexivity|].
  destruct (csrrxi_case _ _ _) as [new_val|]; [|destruct q; reflexivity].
  destruct (get_rd insn =? 0); destruct q; reflexivity.
Qed.

End HartAfter.

(** Use the opcode that the switch has fixed. *)
Ltac rewrite_opcode :=
  match goal with
  | H : rv32i_decode.get_opcode _ = _ |- _ => rewrite H
  end.

(** Replace each handler by the hart it leaves, then split on the switch
    of the handler. *)
Ltac hart_after :=
  rewrite ?exec_illegal_insn_hart, ?exec_lui_hart, ?exec_auipc_hart,
    ?exec_jal_hart, ?exec_jalr_hart, ?exec_ecall_hart, ?exec_ebreak_hart,
    ?exec_alu_imm_hart, ?exec_alu_reg_hart, ?exec_load_hart,
    ?exec_store_hart, ?exec_branch_hart, ?exec_csrrx_hart,
    ?exec_csrrxi_hart;
  repeat match goal with
    | |- context [match ?c with Some _ => _ | None => _ end] =>
        let p := fresh "p" in
        destruct c as [p|] eqn:?;
        [repeat match goal with x : (_ * _)%type |- _ => destruct x end|]
    | |- context [if ?b then _ else _] => destruct b eqn:?
    end.

Section Outcome.
Import rv32i_decode rv32i_hart.

Lemma store_case_writes m f3 a v mnemonic m' ws :
  store_case m f3 a v = Some (mnemonic, m', ws) ->
  m' = fst (memory.set8 m a (u8 (Z.land v 0xff)))
  \/ m' = fst (memory.set16 m a (u16 (Z.land v 0xffff)))
  \/ m' = fst (memory.set32 m a v).
Proof.
  unfold store_case. intros H.
  destruct f3 as [|[[?|?|]|[?|?|]|]|?]; try discriminate.
  - destruct (memory.set8 m a _) as [m1 w1]. injection H as _ <- _.
    left. reflexivity.
  - destruct (memory.set32 m a _) as [m1 w1]. injection H as _ <- _.
    right. right. reflexivity.
  - destruct (memory.set16 m a _) as [m1 w1]. injection H as _ <- _.
    right. left. reflexivity.
Qed.

(** The set and clear forms with a zero operand read the CSR only. *)
Lemma csrrx_case_rs1_zero mnemonic old_val rs1_val new_val :
  csrrx_case mnemonic 0 old_val rs1_val = Some new_val ->
  mnemonic <> "csrrw" -> new_val = old_val.
Proof.
  unfold csrrx_case. intros H Hne.
  destruct (String.eqb_spec mnemonic "csrrw"); [contradiction|].
  destruct (String.eqb mnemonic "csrrs");
    [cbn [Z.eqb negb] in H; congruence|].
  destruct (String.eqb mnemonic "csrrc");
    [cbn [Z.eqb negb] in H; congruence | discriminate].
Qed.

Lemma csrrxi_case_zimm_zero mnemonic old_val new_val :
  csrrxi_case mnemonic 0 old_val = Some new_val ->
  mnemonic <> "csrrwi" -> new_val = old_val.
Proof.
  unfold csrrxi_case. intros H Hne.
  destruct (String.eqb_spec mnemonic "csrrwi"); [contradiction|].
  destruct (String.eqb mnemonic "csrrsi");
    [cbn [Z.eqb negb] in H; congruence|].
  destruct (String.eqb mnemonic "csrrci");
    [cbn [Z.eqb negb] in H; congruence | discriminate].
Qed.

(** The hart that [exec] leaves is one of the outcomes. *)
Lemma exec_outcome_holds insn q w :
  exec_outcome insn (hart w) (hart (exec insn q w)).
Proof.
  exec_dispatch_eq insn; hart_after.
  all: try (apply outcome_illegal).
  all: try (apply outcome_ecall; assumption).
  all: try (apply outcome_ebreak; assumption).
  all: try (apply outcome_rd; rewrite_opcode; cbn; tauto).
  all: try (apply outcome_jal; assumption).
  all: try (apply outcome_jalr; assumption).
  all: try (apply (outcome_branch _ _ true); assumption).
  all: try (apply (outcome_branch _ _ false); assumption).
  all: try match goal with
         | H : store_case _ _ _ _ = Some _ |- _ =>
             apply store_case_writes in H;
             destruct H as [-> | [-> | ->]];
             (eapply outcome_store;
              [ assumption
              | first [ left; reflexivity
                      | right; left; reflexivity
                      | right; right; reflexivity ] ])
         end.
  all: apply outcome_csr; [assumption|];
    intros Hrs1 Hf3;
    match goal with
    | H : get_funct3 _ = _ |- _ => rewrite H in Hf3
    end;
    cbn [In] in Hf3; try lia;
    match goal with
    | H : csrrx_case _ _ _ _ = Some _ |- _ =>
        rewrite Hrs1 in H; apply csrrx_case_rs1_zero in H;
        [exact H | discriminate]
    | H : csrrxi_case _ _ _ = Some _ |- _ =>
        rewrite Hrs1 in H; apply csrrxi_case_zimm_zero in H;
        [exact H | discriminate]
    end.
Qed.

End Outcome.

(** ** rv32i_hart.cpp: one instruction, one tick *)

Section Instructions.
Import rv32i_decode rv32i_hart.

Implicit Types (insn : Z) (q : bool) (w : world) (hdr : string).

(** What [tick] does around [exec] when the hart runs and its pc is
    aligned: the counter goes up by one and the word at the pc, read with
    [get32], is executed. *)
Lemma tick_fetches hdr w :
  halt (hart w) = false -> pc (hart w) mod 4 = 0 ->
  exists q w0,
    hart w0 = with_insn_counter (u64 (insn_counter (hart w) + 1)) (hart w) /\
    hart (tick hdr w)
    = hart (exec (fst (memory.get32 (mem (hart w)) (pc (hart w)))) q w0).
Proof.
  intros Hhalt Hpc.
  unfold tick. rewrite Hhalt.
  assert (Hdump : hart (if show_registers (hart w) then dump hdr w else w)
                  = hart w) by (destruct (show_registers (hart w)); reflexivity).
  destruct (if show_registers (hart w) then dump hdr w else w) as [h1 o1 e1].
  cbn [hart] in Hdump |- *. subst h1.
  rewrite land_3_mod_4, Hpc. cbn [Z.eqb negb].
  cbn [count_insn on_hart hart].
  change (mem (with_insn_counter _ (hart w))) with (mem (hart w)).
  change (pc (with_insn_counter _ (hart w))) with (pc (hart w)).
  destruct (memory.get32 (mem (hart w)) (pc (hart w))) as [insn ws].
  cbn [warn hart fst].
  destruct (show_instructions _); eexists _, _;
    (split; [|reflexivity]); reflexivity.
Qed.

(** A tick with a misaligned pc halts and changes nothing else. *)
Lemma tick_misaligned hdr w :
  halt (hart w) = false -> pc (hart w) mod 4 <> 0 ->
  hart (tick hdr w) = with_halt true "PC alignment error" (hart w).
Proof.
  intros Hhalt Hpc.
  unfold tick. rewrite Hhalt.
  assert (Hdump : hart (if show_registers (hart w) then dump hdr w else w)
                  = hart w) by (destruct (show_registers (hart w)); reflexivity).
  destruct (if show_registers (hart w) then dump hdr w else w) as [h1 o1 e1].
  cbn [hart] in Hdump |- *. subst h1.
  rewrite land_3_mod_4, (proj2 (Z.eqb_neq _ 0) Hpc). reflexivity.
Qed.

Lemma exec_halts insn q w :
  halt (hart w) = false ->
  let h' := hart (exec insn q w) in
  (halt h' = false /\ halt_reason h' = halt_reason (hart w)) \/
  (In (halt_reason h')
      ["Illegal instruction"; "ECALL instruction"; "EBREAK instruction"] /\
   h' = with_halt true (halt_reason h') (hart w)).
Proof.
  intros Hhalt. cbv zeta.
  destruct (exec_outcome_holds insn q w);
    try (right; split; [cbn; tauto | reflexivity]);
    left; split; try exact Hhalt; try reflexivity.
  all: unfold wrote_csr; cbv zeta; destruct (get_rd insn =? 0);
    try exact Hhalt; reflexivity.
Qed.

Lemma exec_counter insn q w :
  insn_counter (hart (exec insn q w)) = insn_counter (hart w).
Proof.
  destruct (exec_outcome_holds insn q w); try reflexivity.
  unfold wrote_csr; cbv zeta; destruct (get_rd insn =? 0); reflexivity.
Qed.

(** X14: the stores an instruction can write, by opcode: only a store
    instruction changes the memory, a store or a branch changes no
    register, only a SYSTEM instruction changes a CSR, and no instruction
    changes the instruction counter. *)
Theorem exec_write_sets insn q w :
  let h := hart w in
  let h' := hart (exec insn q w) in
  (get_opcode insn <> opcode_store -> mem h' = mem h) /\
  (get_opcode insn = opcode_store \/ get_opcode insn = opcode_btype ->
   regs h' = regs h) /\
  (get_opcode insn <> opcode_system -> csr h' = csr h) /\
  insn_counter h' = insn_counter h.
Proof.
  cbv zeta.
  destruct (exec_outcome_holds insn q w)
    as [ | | | v Hop | Hop | Hop | m' a v Hop Hm | take Hop | nv Hop Hnv].
  all: repeat apply conj; intros; try reflexivity.
  all: try (cbn [In] in Hop; exfalso; opcode_numerals; lia).
  all: try (exfalso; opcode_numerals; lia).
  all: unfold wrote_csr; cbv zeta; destruct (get_rd insn =? 0); reflexivity.
Qed.

(** X15: a tick of a running hart either leaves it running with its halt
    reason untouched, or halts it for one of four reasons; the tick that
    halts the hart changes neither the registers, the memory, the CSRs
    nor the pc. *)
Theorem tick_halt_reasons hdr w :
  halt (hart w) = false ->
  let t := hart (tick hdr w) in
  (halt t = false /\ halt_reason t = halt_reason (hart w)) \/
  (halt t = true /\
   In (halt_reason t)
      ["PC alignment error"; "Illegal instruction"; "ECALL instruction";
       "EBREAK instruction"] /\
   regs t = regs (hart w) /\ mem t = mem (hart w) /\
   csr t = csr (hart w) /\ pc t = pc (hart w)).
Proof.
  intros Hhalt. cbv zeta.
  destruct (Z.eq_dec (pc (hart w) mod 4) 0) as [Hpc | Hpc].
  - destruct (tick_fetches hdr w Hhalt Hpc) as (q & w0 & Hw0 & ->).
    assert (Hhalt0 : halt (hart w0) = false) by (rewrite Hw0; exact Hhalt).
    destruct (exec_halts (fst (memory.get32 (mem (hart w)) (pc (hart w))))
                q w0 Hhalt0) as [[H1 H2] | [Hin Heq]].
    + left. rewrite H1, H2, Hw0. split; reflexivity.
    + right. rewrite Heq, Hw0.
      repeat apply conj; try reflexivity.
      cbn [halt_reason with_halt] in *.
      cbn [In] in Hin |- *. tauto.
  - right. rewrite (tick_misaligned hdr w Hhalt Hpc).
    repeat apply conj; try reflexivity. cbn. tauto.
Qed.

Lemma tick_halt_reasons_witness :
  let w := mk_world (new (memory.new 0x100)) "" "" in
  halt (hart w) = false /\
  halt_reason (hart (tick "" w)) = "Illegal instruction".
Proof.
  cbv zeta. split; [reflexivity|].
  destruct (tick_halt_reasons "" (mk_world (new (memory.new 0x100)) "" "")
              eq_refl) as [[H _] | _].
  - vm_compute in H. discriminate H.
  - vm_compute. reflexivity.
Defined.

(** X16: a tick of a running hart whose pc is aligned counts one
    instruction (modulo 2^64), whatever the fetched word is: an illegal
    instruction, an ECALL and an EBREAK are counted as well. *)
Theorem tick_counts_one hdr w :
  halt (hart w) = false -> pc (hart w) mod 4 = 0 ->
  insn_counter (hart (tick hdr w)) = u64 (insn_counter (hart w) + 1).
Proof.
  intros Hhalt Hpc.
  destruct (tick_fetches hdr w Hhalt Hpc) as (q & w0 & Hw0 & ->).
  rewrite exec_counter, Hw0. reflexivity.
Qed.

Lemma tick_counts_one_witness :
  let w := mk_world (new (memory.new 0x100)) "" "" in
  halt (hart w) = false /\ pc (hart w) mod 4 = 0 /\
  halt (hart (tick "" w)) = true /\
  insn_counter (hart (tick "" w)) = 1.
Proof.
  cbv zeta. split; [reflexivity|]. split; [reflexivity|].
  split; [vm_compute; reflexivity|].
  rewrite (tick_counts_one "" (mk_world (new (memory.new 0x100)) "" "")
             eq_refl eq_refl).
  reflexivity.
Defined.

(** X17: where the pc goes.  After a tick that fetched [insn] and left the
    hart running, the pc is [pc + 4] for every instruction that is not a
    jump or a branch, [pc + imm_j] for JAL, [(rs1 + imm_i) & ~1] for JALR
    (rs1 read before rd is written) and one of [pc + imm_b] and [pc + 4]
    for a branch, all modulo 2^32. *)
Theorem tick_next_pc hdr w :
  halt (hart w) = false -> pc (hart w) mod 4 = 0 ->
  halt (hart (tick hdr w)) = false ->
  let insn := fst (memory.get32 (mem (hart w)) (pc (hart w))) in
  let p := pc (hart w) in
  let p' := pc (hart (tick hdr w)) in
  if get_opcode insn =? opcode_jal then p' = u32 (p + get_imm_j insn)
  else if get_opcode insn =? opcode_jalr
  then p' = Z.land (u32 (u32 (registerfile.get (regs (hart w)) (get_rs1 insn))
                         + get_imm_i insn)) 0xfffffffe
  else if get_opcode insn =? opcode_btype
  then p' = u32 (p + get_imm_b insn) \/ p' = u32 (p + 4)
  else p' = u32 (p + 4).
Proof.
  intros Hhalt Hpc Hrun. cbv zeta.
  destruct (tick_fetches hdr w Hhalt Hpc) as (q & w0 & Hw0 & Ht).
  rewrite Ht in Hrun |- *.
  set (insn := fst (memory.get32 (mem (hart w)) (pc (hart w)))) in *.
  assert (Hp : pc (hart w0) = pc (hart w)) by (rewrite Hw0; reflexivity).
  assert (Hr : regs (hart w0) = regs (hart w)) by (rewrite Hw0; reflexivity).
  rewrite <- Hp, <- Hr.
  destruct (exec_outcome_holds insn q w0)
    as [ | | | v Hop | Hop | Hop | m' a v Hop Hm | take Hop | nv Hop Hnv];
    try discriminate Hrun.
  - assert (Hj : (get_opcode insn =? opcode_jal) = false)
      by (apply Z.eqb_neq; cbn [In] in Hop; opcode_numerals; lia).
    assert (Hjr : (get_opcode insn =? opcode_jalr) = false)
      by (apply Z.eqb_neq; cbn [In] in Hop; opcode_numerals; lia).
    assert (Hb : (get_opcode insn =? opcode_btype) = false)
      by (apply Z.eqb_neq; cbn [In] in Hop; opcode_numerals; lia).
    rewrite Hj, Hjr, Hb. reflexivity.
  - rewrite Hop. reflexivity.
  - rewrite Hop. reflexivity.
  - rewrite Hop. reflexivity.
  - rewrite Hop. cbn [Z.eqb Pos.eqb opcode_btype opcode_jal opcode_jalr].
    destruct take; [left | right]; reflexivity.
  - rewrite Hop. cbn [Z.eqb Pos.eqb opcode_system opcode_jal opcode_jalr
                        opcode_btype].
    unfold wrote_csr. cbv zeta. reflexivity.
Qed.

Lemma tick_next_pc_witness :
  let w := boot jal_self_image false false in
  halt (hart w) = false /\ pc (hart w) mod 4 = 0 /\
  halt (hart (tick "" w)) = false /\
  pc (hart (tick "" w)) = u32 (pc (hart w) + get_imm_j 0x0000006f).
Proof.
  cbv zeta.
  assert (H1 : halt (hart (boot jal_self_image false false)) = false)
    by reflexivity.
  assert (H2 : pc (hart (boot jal_self_image false false)) mod 4 = 0)
    by reflexivity.
  assert (H3 : halt (hart (tick "" (boot jal_self_image false false)))
               = false) by (vm_compute; reflexivity).
  split; [exact H1|]. split; [exact H2|]. split; [exact H3|].
  pose proof (tick_next_pc "" (boot jal_self_image false false) H1 H2 H3)
    as H.
  cbv zeta in H.
  change (fst (memory.get32 (mem (hart (boot jal_self_image false false)))
                 (pc (hart (boot jal_self_image false false)))))
    with 0x0000006f in H.
  exact H.
Defined.

End Instructions.

(** ** Invariants of a run *)

Section Invariants.
Import rv32i_decode rv32i_hart.

Implicit Types (insn : Z) (q : bool) (w : world) (hdr : string) (n : N).

Lemma tick_halted hdr w : halt (hart w) = true -> tick hdr w = w.
Proof. intros H. unfold tick. rewrite H. reflexivity. Qed.

Lemma u32_even x : x mod 2 = 0 -> u32 x mod 2 = 0.
Proof. unfold u32. intros H. solve_pow. Qed.

Lemma clear_bit_0_even x : Z.land x 0xfffffffe mod 2 = 0.
Proof.
  rewrite (mask_const x 0xfffffffe 1 31) by (reflexivity || lia).
  apply Z.mod_mul. discriminate.
Qed.

Lemma exec_pc_even insn q w :
  pc (hart w) mod 2 = 0 -> pc (hart (exec insn q w)) mod 2 = 0.
Proof.
  intros Hpc.
  pose proof (get_imm_j_even insn) as Hj.
  pose proof (get_imm_b_even insn) as Hb.
  destruct (exec_outcome_holds insn q w)
    as [ | | | v Hop | Hop | Hop | m' a v Hop Hm | [|] Hop | nv Hop Hnv];
    try exact Hpc;
    try (unfold wrote_csr; cbv zeta; destruct (get_rd insn =? 0));
    cbn [pc wrote_rd with_pc with_mem with_regs with_csr];
    try apply clear_bit_0_even;
    apply u32_even; Z.div_mod_to_equations; lia.
Qed.

Lemma tick_pc_even hdr w :
  pc (hart w) mod 2 = 0 -> pc (hart (tick hdr w)) mod 2 = 0.
Proof.
  intros Hpc.
  destruct (halt (hart w)) eqn:Hhalt; [rewrite tick_halted; assumption|].
  destruct (Z.eq_dec (pc (hart w) mod 4) 0) as [Ha | Ha].
  - destruct (tick_fetches hdr w Hhalt Ha) as (q & w0 & Hw0 & ->).
    apply exec_pc_even. rewrite Hw0. exact Hpc.
  - rewrite (tick_misaligned hdr w Hhalt Ha). exact Hpc.
Qed.

(** X18: the pc stays even.  From a state whose pc is even (the reset
    leaves 0), every tick leaves an even pc: jump and branch offsets are
    even and JALR clears bit 0, so the only misalignment a program can
    reach is a pc that is 2 modulo 4. *)
Theorem pc_stays_even n hdr w :
  pc (hart w) mod 2 = 0 -> pc (hart (ticks n hdr w)) mod 2 = 0.
Proof.
  intros Hpc. unfold ticks.
  induction n as [| n IH] using N.peano_ind; [exact Hpc|].
  rewrite N.iter_succ. apply tick_pc_even, IH.
Qed.

Lemma pc_stays_even_witness :
  let w := boot jal_self_image false false in
  pc (hart w) mod 2 = 0 /\ pc (hart (ticks 1000 "" w)) mod 2 = 0.
Proof.
  cbv zeta.
  assert (H : pc (hart (boot jal_self_image false false)) mod 2 = 0)
    by reflexivity.
  split; [exact H|].
  apply (pc_stays_even 1000 "" (boot jal_self_image false false) H).
Defined.

Lemma exec_bytes insn q w :
  bytes_ok (mem (hart w)) -> bytes_ok (mem (hart (exec insn q w))).
Proof.
  intros Hm.
  destruct (exec_outcome_holds insn q w)
    as [ | | | v Hop | Hop | Hop | m' a v Hop H | take Hop | nv Hop Hnv];
    try exact Hm.
  - destruct H as [-> | [-> | ->]]; cbn [mem with_pc with_mem];
      [apply bytes_ok_set8 | apply bytes_ok_set16 | apply bytes_ok_set32];
      exact Hm.
  - unfold wrote_csr; cbv zeta; destruct (get_rd insn =? 0); exact Hm.
Qed.

Lemma tick_bytes hdr w :
  bytes_ok (mem (hart w)) -> bytes_ok (mem (hart (tick hdr w))).
Proof.
  intros Hm.
  destruct (halt (hart w)) eqn:Hhalt; [rewrite tick_halted; assumption|].
  destruct (Z.eq_dec (pc (hart w) mod 4) 0) as [Ha | Ha].
  - destruct (tick_fetches hdr w Hhalt Ha) as (q & w0 & Hw0 & ->).
    apply exec_bytes. rewrite Hw0. exact Hm.
  - rewrite (tick_misaligned hdr w Hhalt Ha). exact Hm.
Qed.

(** X19: every cell of the memory stays a byte.  A fresh memory holds
    bytes; on a memory of bytes, [set8], [set16], [set32] and [load_file]
    leave a memory of bytes whatever value they are given, and so does
    any number of ticks of a hart bound to it. *)
Theorem memory_stays_bytes m :
  bytes_ok m ->
  (forall a v, bytes_ok (fst (memory.set8 m a v)) /\
               bytes_ok (fst (memory.set16 m a v)) /\
               bytes_ok (fst (memory.set32 m a v))) /\
  (forall fname contents,
      bytes_ok (snd (fst (memory.load_file m fname contents)))) /\
  (forall n hdr w, mem (hart w) = m -> bytes_ok (mem (hart (ticks n hdr w)))).
Proof.
  intros Hm. repeat apply conj.
  - intros a v. repeat apply conj;
      [apply bytes_ok_set8 | apply bytes_ok_set16 | apply bytes_ok_set32];
      exact Hm.
  - intros fname [bytes|]; [apply bytes_ok_load_bytes, Hm | exact Hm].
  - intros n hdr w <-. unfold ticks.
    induction n as [| n IH] using N.peano_ind; [exact Hm|].
    rewrite N.iter_succ. apply tick_bytes, IH.
Qed.

Lemma memory_stays_bytes_witness :
  bytes_ok (memory.new 0x100) /\
  bytes_ok (fst (memory.set32 (memory.new 0x100) 0xfe 0x12345678)).
Proof.
  pose proof (bytes_ok_new 0x100) as H.
  split; [exact H|].
  destruct (memory_stays_bytes (memory.new 0x100) H) as (Hset & _).
  destruct (Hset 0xfe 0x12345678) as (_ & _ & H32). exact H32.
Defined.

(** X20: the CSR set and clear instructions with a zero operand (csrrs and
    csrrc with rs1 = x0, csrrsi and csrrci with zimm = 0) only read: rd
    receives the CSR, the pc moves on by 4, and the CSRs, the memory and
    the rest of the hart are as before. *)
Theorem csr_zero_operand_reads_only insn q w :
  0 <= insn < 2^32 ->
  length (csr (hart w)) = 4096%nat ->
  get_opcode insn = opcode_system ->
  In (get_funct3 insn) [2; 3; 6; 7] ->
  get_rs1 insn = 0 ->
  hart (exec insn q w)
  = wrote_rd insn (i32 (csr (hart w) !!! Z.to_nat (Z.shiftr insn 20)))
      (hart w).
Proof.
  intros Hinsn Hlen Hop Hf3 Hrs1.
  assert (Haddr : (Z.shiftr insn 20 >=? 4096) = false).
  { rewrite Z.shiftr_div_pow2 by lia. rewrite Z.geb_leb.
    apply Z.leb_gt. solve_pow. }
  assert (Hcsr : forall (c : list Z) a,
             (a < length c)%nat -> <[a := c !!! a]> c = c).
  { intros c a Ha. apply list_insert_id.
    apply list_lookup_lookup_total_lt. exact Ha. }
  assert (Hlt : (Z.to_nat (Z.shiftr insn 20) < length (csr (hart w)))%nat).
  { rewrite Hlen. rewrite Z.shiftr_div_pow2 by lia.
    assert (insn / 2^20 < 4096) by solve_pow.
    assert (0 <= insn / 2^20) by solve_pow. lia. }
  assert (Hgoal : forall nv,
             nv = csr (hart w) !!! Z.to_nat (Z.shiftr insn 20) ->
             wrote_csr insn nv (hart w)
             = wrote_rd insn
                 (i32 (csr (hart w) !!! Z.to_nat (Z.shiftr insn 20))) (hart w)).
  { intros nv ->. unfold wrote_csr, wrote_rd. cbv zeta.
    rewrite Hcsr by exact Hlt.
    destruct (Z.eqb_spec (get_rd insn) 0) as [E | E].
    - rewrite E. destruct (hart w); reflexivity.
    - destruct (hart w); reflexivity. }
  unfold exec. cbv zeta. rewrite Hop.
  cbn [Z.eqb Pos.eqb opcode_system opcode_lui opcode_auipc opcode_jal
         opcode_jalr opcode_alu_imm opcode_alu_reg opcode_load opcode_store
         opcode_btype].
  cbn [In] in Hf3.
  destruct Hf3 as [<- | [<- | [<- | [<- | []]]]];
    rewrite ?exec_csrrx_hart, ?exec_csrrxi_hart, Haddr, Hrs1;
    apply Hgoal; reflexivity.
Qed.

Lemma csr_zero_operand_reads_only_witness :
  let w := mk_world (new (memory.new 0x100)) "" "" in
  let insn := 0xf1402573 in
  0 <= insn < 2^32 /\ length (csr (hart w)) = 4096%nat /\
  get_opcode insn = opcode_system /\ In (get_funct3 insn) [2; 3; 6; 7] /\
  get_rs1 insn = 0 /\
  csr (hart (exec insn false w)) = csr (hart w).
Proof.
  cbv zeta.
  assert (H1 : 0 <= 0xf1402573 < 2^32)
    by (change (2^32) with 4294967296; lia).
  assert (H2 : length (csr (hart (mk_world (new (memory.new 0x100)) "" "")))
               = 4096%nat) by reflexivity.
  assert (H3 : get_opcode 0xf1402573 = opcode_system) by reflexivity.
  assert (H4 : In (get_funct3 0xf1402573) [2; 3; 6; 7])
    by (left; reflexivity).
  assert (H5 : get_rs1 0xf1402573 = 0) by reflexivity.
  repeat (split; [assumption|]).
  rewrite (csr_zero_operand_reads_only 0xf1402573 false _ H1 H2 H3 H4 H5).
  reflexivity.
Defined.

(** X21: [reset] after any number of ticks brings back the state the
    constructor leaves (registers, pc, counter, hart id, CSRs, halt flag
    and reason); it keeps the memory as the program left it and the two
    trace flags as they were set. *)
Theorem reset_restores_initial_state n hdr w :
  length (regs (hart w)) = 32%nat ->
  length (csr (hart w)) = 4096%nat ->
  let h := hart (ticks n hdr w) in
  reset h
  = set_show_registers (show_registers (hart w))
      (set_show_instructions (show_instructions (hart w)) (new (mem h))).
Proof.
  intros Hr Hc. cbv zeta.
  destruct (ticks_frame n hdr w) as (F1 & F2 & _ & _ & F5 & F6 & _).
  rewrite <- F1, <- F2. rewrite <- F5 in Hc. rewrite <- F6 in Hr.
  destruct (hart (ticks n hdr w)) as [r m h hr si sr c p id cs].
  cbn [regs csr] in Hr, Hc.
  unfold reset, new, set_show_registers, set_show_instructions.
  cbn [regs mem halt halt_reason show_instructions show_registers
         insn_counter pc mhartid csr].
  rewrite Hc. f_equal.
  destruct r as [| x rest]; [discriminate Hr|].
  cbn [registerfile.reset]. injection Hr as ->. reflexivity.
Qed.

Lemma reset_restores_initial_state_witness :
  let w := boot jal_self_image true false in
  length (regs (hart w)) = 32%nat /\ length (csr (hart w)) = 4096%nat /\
  pc (reset (hart (ticks 7 "" w))) = 0.
Proof.
  cbv zeta.
  assert (H1 : length (regs (hart (boot jal_self_image true false)))
               = 32%nat) by reflexivity.
  assert (H2 : length (csr (hart (boot jal_self_image true false)))
               = 4096%nat) by reflexivity.
  split; [exact H1|]. split; [exact H2|].
  rewrite (reset_restores_initial_state 7 "" _ H1 H2). reflexivity.
Defined.

End Invariants.

(** ** registerfile.cpp: reads after writes *)

Section RegisterReads.
Import registerfile.

Implicit Types (rf : registerfile) (r v : Z).

(** X22: reading register [r'] after [set rf r v]: the value written when
    [r'] names the register written and that register exists and is not
    x0, the old reading otherwise.  A write to x0 or to an index beyond
    the file changes no reading; indices are taken modulo 2^32. *)
Theorem get_after_set rf r r' v :
  get (set rf r v) r'
  = if (u32 r' =? u32 r) && negb (u32 r =? 0)
       && (u32 r <? Z.of_nat (length rf))
    then v else get rf r'.
Proof.
  pose proof (u32_range r) as Hr. pose proof (u32_range r') as Hr'.
  unfold get, set. cbv zeta.
  destruct (Z.eqb_spec (u32 r) 0) as [E0 | E0]; cbn [orb negb].
  { rewrite andb_false_r. reflexivity. }
  destruct (Z.ltb_spec (u32 r) (Z.of_nat (length rf))) as [Hlt | Hge].
  - rewrite (geb_false (u32 r)) by lia. rewrite length_insert, andb_true_r.
    destruct (Z.eqb_spec (u32 r') (u32 r)) as [E | E].
    + rewrite E. rewrite (proj2 (Z.eqb_neq _ 0) E0).
      rewrite (geb_false (u32 r)) by lia.
      cbn [orb]. apply list_lookup_total_insert_eq. lia.
    + destruct ((u32 r' =? 0) || _); [reflexivity|].
      apply list_lookup_total_insert_ne. lia.
  - rewrite (geb_true' (u32 r)) by lia. rewrite andb_false_r. reflexivity.
Qed.

(** X23: after [reset], x0 reads 0 and every other register of the file
    reads [0xf0f0f0f0] (as a signed word); an index beyond the file
    reads 0. *)
Theorem get_after_reset rf r :
  get (reset rf) r
  = if (u32 r =? 0) || (u32 r >=? Z.of_nat (length rf)) then 0
    else i32 0xf0f0f0f0.
Proof.
  pose proof (u32_range r) as Hr.
  unfold get. cbv zeta. rewrite reset_length.
  destruct (Z.eqb_spec (u32 r) 0) as [E0 | E0]; cbn [orb]; [reflexivity|].
  destruct (u32 r >=? Z.of_nat (length rf)) eqn:E; [reflexivity|].
  rewrite Z.geb_leb in E. apply Z.leb_gt in E.
  destruct rf as [| x rest]; [cbn [length] in E; lia|].
  cbn [reset]. cbn [length] in E.
  destruct (Z.to_nat (u32 r)) as [| k] eqn:Ek; [lia|].
  change ((0 :: replicate (length rest) (i32 0xf0f0f0f0)) !!! S k)
    with (replicate (length rest) (i32 0xf0f0f0f0) !!! k).
  apply lookup_total_replicate_2. lia.
Qed.

End RegisterReads.

(** ** cpu_single_hart.cpp: a limited run ends *)

Section RunEnds.
Import rv32i_hart cpu_single_hart.

Implicit Types (w : world) (fuel : nat) (limit : Z).

Lemma tick_counter_cases hdr w :
  halt (hart w) = false ->
  (halt (hart (tick hdr w)) = true /\
   insn_counter (hart (tick hdr w)) = insn_counter (hart w)) \/
  insn_counter (hart (tick hdr w)) = u64 (insn_counter (hart w) + 1).
Proof.
  intros Hhalt.
  destruct (Z.eq_dec (pc (hart w) mod 4) 0) as [Ha | Ha].
  - right. destruct (tick_fetches hdr w Hhalt Ha) as (q & w0 & Hw0 & ->).
    rewrite exec_counter, Hw0. reflexivity.
  - left. rewrite (tick_misaligned hdr w Hhalt Ha). split; reflexivity.
Qed.

Lemma run_loop_ends limit : forall fuel w,
  0 < limit < 2^64 ->
  0 <= insn_counter (hart w) <= limit ->
  (Z.to_nat (limit - insn_counter (hart w)) <= fuel)%nat ->
  exists w',
    run_loop fuel limit w = Some w' /\
    0 <= insn_counter (hart w') <= limit /\
    (halt (hart w') = false -> insn_counter (hart w') = limit).
Proof.
  intros fuel. induction fuel as [| fuel IH]; intros w Hlimit Hc Hfuel.
  - exists w. cbn [run_loop].
    rewrite (proj2 (Z.eqb_neq limit 0)) by lia.
    rewrite (proj2 (Z.ltb_ge _ _)) by lia.
    rewrite andb_false_r.
    split; [reflexivity|]. split; [lia|]. intros _. lia.
  - cbn [run_loop].
    rewrite (proj2 (Z.eqb_neq limit 0)) by lia.
    destruct (halt (hart w)) eqn:Hhalt; cbn [negb andb].
    { exists w. split; [reflexivity|]. split; [lia|].
      rewrite Hhalt. discriminate. }
    destruct (Z.ltb_spec (insn_counter (hart w)) limit) as [Hlt | Hge].
    + destruct (tick_counter_cases "" w Hhalt) as [[Hh Hsame] | Hnext].
      * exists (tick "" w). destruct fuel; cbn [run_loop];
          rewrite (proj2 (Z.eqb_neq limit 0)) by lia;
          rewrite Hh; cbn [negb andb];
          (split; [reflexivity|]; split; [lia | discriminate]).
      * assert (Hu : u64 (insn_counter (hart w) + 1)
                     = insn_counter (hart w) + 1).
        { unfold u64. apply Z.mod_small. lia. }
        apply IH; [exact Hlimit | rewrite Hnext, Hu; lia |].
        rewrite Hnext, Hu. lia.
    + exists w. split; [reflexivity|]. split; [lia|]. intros _. lia.
Qed.

(** X24: a run with a nonzero instruction limit ends.  Started with the
    counter at or below the limit, the loop of [run] leaves after at most
    [limit - counter] ticks; the run then returns with a counter that is
    at most the limit, and equal to the limit when the hart has not
    halted. *)
Theorem run_with_limit_ends fuel limit w :
  0 < limit < 2^64 ->
  0 <= insn_counter (hart w) <= limit ->
  (Z.to_nat (limit - insn_counter (hart w)) <= fuel)%nat ->
  exists w',
    run fuel limit w = Some (run_report w') /\
    0 <= insn_counter (hart w') <= limit /\
    (halt (hart w') = false -> insn_counter (hart w') = limit).
Proof.
  intros Hlimit Hc Hfuel. unfold run. cbv zeta.
  destruct (run_loop_ends limit fuel (run_init w) Hlimit Hc Hfuel)
    as (w' & Hrun & Hw').
  exists w'. rewrite Hrun. split; [reflexivity | exact Hw'].
Qed.

Lemma run_with_limit_ends_witness :
  0 < 5 < 2^64 /\
  0 <= insn_counter (hart (boot jal_self_image false false)) <= 5 /\
  exists w', run 5 5 (boot jal_self_image false false) = Some (run_report w').
Proof.
  assert (H1 : 0 < 5 < 2^64)
    by (change (2^64) with 18446744073709551616; lia).
  assert (H2 : 0 <= insn_counter (hart (boot jal_self_image false false)) <= 5)
    by (change (insn_counter (hart (boot jal_self_image false false))) with 0;
        lia).
  assert (H3 : (Z.to_nat
                  (5 - insn_counter (hart (boot jal_self_image false false)))
                <= 5)%nat)
    by (change (insn_counter (hart (boot jal_self_image false false))) with 0;
        change (Z.to_nat (5 - 0)) with 5%nat; lia).
  split; [exact H1|]. split; [exact H2|].
  destruct (run_with_limit_ends 5 5 (boot jal_self_image false false)
              H1 H2 H3) as (w' & Hrun & _).
  exists w'. exact Hrun.
Defined.

End RunEnds.

(** ** Text *)

Section Text.

Lemma append_assoc (a b c : string) : (a +:+ b) +:+ c = a +:+ b +:+ c.
Proof.
  induction a as [| x a IH]; [reflexivity|].
  change (String x ((a +:+ b) +:+ c) = String x (a +:+ b +:+ c)).
  f_equal. exact IH.
Qed.

End Text.

(** ** The instruction trace and the disassembler *)

(** The tests of [decode] once the opcode is known. *)
Ltac decode_opcode H :=
  unfold rv32i_decode.decode; cbv zeta; rewrite H;
  cbn [Z.eqb Pos.eqb rv32i_decode.opcode_system rv32i_decode.opcode_lui
         rv32i_decode.opcode_auipc rv32i_decode.opcode_jal
         rv32i_decode.opcode_jalr rv32i_decode.opcode_alu_imm
         rv32i_decode.opcode_alu_reg rv32i_decode.opcode_load
         rv32i_decode.opcode_store rv32i_decode.opcode_btype].

(** Close a goal of the form [cout _ = cout w +:+ pad _ +:+ ?comment]. *)
Ltac shown_with E :=
  right; eexists;
  cbn [rv32i_hart.trace_insn trace print regs_set advance_pc on_hart cout
         hart warn];
  rewrite E, !append_assoc; reflexivity.

Section TraceText.
Import rv32i_decode rv32i_hart.

Implicit Types (insn : Z) (w : world).

Lemma refused_shows insn w : shows_disassembly insn w (exec_illegal_insn insn true w).
Proof. left. split; reflexivity. Qed.

Lemma exec_lui_shows insn w :
  get_opcode insn = opcode_lui -> shows_disassembly insn w (exec_lui insn true w).
Proof.
  intros Hop.
  assert (E : decode (pc (hart w)) insn = render_lui insn)
    by (decode_opcode Hop; reflexivity).
  unfold exec_lui. cbv zeta. shown_with E.
Qed.

Lemma exec_auipc_shows insn w :
  get_opcode insn = opcode_auipc ->
  shows_disassembly insn w (exec_auipc insn true w).
Proof.
  intros Hop.
  assert (E : decode (pc (hart w)) insn = render_auipc insn)
    by (decode_opcode Hop; reflexivity).
  unfold exec_auipc. cbv zeta. shown_with E.
Qed.

Lemma exec_jal_shows insn w :
  get_opcode insn = opcode_jal ->
  shows_disassembly insn w (exec_jal insn true w).
Proof.
  intros Hop.
  assert (E : decode (pc (hart w)) insn = render_jal (pc (hart w)) insn)
    by (decode_opcode Hop; reflexivity).
  unfold exec_jal. cbv zeta. shown_with E.
Qed.

Lemma exec_jalr_shows insn w :
  get_opcode insn = opcode_jalr ->
  shows_disassembly insn w (exec_jalr insn true w).
Proof.
  intros Hop.
  assert (E : decode (pc (hart w)) insn = render_jalr insn)
    by (decode_opcode Hop; reflexivity).
  unfold exec_jalr. cbv zeta. shown_with E.
Qed.

Lemma exec_ecall_shows insn w :
  get_opcode insn = opcode_system -> insn = 0x00000073 ->
  shows_disassembly insn w (exec_ecall insn true w).
Proof.
  intros Hop Hinsn.
  assert (E : decode (pc (hart w)) insn = "ecall") by (subst insn; reflexivity).
  unfold exec_ecall. cbv zeta. shown_with E.
Qed.

Lemma exec_ebreak_shows insn w :
  get_opcode insn = opcode_system -> insn = 0x00100073 ->
  shows_disassembly insn w (exec_ebreak insn true w).
Proof.
  intros Hop Hinsn.
  assert (E : decode (pc (hart w)) insn = "ebreak") by (subst insn; reflexivity).
  unfold exec_ebreak. cbv zeta. shown_with E.
Qed.

(** [decode] and the switch of each handler choose the same renderer. *)
Lemma decode_alu_imm addr insn v mnemonic shown result :
  get_opcode insn = opcode_alu_imm ->
  alu_imm_case (get_funct3 insn) (get_funct7 insn) (get_imm_i insn) v
  = Some (mnemonic, shown, result) ->
  decode addr insn = render_itype_alu insn mnemonic shown.
Proof.
  intros Hop H. decode_opcode Hop. unfold alu_imm_case in H.
  destruct (get_funct3 insn) as [|[[[?|?|]|[?|?|]|]|[[?|?|]|[?|?|]|]|]|?];
    try discriminate H;
    try (injection H as <- <- <-; reflexivity).
  - destruct (get_funct7 insn =? 0); [|destruct (get_funct7 insn =? 32)];
      try discriminate H; injection H as <- <- <-; reflexivity.
  - destruct (get_funct7 insn =? 0); cbn [negb] in H;
      try discriminate H; injection H as <- <- <-; reflexivity.
Qed.

Lemma decode_alu_reg addr insn v1 v2 mnemonic result :
  get_opcode insn = opcode_alu_reg ->
  alu_reg_case (get_funct3 insn) (get_funct7 insn) v1 v2
  = Some (mnemonic, result) ->
  decode addr insn = render_rtype insn mnemonic.
Proof.
  intros Hop H. decode_opcode Hop. unfold alu_reg_case in H.
  destruct (get_funct3 insn) as [|[[[?|?|]|[?|?|]|]|[[?|?|]|[?|?|]|]|]|?];
    try discriminate H;
    destruct (get_funct7 insn =? 0); cbn [negb] in H;
    try destruct (get_funct7 insn =? 32);
    try discriminate H; injection H as <- <-; reflexivity.
Qed.

Lemma decode_load addr insn m a mnemonic loaded ws :
  get_opcode insn = opcode_load ->
  load_case m (get_funct3 insn) a = Some (mnemonic, loaded, ws) ->
  decode addr insn = render_itype_load insn mnemonic.
Proof.
  intros Hop H. decode_opcode Hop. unfold load_case in H.
  destruct (get_funct3 insn) as [|[[[?|?|]|[?|?|]|]|[[?|?|]|[?|?|]|]|]|?];
    try discriminate H;
    repeat match type of H with
      | context [let '(_, _) := ?c in _] => destruct c
      end;
    injection H as <- <- <-; reflexivity.
Qed.

Lemma decode_store addr insn m a v mnemonic m' ws :
  get_opcode insn = opcode_store ->
  store_case m (get_funct3 insn) a v = Some (mnemonic, m', ws) ->
  decode addr insn = render_stype insn mnemonic.
Proof.
  intros Hop H. decode_opcode Hop. unfold store_case in H.
  destruct (get_funct3 insn) as [|[[[?|?|]|[?|?|]|]|[[?|?|]|[?|?|]|]|]|?];
    try discriminate H;
    repeat match type of H with
      | context [let '(_, _) := ?c in _] => destruct c
      end;
    injection H as <- <- <-; reflexivity.
Qed.

Lemma decode_branch addr insn v1 v2 mnemonic take :
  get_opcode insn = opcode_btype ->
  branch_case (get_funct3 insn) v1 v2 = Some (mnemonic, take) ->
  decode addr insn = render_btype addr insn mnemonic.
Proof.
  intros Hop H. decode_opcode Hop. unfold branch_case in H.
  destruct (get_funct3 insn) as [|[[[?|?|]|[?|?|]|]|[[?|?|]|[?|?|]|]|]|?];
    try discriminate H; injection H as <- <-; reflexivity.
Qed.

Lemma exec_alu_imm_shows insn w :
  get_opcode insn = opcode_alu_imm ->
  shows_disassembly insn w (exec_alu_imm insn true w).
Proof.
  intros Hop. unfold exec_alu_imm. cbv zeta.
  destruct (alu_imm_case _ _ _ _) as [[[mnemonic shown] result]|] eqn:Hc;
    [|apply refused_shows].
  pose proof (decode_alu_imm (pc (hart w)) _ _ _ _ _ Hop Hc) as E.
  shown_with E.
Qed.

Lemma exec_alu_reg_shows insn w :
  get_opcode insn = opcode_alu_reg ->
  shows_disassembly insn w (exec_alu_reg insn true w).
Proof.
  intros Hop. unfold exec_alu_reg. cbv zeta.
  destruct (alu_reg_case _ _ _ _) as [[mnemonic result]|] eqn:Hc;
    [|apply refused_shows].
  pose proof (decode_alu_reg (pc (hart w)) _ _ _ _ _ Hop Hc) as E.
  shown_with E.
Qed.

Lemma exec_load_shows insn w :
  get_opcode insn = opcode_load ->
  shows_disassembly insn w (exec_load insn true w).
Proof.
  intros Hop. unfold exec_load. cbv zeta.
  destruct (load_case _ _ _) as [[[mnemonic loaded] ws]|] eqn:Hc;
    [|apply refused_shows].
  pose proof (decode_load (pc (hart w)) _ _ _ _ _ _ Hop Hc) as E.
  shown_with E.
Qed.

Lemma exec_store_shows insn w :
  get_opcode insn = opcode_store ->
  shows_disassembly insn w (exec_store insn true w).
Proof.
  intros Hop. unfold exec_store. cbv zeta.
  destruct (store_case _ _ _ _) as [[[mnemonic m'] ws]|] eqn:Hc;
    [|apply refused_shows].
  pose proof (decode_store (pc (hart w)) _ _ _ _ _ _ _ Hop Hc) as E.
  shown_with E.
Qed.

Lemma exec_branch_shows insn w :
  get_opcode insn = opcode_btype ->
  shows_disassembly insn w (exec_branch insn true w).
Proof.
  intros Hop. unfold exec_branch. cbv zeta.
  destruct (branch_case _ _ _) as [[mnemonic take]|] eqn:Hc;
    [|apply refused_shows].
  pose proof (decode_branch (pc (hart w)) _ _ _ _ _ Hop Hc) as E.
  destruct take; shown_with E.
Qed.

Lemma exec_csrrx_shows insn mnemonic w :
  decode (pc (hart w)) insn = render_csrrx insn mnemonic ->
  shows_disassembly insn w (exec_csrrx insn true mnemonic w).
Proof.
  intros E. unfold exec_csrrx. cbv zeta.
  destruct (_ >=? 4096); [apply refused_shows|].
  destruct (csrrx_case _ _ _ _) as [new_val|]; [|apply refused_shows].
  destruct (get_rd insn =? 0); cbn [negb]; shown_with E.
Qed.

Lemma exec_csrrxi_shows insn mnemonic w :
  decode (pc (hart w)) insn = render_csrrxi insn mnemonic ->
  shows_disassembly insn w (exec_csrrxi insn true mnemonic w).
Proof.
  intros E. unfold exec_csrrxi. cbv zeta.
  destruct (_ >=? 4096); [apply refused_shows|].
  destruct (csrrxi_case _ _ _) as [new_val|]; [|apply refused_shows].
  destruct (get_rd insn =? 0); cbn [negb]; shown_with E.
Qed.

(** X25: the instruction trace agrees with the disassembler.  For every
    instruction word, what [exec] sends to the trace is either the text
    [decode] gives for that word at the current pc, padded to the trace
    column and followed by a comment, or (when the instruction is refused
    and the hart halts with "Illegal instruction") the bare error text. *)
Theorem trace_shows_disassembly insn w :
  shows_disassembly insn w (exec insn true w).
Proof.
  exec_dispatch_eq insn;
    auto using refused_shows, exec_lui_shows, exec_auipc_shows,
      exec_jal_shows, exec_jalr_shows, exec_alu_imm_shows,
      exec_alu_reg_shows, exec_load_shows, exec_store_shows,
      exec_branch_shows, exec_ecall_shows, exec_ebreak_shows.
  all: first [apply exec_csrrx_shows | apply exec_csrrxi_shows].
  all: match goal with
       | Hop : get_opcode _ = opcode_system, Hf : get_funct3 _ = _ |- _ =>
           decode_opcode Hop; rewrite Hf; reflexivity
       end.
Qed.

End TraceText.

(** ** hex.cpp: fixed-width numerals *)

Section HexText.

Lemma append_nil_r (s : string) : s +:+ "" = s.
Proof.
  induction s as [| x s IH]; [reflexivity|].
  change (String x (s +:+ "") = String x s). f_equal. exact IH.
Qed.

Lemma length_append (a b : string) :
  String.length (a +:+ b) = (String.length a + String.length b)%nat.
Proof.
  induction a as [| x a IH]; [reflexivity|].
  change (S (String.length (a +:+ b))
          = S (String.length a + String.length b)).
  f_equal. exact IH.
Qed.

Lemma length_fill k c : String.length (fill k c) = k.
Proof. induction k as [| k IH]; [reflexivity|]. cbn. f_equal. exact IH. Qed.

Lemma fill_snoc k c : fill k c +:+ String c "" = String c (fill k c).
Proof.
  induction k as [| k IH]; [reflexivity|].
  change (String c (fill k c +:+ String c "") = String c (String c (fill k c))).
  f_equal. exact IH.
Qed.

Lemma length_hex_digits k n : String.length (hex_digits k n) = k.
Proof.
  revert n. induction k as [| k IH]; intros n; [reflexivity|].
  cbn [hex_digits]. rewrite length_append, IH. cbn. lia.
Qed.

Lemma hex_digits_zero k : hex_digits k 0 = fill k "0".
Proof.
  induction k as [| k IH]; [reflexivity|].
  cbn [hex_digits]. change (0 / 16) with 0. change (0 mod 16) with 0.
  rewrite IH. apply fill_snoc.
Qed.

Lemma pow16_succ (d : nat) : 16 ^ Z.of_nat (S d) = 16 * 16 ^ Z.of_nat d.
Proof. rewrite Nat2Z.inj_succ, Z.pow_succ_r by lia. reflexivity. Qed.

Lemma pow16_pos (d : nat) : 0 < 16 ^ Z.of_nat d.
Proof. apply Z.pow_pos_nonneg; lia. Qed.

(** Leading zeros complete a numeral to a greater width. *)
Lemma hex_digits_extend d : forall k n,
  0 <= n < 16 ^ Z.of_nat d -> (d <= k)%nat ->
  hex_digits k n = fill (k - d) "0" +:+ hex_digits d n.
Proof.
  induction d as [| d IH]; intros k n Hn Hk.
  - change (16 ^ Z.of_nat 0) with 1 in Hn.
    replace n with 0 by lia. rewrite Nat.sub_0_r, hex_digits_zero.
    symmetry. apply append_nil_r.
  - destruct k as [| k]; [lia|].
    rewrite pow16_succ in Hn.
    cbn [hex_digits Nat.sub].
    rewrite (IH k (n / 16)) by (try lia; Z.div_mod_to_equations; lia).
    apply append_assoc.
Qed.

(** The loop of the inserter writes the digits of the number in front of
    what it has, without a leading zero. *)
Lemma digits_go_hex fuel : forall n acc,
  0 <= n < 16 ^ Z.of_nat fuel ->
  exists d,
    digits_go 16 fuel n acc = hex_digits d n +:+ acc /\
    (d <= fuel)%nat /\ n < 16 ^ Z.of_nat d /\
    (n = 0 \/ 16 ^ Z.of_nat d <= 16 * n).
Proof.
  induction fuel as [| fuel IH]; intros n acc Hn.
  - exists 0%nat. change (16 ^ Z.of_nat 0) with 1 in *.
    repeat apply conj; [reflexivity | lia | lia | left; lia].
  - rewrite pow16_succ in Hn. cbn [digits_go].
    destruct (Z.eqb_spec (n / 16) 0) as [E | E].
    + exists 1%nat. cbn [hex_digits]. change (16 ^ Z.of_nat 1) with 16.
      repeat apply conj; [reflexivity | lia | Z.div_mod_to_equations; lia |].
      destruct (Z.eq_dec n 0); [left; assumption | right; lia].
    + destruct (IH (n / 16) (String (digit_char (n mod 16)) acc))
        as (d & Hd & Hle & Hup & Hlow); [Z.div_mod_to_equations; lia|].
      exists (S d). rewrite Hd. cbn [hex_digits]. rewrite pow16_succ.
      repeat apply conj.
      * symmetry. apply append_assoc.
      * lia.
      * Z.div_mod_to_equations. lia.
      * right. destruct Hlow as [H0 | Hlow]; [lia|].
        Z.div_mod_to_equations. lia.
Qed.

Lemma log2_fuel n : 0 <= n -> n < 16 ^ Z.of_nat (S (Z.to_nat (Z.log2 n))).
Proof.
  intros Hn. rewrite pow16_succ.
  destruct (Z.eq_dec n 0) as [-> | Hne].
  - change (Z.log2 0) with 0. change (16 ^ Z.of_nat (Z.to_nat 0)) with 1. lia.
  - pose proof (Z.log2_nonneg n) as H0.
    rewrite Z2Nat.id by exact H0.
    destruct (Z.log2_spec n) as [_ Hlt]; [lia|].
    rewrite Z.pow_succ_r in Hlt by exact H0.
    assert (2 ^ Z.log2 n <= 16 ^ Z.log2 n)
      by (apply Z.pow_le_mono_l; lia).
    lia.
Qed.

(** [std::hex] with [setw(k)] and [setfill('0')] on a number of at most
    [k] digits. *)
Lemma pad_show_hex (k : nat) n :
  0 <= n < 16 ^ Z.of_nat k -> (1 <= k)%nat ->
  pad_left k "0" (show_hex n) = hex_digits k n.
Proof.
  intros Hn Hk. unfold pad_left, show_hex, digits.
  destruct (digits_go_hex _ n "" (conj (proj1 Hn) (log2_fuel n (proj1 Hn))))
    as (d & -> & Hle & Hup & Hlow).
  rewrite append_nil_r, length_hex_digits.
  symmetry. apply hex_digits_extend; [lia|].
  destruct Hlow as [-> | Hlow].
  - change (Z.log2 0) with 0 in Hle. change (Z.to_nat 0) with 0%nat in Hle.
    lia.
  - assert (Hlt : 16 ^ Z.of_nat d < 16 ^ Z.of_nat (S k))
      by (rewrite (pow16_succ k); lia).
    apply Z.pow_lt_mono_r_iff in Hlt; lia.
Qed.

(** X26: the formatters of hex.cpp give fixed-width numerals: [to_hex8]
    the two hexadecimal digits of the byte, [to_hex32] the eight digits of
    the word, [to_hex0x32] the same after "0x", [to_hex0x20] and
    [to_hex0x12] the five and three digits of the low 20 and 12 bits after
    "0x"; leading zeros are kept, so the lengths are 2, 8, 10, 7 and 5. *)
Theorem hex_fixed_width i :
  (hex.to_hex8 i = hex_digits 2 (u8 i) /\
   hex.to_hex32 i = hex_digits 8 (u32 i) /\
   hex.to_hex0x32 i = "0x" +:+ hex_digits 8 (u32 i) /\
   hex.to_hex0x20 i = "0x" +:+ hex_digits 5 (i mod 2^20) /\
   hex.to_hex0x12 i = "0x" +:+ hex_digits 3 (i mod 2^12)) /\
  (String.length (hex.to_hex8 i) = 2 /\
   String.length (hex.to_hex32 i) = 8 /\
   String.length (hex.to_hex0x32 i) = 10 /\
   String.length (hex.to_hex0x20 i) = 7 /\
   String.length (hex.to_hex0x12 i) = 5)%nat.
Proof.
  assert (H8 : hex.to_hex8 i = hex_digits 2 (u8 i)).
  { unfold hex.to_hex8. rewrite (u16_small (u8 i)) by (unfold u8; solve_pow).
    apply pad_show_hex; [|lia].
    change (16 ^ Z.of_nat 2) with 256. unfold u8. solve_pow. }
  assert (H32 : hex.to_hex32 i = hex_digits 8 (u32 i)).
  { unfold hex.to_hex32. apply pad_show_hex; [|lia].
    change (16 ^ Z.of_nat 8) with 4294967296. unfold u32. solve_pow. }
  assert (H20 : hex.to_hex0x20 i = "0x" +:+ hex_digits 5 (i mod 2^20)).
  { unfold hex.to_hex0x20. f_equal.
    change 0x000fffff with (Z.ones 20). rewrite land_ones_mod by lia.
    replace (u32 i mod 2^20) with (i mod 2^20) by (unfold u32; solve_pow).
    apply pad_show_hex; [|lia].
    change (16 ^ Z.of_nat 5) with 1048576. solve_pow. }
  assert (H12 : hex.to_hex0x12 i = "0x" +:+ hex_digits 3 (i mod 2^12)).
  { unfold hex.to_hex0x12. f_equal.
    change 0x00000fff with (Z.ones 12). rewrite land_ones_mod by lia.
    replace (u32 i mod 2^12) with (i mod 2^12) by (unfold u32; solve_pow).
    apply pad_show_hex; [|lia].
    change (16 ^ Z.of_nat 3) with 4096. solve_pow. }
  assert (H0x : hex.to_hex0x32 i = "0x" +:+ hex_digits 8 (u32 i))
    by (unfold hex.to_hex0x32; rewrite H32; reflexivity).
  split; [repeat apply conj; assumption|].
  rewrite H8, H32, H0x, H20, H12, !length_append, !length_hex_digits.
  repeat apply conj; reflexivity.
Qed.

End HexText.

(** ** The loops over the whole memory *)

Section WholeMemory.

Implicit Types (m : memory.memory).

Lemma concat_cons (x : string) (xs : list string) :
  String.concat "" (x :: xs) = x +:+ String.concat "" xs.
Proof.
  destruct xs as [| y ys]; [symmetry; apply append_nil_r | reflexivity].
Qed.

Lemma memory_dump_row_quiet m i :
  0 <= i -> i + 15 < Z.of_nat (length m) -> Z.of_nat (length m) < 2^32 ->
  snd (memory_dump_row m i) = [].
Proof.
  intros H0 Hi Hlen. unfold memory_dump_row. cbv zeta. cbn [snd].
  assert (Hcols : Forall (fun j => 0 <= j <= 15) dump_columns)
    by (unfold dump_columns; repeat (apply List.Forall_cons; [lia|]);
        apply List.Forall_nil).
  induction Hcols as [| j js Hj Hjs IH]; [reflexivity|].
  cbn [map concat]. 
  rewrite (u32_small (i + j)) by lia.
  rewrite get8_in_range by lia. cbn [snd].
  apply app_eq_nil in IH. destruct IH as [IH1 IH2].
  cbn [app]. rewrite IH1, IH2. reflexivity.
Qed.

Lemma memory_dump_loop_rows m (k : nat) : forall (n fuel r : nat),
  length m = (16 * k)%nat -> Z.of_nat (length m) < 2^32 ->
  (r + n = k)%nat -> (n <= fuel)%nat ->
  memory_dump_loop fuel m (16 * Z.of_nat r)
  = Some (String.concat ""
            (map (fun r => fst (memory_dump_row m (16 * Z.of_nat r)))
                 (seq r n)), []).
Proof.
  induction n as [| n IH]; intros fuel r Hlen Hlt Hr Hfuel.
  - destruct fuel; cbn [memory_dump_loop];
      rewrite (proj2 (Z.ltb_ge _ _)) by lia; reflexivity.
  - destruct fuel as [| fuel]; [lia|]. cbn [memory_dump_loop].
    rewrite (proj2 (Z.ltb_lt _ _)) by lia.
    pose proof (memory_dump_row_quiet m (16 * Z.of_nat r)) as Hq.
    destruct (memory_dump_row m (16 * Z.of_nat r)) as [row ws] eqn:Erow.
    cbn [snd] in Hq. rewrite Hq by lia.
    replace (u32 (16 * Z.of_nat r + 16)) with (16 * Z.of_nat (S r))
      by (rewrite u32_small; lia).
    rewrite (IH fuel (S r)) by (assumption || lia).
    cbn [seq map]. rewrite concat_cons, Erow. reflexivity.
Qed.

(** X27: [memory::dump] on a memory whose size is a multiple of 16 (as the
    constructor makes every memory) ends after size/16 passes, prints the
    rows for the addresses 0, 16, 32, ... in order and nothing else, and
    sends no warning: no read of a row leaves the memory. *)
Theorem memory_dump_rows m (k fuel : nat) :
  length m = (16 * k)%nat -> Z.of_nat (length m) < 2^32 ->
  (k <= fuel)%nat ->
  memory_dump fuel m
  = Some (String.concat ""
            (map (fun r => fst (memory_dump_row m (16 * Z.of_nat r)))
                 (seq 0 k)), []).
Proof.
  intros Hlen Hlt Hfuel.
  apply (memory_dump_loop_rows m k k fuel 0%nat); (assumption || lia).
Qed.

Lemma memory_dump_rows_witness :
  length (memory.new 0x20) = (16 * 2)%nat /\
  Z.of_nat (length (memory.new 0x20)) < 2^32 /\
  exists text, memory_dump 2 (memory.new 0x20) = Some (text, []).
Proof.
  assert (H1 : length (memory.new 0x20) = (16 * 2)%nat) by reflexivity.
  assert (H2 : Z.of_nat (length (memory.new 0x20)) < 2^32)
    by (change (Z.of_nat (length (memory.new 0x20))) with 32;
        change (2^32) with 4294967296; lia).
  assert (H3 : (2 <= 2)%nat) by lia.
  split; [exact H1|]. split; [exact H2|].
  eexists. exact (memory_dump_rows (memory.new 0x20) 2 2 H1 H2 H3).
Defined.

Lemma get32_quiet m a :
  0 <= a -> a + 3 < Z.of_nat (length m) -> Z.of_nat (length m) < 2^32 ->
  snd (memory.get32 m a) = [].
Proof.
  intros H0 Ha Hlen. unfold memory.get32, memory.get16.
  rewrite (u32_small (a + 1)), (u32_small (a + 2)) by lia.
  replace (u32 (a + 2 + 1)) with (a + 3) by (rewrite u32_small; lia).
  rewrite (get8_in_range m a), (get8_in_range m (a + 1)),
    (get8_in_range m (a + 2)), (get8_in_range m (a + 3)) by lia.
  reflexivity.
Qed.

Lemma disassemble_loop_rows m (k : nat) : forall (n fuel r : nat),
  length m = (4 * k)%nat -> Z.of_nat (length m) < 2^32 ->
  (r + n = k)%nat -> (n <= fuel)%nat ->
  disassemble_loop fuel m (4 * Z.of_nat r)
  = Some (String.concat ""
            (map (fun r => fst (disassemble_row m (4 * Z.of_nat r)))
                 (seq r n)), []).
Proof.
  induction n as [| n IH]; intros fuel r Hlen Hlt Hr Hfuel.
  - destruct fuel; cbn [disassemble_loop]; unfold memory.get_size;
      rewrite (u32_small (Z.of_nat (length m))) by lia;
      rewrite (proj2 (Z.ltb_ge _ _)) by lia; reflexivity.
  - destruct fuel as [| fuel]; [lia|]. cbn [disassemble_loop].
    unfold memory.get_size at 1.
    rewrite (u32_small (Z.of_nat (length m))) by lia.
    rewrite (proj2 (Z.ltb_lt _ _)) by lia.
    pose proof (get32_quiet m (4 * Z.of_nat r)) as Hq.
    assert (Hrow : snd (disassemble_row m (4 * Z.of_nat r)) = []).
    { unfold disassemble_row.
      destruct (memory.get32 m (4 * Z.of_nat r)) as [insn ws].
      cbn [snd] in Hq |- *. apply Hq; lia. }
    destruct (disassemble_row m (4 * Z.of_nat r)) as [row ws] eqn:Erow.
    cbn [snd] in Hrow. rewrite Hrow.
    replace (u32 (4 * Z.of_nat r + 4)) with (4 * Z.of_nat (S r))
      by (rewrite u32_small; lia).
    rewrite (IH fuel (S r)) by (assumption || lia).
    cbn [seq map]. rewrite concat_cons, Erow. reflexivity.
Qed.

(** X28: [disassemble] on a memory whose size is a multiple of 4 ends
    after size/4 passes, prints one line for each of the addresses 0, 4,
    8, ... in order and nothing else, and sends no warning: every word it
    fetches lies inside the memory. *)
Theorem disassemble_rows m (k fuel : nat) :
  length m = (4 * k)%nat -> Z.of_nat (length m) < 2^32 ->
  (k <= fuel)%nat ->
  disassemble fuel m
  = Some (String.concat ""
            (map (fun r => fst (disassemble_row m (4 * Z.of_nat r)))
                 (seq 0 k)), []).
Proof.
  intros Hlen Hlt Hfuel.
  apply (disassemble_loop_rows m k k fuel 0%nat); (assumption || lia).
Qed.

Lemma disassemble_rows_witness :
  length (memory.new 0x10) = (4 * 4)%nat /\
  Z.of_nat (length (memory.new 0x10)) < 2^32 /\
  exists text, disassemble 4 (memory.new 0x10) = Some (text, []).
Proof.
  assert (H1 : length (memory.new 0x10) = (4 * 4)%nat) by reflexivity.
  assert (H2 : Z.of_nat (length (memory.new 0x10)) < 2^32)
    by (change (Z.of_nat (length (memory.new 0x10))) with 16;
        change (2^32) with 4294967296; lia).
  assert (H3 : (4 <= 4)%nat) by lia.
  split; [exact H1|]. split; [exact H2|].
  eexists. exact (disassemble_rows (memory.new 0x10) 4 4 H1 H2 H3).
Defined.

End WholeMemory.

(** ** What the disassembler rejects is never executed *)

Section Legality.
Import rv32i_decode rv32i_hart.

Implicit Types (insn addr : Z) (w : world) (q : bool).

Lemma named_literal c rest : c <> "E"%char -> named (String c rest).
Proof. intros H. exists c, rest. split; [reflexivity | exact H]. Qed.

Lemma render_mnemonic_named mnemonic rest :
  named mnemonic -> render_mnemonic mnemonic +:+ rest <> render_illegal_insn.
Proof.
  intros (c & t & -> & Hc) H. unfold render_mnemonic, pad_right in H.
  destruct (_ || _);
    apply (f_equal (String.get 0)) in H; cbn in H;
    injection H as H; contradiction.
Qed.

Lemma alu_imm_case_named f3 f7 imm v mnemonic shown result :
  alu_imm_case f3 f7 imm v = Some (mnemonic, shown, result) -> named mnemonic.
Proof.
  unfold alu_imm_case. intros H.
  destruct f3 as [|[[[?|?|]|[?|?|]|]|[[?|?|]|[?|?|]|]|]|?];
    try discriminate H;
    try destruct (f7 =? 0); cbn [negb] in H; try destruct (f7 =? 32);
    try discriminate H;
    injection H as <- _ _; apply named_literal; discriminate.
Qed.

Lemma alu_reg_case_named f3 f7 v1 v2 mnemonic result :
  alu_reg_case f3 f7 v1 v2 = Some (mnemonic, result) -> named mnemonic.
Proof.
  unfold alu_reg_case. intros H.
  destruct f3 as [|[[[?|?|]|[?|?|]|]|[[?|?|]|[?|?|]|]|]|?];
    try discriminate H;
    destruct (f7 =? 0); cbn [negb] in H; try destruct (f7 =? 32);
    try discriminate H;
    injection H as <- _; apply named_literal; discriminate.
Qed.

Lemma load_case_named m f3 a mnemonic loaded ws :
  load_case m f3 a = Some (mnemonic, loaded, ws) -> named mnemonic.
Proof.
  unfold load_case. intros H.
  destruct f3 as [|[[[?|?|]|[?|?|]|]|[[?|?|]|[?|?|]|]|]|?];
    try discriminate H;
    repeat match type of H with
      | context [let '(_, _) := ?c in _] => destruct c
      end;
    injection H as <- _ _; apply named_literal; discriminate.
Qed.

Lemma store_case_named m f3 a v mnemonic m' ws :
  store_case m f3 a v = Some (mnemonic, m', ws) -> named mnemonic.
Proof.
  unfold store_case. intros H.
  destruct f3 as [|[[[?|?|]|[?|?|]|]|[[?|?|]|[?|?|]|]|]|?];
    try discriminate H;
    repeat match type of H with
      | context [let '(_, _) := ?c in _] => destruct c
      end;
    injection H as <- _ _; apply named_literal; discriminate.
Qed.

Lemma branch_case_named f3 v1 v2 mnemonic take :
  branch_case f3 v1 v2 = Some (mnemonic, take) -> named mnemonic.
Proof.
  unfold branch_case. intros H.
  destruct f3 as [|[[[?|?|]|[?|?|]|]|[[?|?|]|[?|?|]|]|]|?];
    try discriminate H;
    injection H as <- _; apply named_literal; discriminate.
Qed.

(** X29: the engine is at least as strict as the disassembler.  A word
    that [decode] renders as the error text is refused by [exec]: the
    hart halts with "Illegal instruction" and nothing else changes (no
    register, memory cell, CSR or pc). *)
Theorem exec_refuses_what_decode_rejects addr insn q w :
  decode addr insn = render_illegal_insn ->
  hart (exec insn q w) = with_halt true "Illegal instruction" (hart w).
Proof.
  intros Hd.
  exec_dispatch_eq insn; hart_after; try reflexivity; exfalso; revert Hd.
  all: try match goal with
       | Hop : get_opcode _ = opcode_alu_imm,
         H : alu_imm_case _ _ _ _ = Some _ |- _ =>
           rewrite (decode_alu_imm addr _ _ _ _ _ Hop H);
           apply render_mnemonic_named, (alu_imm_case_named _ _ _ _ _ _ _ H)
       | Hop : get_opcode _ = opcode_alu_reg,
         H : alu_reg_case _ _ _ _ = Some _ |- _ =>
           rewrite (decode_alu_reg addr _ _ _ _ _ Hop H);
           apply render_mnemonic_named, (alu_reg_case_named _ _ _ _ _ _ H)
       | Hop : get_opcode _ = opcode_load,
         H : load_case _ _ _ = Some _ |- _ =>
           rewrite (decode_load addr _ _ _ _ _ _ Hop H);
           apply render_mnemonic_named, (load_case_named _ _ _ _ _ _ H)
       | Hop : get_opcode _ = opcode_store,
         H : store_case _ _ _ _ = Some _ |- _ =>
           rewrite (decode_store addr _ _ _ _ _ _ _ Hop H);
           apply render_mnemonic_named, (store_case_named _ _ _ _ _ _ _ H)
       | Hop : get_opcode _ = opcode_btype,
         H : branch_case _ _ _ = Some _ |- _ =>
           rewrite (decode_branch addr _ _ _ _ _ Hop H);
           apply render_mnemonic_named, (branch_case_named _ _ _ _ _ H)
       end.
  all: match goal with
       | Hop : get_opcode _ = opcode_system, Hf : get_funct3 _ = _ |- _ =>
           decode_opcode Hop; rewrite Hf
       | Hop : get_opcode _ = _ |- _ => decode_opcode Hop
       end.
  all: try match goal with
       | H : ?x = _ |- context [?x =? _] =>
           rewrite H; intros Hd; vm_compute in Hd; discriminate Hd
       end.
  all: try (apply render_mnemonic_named, named_literal; discriminate).
Qed.

Lemma exec_refuses_what_decode_rejects_witness :
  decode 0 0xa5a5a5a5 = render_illegal_insn /\
  halt (hart (exec 0xa5a5a5a5 false
                (mk_world (new (memory.new 0x100)) "" ""))) = true.
Proof.
  assert (H : decode 0 0xa5a5a5a5 = render_illegal_insn) by reflexivity.
  split; [exact H|].
  rewrite (exec_refuses_what_decode_rejects 0 0xa5a5a5a5 false _ H).
  reflexivity.
Defined.

End Legality.

(** ** A run without trace flags prints nothing *)

Section Silence.
Import rv32i_decode rv32i_hart.

Implicit Types (insn : Z) (w : world) (hdr : string) (n : N).

Lemma exec_silent insn w : cout (exec insn false w) = cout w.
Proof.
  exec_dispatch_eq insn;
    unfold exec_lui, exec_auipc, exec_jal, exec_jalr, exec_alu_imm,
      exec_alu_reg, exec_load, exec_store, exec_branch, exec_ecall,
      exec_ebreak, exec_csrrx, exec_csrrxi, exec_illegal_insn;
    cbv zeta;
    repeat match goal with
      | |- context [match ?c with Some _ => _ | None => _ end] =>
          destruct c as [[[? ?] ?]|] || destruct c as [[? ?]|]
          || destruct c as [?|]
      | |- context [if ?b then _ else _] => destruct b
      end;
    reflexivity.
Qed.

Lemma tick_silent hdr w :
  show_instructions (hart w) = false -> show_registers (hart w) = false ->
  cout (tick hdr w) = cout w.
Proof.
  intros Hi Hr. unfold tick. rewrite Hr.
  destruct (halt (hart w)); [reflexivity|].
  destruct (negb _); [reflexivity|].
  cbv zeta. destruct (memory.get32 _ _) as [insn ws].
  cbn [hart warn count_insn on_hart show_instructions with_insn_counter].
  rewrite Hi, exec_silent. reflexivity.
Qed.

(** X30: with both trace flags clear nothing is printed while the program
    runs: after any number of ticks [std::cout] holds what it held
    before.  (Warnings go to [std::cerr] and [run] prints its report
    after the loop.) *)
Theorem silent_without_flags n hdr w :
  show_instructions (hart w) = false -> show_registers (hart w) = false ->
  cout (ticks n hdr w) = cout w.
Proof.
  intros Hi Hr. unfold ticks.
  induction n as [| n IH] using N.peano_ind; [reflexivity|].
  rewrite N.iter_succ.
  destruct (ticks_frame n hdr w) as (F1 & F2 & _).
  unfold ticks in F1, F2.
  rewrite tick_silent by congruence. exact IH.
Qed.

Lemma silent_without_flags_witness :
  let w := boot jal_self_image false false in
  show_instructions (hart w) = false /\ show_registers (hart w) = false /\
  cout (ticks 1000 "" w) = "".
Proof.
  cbv zeta.
  assert (H1 : show_instructions (hart (boot jal_self_image false false))
               = false) by reflexivity.
  assert (H2 : show_registers (hart (boot jal_self_image false false))
               = false) by reflexivity.
  split; [exact H1|]. split; [exact H2|].
  exact (silent_without_flags 1000 "" (boot jal_self_image false false) H1 H2).
Defined.

End Silence.
